(** * Currency exchange client: rate synchronisation and the caching worker

    A shallow embedding of the page script (version 1.0.4, the first script of
    the repository: [CONFIG], [AppState], [startAutoRefresh],
    [fetchExchangeRates], [calculateRealTimeChanges], [handleFetchError],
    [displayResults]) and of the service worker [sw.js] (install / activate /
    fetch handlers).

    - JavaScript numbers are IEEE binary64 values: they are modelled by Rocq's
      primitive floats, whose operations are the same IEEE operations.
    - JavaScript objects used as dictionaries are finite maps with string keys.
    - A statement that can throw returns the exception or its result.
    - An [async] function is split at its [await]: the part that runs when it
      is called, and the part that runs when the awaited request settles.
    - A cache of the Cache API answers a GET request with the response stored
      for its URL, the fragments of the two URLs left aside. *)

From Stdlib Require Import PrimFloat ZArith Ascii String List Bool.
From Stdlib Require FloatOps FloatAxioms.
From stdpp Require Import gmap strings list fin_maps pretty sorting.

Set Warnings "-inexact-float".

Open Scope Z_scope.

(* ===================================================================== *)
(** ** The page script *)
(* ===================================================================== *)

Module App.

(** *** Configuration ([CONFIG]) *)

Definition API_BASE_URL : string := "https://api.frankfurter.app".

Definition TARGET_CURRENCIES : list string :=
  ["USD"; "EUR"; "GBP"; "JPY"; "CHF"; "CAD"; "AUD"; "CNY"].

Definition REFRESH_INTERVAL : Z := 30000.

Definition TIMEOUT : Z := 10000.

(** *** What can be thrown inside [fetchExchangeRates] *)

Inductive Exception : Type :=
| ExnAbortError                 (* fetch rejected after [controller.abort()] *)
| ExnTypeError                  (* fetch rejected (network failure); a property read on null;
                                   a call of [toFixed] on a value that has none; a value
                                   that cannot be converted to a number *)
| ExnSyntaxError                (* [response.json()] rejected: the body is not JSON *)
| ExnApiError (status : Z)      (* new Error(`API_ERROR:${response.status}`) *)
| ExnInvalidResponse.           (* new Error('INVALID_RESPONSE') *)

(** [array.forEach(callback)] with the state the callback works on: the
    state reached, and the exception if a call of the callback threw (the
    remaining elements are then not visited). *)
Fixpoint forEach {S A : Type} (callback : S → A → Exception + S) (l : list A) (s : S)
    : S * option Exception :=
  match l with
  | [] => (s, None)
  | a :: l =>
      match callback s a with
      | inl error => (s, Some error)
      | inr s => forEach callback l s
      end
  end.

(** *** JavaScript values, as far as the script inspects them *)

(** ToBoolean on a number: [0], [-0] and [NaN] are falsy. [PrimFloat.eqb] is
    the IEEE comparison, so [-0 == 0] holds and [NaN == NaN] does not. *)
Definition truthy_number (x : float) : bool :=
  negb (PrimFloat.eqb x 0) && PrimFloat.eqb x x.

(** A value held by a property of [data.rates]: any JSON value. The script
    does three things with such a value: it tests it ([&&]), it does
    arithmetic on it ([-], [/]) and it calls [toFixed] on it. A number is
    kept as it is. A string is kept with the number that the language's
    conversion (StringToNumber) reads from it. Of an array or an object
    nested in [data.rates] only its conversion to a number is kept: the
    number, or nothing when the conversion throws a TypeError, as it does for
    an object with a property [toString] of its own. *)
Inductive Entry : Type :=
| ENumber (x : float)
| ENull
| EBool (b : bool)
| EString (s : string) (number : float)
| ENested (number : option float).

(** ToBoolean *)
Definition entry_truthy (v : Entry) : bool :=
  match v with
  | ENumber x => truthy_number x
  | ENull => false
  | EBool b => b
  | EString s _ => negb (String.eqb s "")
  | ENested _ => true
  end.

(** ToBoolean on the result of a property read [table[key]]: a missing key
    reads as [undefined], which is falsy. *)
Definition truthy (v : option Entry) : bool :=
  match v with
  | Some x => entry_truthy x
  | None => false
  end.

(** ToNumber, as the operators [-] and [/] apply it to an operand; [None]
    when it throws. *)
Definition ToNumber (v : Entry) : option float :=
  match v with
  | ENumber x => Some x
  | ENull => Some 0%float
  | EBool b => Some (if b then 1%float else 0%float)
  | EString _ number => Some number
  | ENested number => number
  end.

(** The value of the [rates] property of a parsed response body. *)
Inductive JsValue : Type :=
| JUndefined
| JNull
| JBool (b : bool)
| JNumber (x : float)
| JString (s : string)
| JArray (items : list Entry)
| JObject (props : gmap string Entry).

Inductive JsType : Type :=
| TUndefined | TObject | TBoolean | TNumber | TString.

Definition typeof (v : JsValue) : JsType :=
  match v with
  | JUndefined => TUndefined
  | JNull => TObject
  | JBool _ => TBoolean
  | JNumber _ => TNumber
  | JString _ => TString
  | JArray _ => TObject
  | JObject _ => TObject
  end.

Definition is_TObject (t : JsType) : bool :=
  match t with TObject => true | _ => false end.

Definition js_truthy (v : JsValue) : bool :=
  match v with
  | JUndefined | JNull => false
  | JBool b => b
  | JNumber x => truthy_number x
  | JString s => negb (String.eqb s "")
  | JArray _ | JObject _ => true
  end.

(** The own enumerable properties of a value that passed validation: what
    [currentRates[currency]] reads for a currency code, what the spread
    [{ ...currentRates }] copies and what [Object.entries] lists. An array
    has its indices as keys. *)
Definition own_properties (v : JsValue) : gmap string Entry :=
  match v with
  | JObject props => props
  | JArray items => list_to_map (imap (λ (i : nat) x, (pretty i, x)) items)
  | _ => ∅
  end.

(** A table of numbers, as the rates endpoint sends it. *)
Definition numbers (table : gmap string float) : gmap string Entry :=
  ENumber <$> table.

(** *** Application state ([AppState]) *)

Record AppState : Type := mkAppState {
  previousRates : gmap string (gmap string Entry);
  currentRates : JsValue;
  currentBaseCurrency : string;
  isOnline : bool;
  lastSuccessfulUpdate : option Z;
  autoRefreshInterval : option nat;
  isFetching : bool
}.

Definition set_previousRates (v : gmap string (gmap string Entry)) (st : AppState) : AppState :=
  mkAppState v (currentRates st) (currentBaseCurrency st) (isOnline st)
             (lastSuccessfulUpdate st) (autoRefreshInterval st) (isFetching st).

Definition set_currentRates (v : JsValue) (st : AppState) : AppState :=
  mkAppState (previousRates st) v (currentBaseCurrency st) (isOnline st)
             (lastSuccessfulUpdate st) (autoRefreshInterval st) (isFetching st).

Definition set_currentBaseCurrency (v : string) (st : AppState) : AppState :=
  mkAppState (previousRates st) (currentRates st) v (isOnline st)
             (lastSuccessfulUpdate st) (autoRefreshInterval st) (isFetching st).

Definition set_isOnline (v : bool) (st : AppState) : AppState :=
  mkAppState (previousRates st) (currentRates st) (currentBaseCurrency st) v
             (lastSuccessfulUpdate st) (autoRefreshInterval st) (isFetching st).

Definition set_lastSuccessfulUpdate (v : option Z) (st : AppState) : AppState :=
  mkAppState (previousRates st) (currentRates st) (currentBaseCurrency st) (isOnline st)
             v (autoRefreshInterval st) (isFetching st).

Definition set_autoRefreshInterval (v : option nat) (st : AppState) : AppState :=
  mkAppState (previousRates st) (currentRates st) (currentBaseCurrency st) (isOnline st)
             (lastSuccessfulUpdate st) v (isFetching st).

Definition set_isFetching (v : bool) (st : AppState) : AppState :=
  mkAppState (previousRates st) (currentRates st) (currentBaseCurrency st) (isOnline st)
             (lastSuccessfulUpdate st) (autoRefreshInterval st) v.

(** The object literal [AppState] the script starts with. *)
Definition initialAppState : AppState :=
  mkAppState ∅ (JObject ∅) "EUR" true None None false.

(** *** [calculateRealTimeChanges] *)

(** The body of the [forEach] callback, with [changes] as its state. The
    subtraction converts its two operands to numbers, the left one first;
    either conversion can throw. *)
Definition changesStep (currentRates previous : gmap string Entry) (baseCurrency : string)
    (changes : gmap string float) (currency : string) : Exception + gmap string float :=
  if negb (String.eqb currency baseCurrency)
     && truthy (currentRates !! currency) && truthy (previous !! currency)
  then
    match currentRates !! currency, previous !! currency with
    | Some currentRate, Some previousRate =>
        match ToNumber currentRate, ToNumber previousRate with
        | Some currentRate, Some previousRate =>
            let change := ((currentRate - previousRate) / previousRate * 100)%float in
            if (0.001 <? abs change)%float
            then inr (<[currency := change]> changes)
            else inr (<[currency := 0%float]> changes)
        | _, _ => inl ExnTypeError
        end
    | _, _ => inr changes
    end
  else inr changes.

(** [calculateRealTimeChanges(currentRates, baseCurrency)]: returns [changes]
    and leaves [AppState.previousRates[baseCurrency]] overwritten by a copy of
    [currentRates]; when the callback throws, the exception leaves the
    function before that assignment. *)
Definition calculateRealTimeChanges (st : AppState) (currentRates : gmap string Entry)
    (baseCurrency : string) : Exception + (gmap string float * AppState) :=
  let changes : gmap string float := ∅ in
  let previous := previousRates st !! baseCurrency in
  let '(changes, thrown) :=
    match previous with
    | Some previous =>
        forEach (changesStep currentRates previous baseCurrency) TARGET_CURRENCIES changes
    | None => (changes, None)
    end in
  match thrown with
  | Some error => inl error
  | None =>
      inr (changes, set_previousRates (<[baseCurrency := currentRates]> (previousRates st)) st)
  end.

(** *** The page's widgets

    Every element looked up by [initDOMElements] is taken to exist, so each
    [if (Elements.x)] guard of the UI helpers is passed. A [*Hidden] field
    says whether the element carries the class [hidden]. A row of the table
    is kept as the rate and the change it was made from, under its currency
    code; the text of the cells and of the time stamps is not part of the
    model. *)

Inductive ErrorMessage : Type :=
| MsgTimeout                         (* 'Request timeout. Please check ...' *)
| MsgServiceUnavailable (statusCode : Z)  (* 'Service unavailable (Error n). ...' *)
| MsgInvalidResponse                 (* 'Invalid response from server. ...' *)
| MsgNoConnection                    (* 'No internet connection. ...' *)
| MsgUnexpected.                     (* 'An unexpected error occurred.' *)

Record Ui : Type := mkUi {
  loadingHidden : bool;
  errorHidden : bool;
  errorMessage : option ErrorMessage;
  resultsHidden : bool;
  fallbackHidden : bool;
  formDisabled : bool;
  resultsTitle : option string;
  tableRows : gmap string (float * float);
  onlineIndicator : option bool
}.

Definition showLoading (u : Ui) : Ui :=
  mkUi false (errorHidden u) (errorMessage u) (resultsHidden u) (fallbackHidden u)
       (formDisabled u) (resultsTitle u) (tableRows u) (onlineIndicator u).

Definition hideLoading (u : Ui) : Ui :=
  mkUi true (errorHidden u) (errorMessage u) (resultsHidden u) (fallbackHidden u)
       (formDisabled u) (resultsTitle u) (tableRows u) (onlineIndicator u).

Definition showError (message : ErrorMessage) (u : Ui) : Ui :=
  mkUi (loadingHidden u) false (Some message) (resultsHidden u) (fallbackHidden u)
       (formDisabled u) (resultsTitle u) (tableRows u) (onlineIndicator u).

Definition hideError (u : Ui) : Ui :=
  mkUi (loadingHidden u) true (errorMessage u) (resultsHidden u) (fallbackHidden u)
       (formDisabled u) (resultsTitle u) (tableRows u) (onlineIndicator u).

Definition showResults (u : Ui) : Ui :=
  mkUi (loadingHidden u) (errorHidden u) (errorMessage u) false (fallbackHidden u)
       (formDisabled u) (resultsTitle u) (tableRows u) (onlineIndicator u).

Definition hideResults (u : Ui) : Ui :=
  mkUi (loadingHidden u) (errorHidden u) (errorMessage u) true (fallbackHidden u)
       (formDisabled u) (resultsTitle u) (tableRows u) (onlineIndicator u).

Definition showFallbackData (u : Ui) : Ui :=
  mkUi (loadingHidden u) (errorHidden u) (errorMessage u) (resultsHidden u) false
       (formDisabled u) (resultsTitle u) (tableRows u) (onlineIndicator u).

Definition hideFallbackData (u : Ui) : Ui :=
  mkUi (loadingHidden u) (errorHidden u) (errorMessage u) (resultsHidden u) true
       (formDisabled u) (resultsTitle u) (tableRows u) (onlineIndicator u).

Definition disableForm (disabled : bool) (u : Ui) : Ui :=
  mkUi (loadingHidden u) (errorHidden u) (errorMessage u) (resultsHidden u) (fallbackHidden u)
       disabled (resultsTitle u) (tableRows u) (onlineIndicator u).

Definition updateOnlineStatusIndicator (st : AppState) (u : Ui) : Ui :=
  mkUi (loadingHidden u) (errorHidden u) (errorMessage u) (resultsHidden u) (fallbackHidden u)
       (formDisabled u) (resultsTitle u) (tableRows u) (Some (isOnline st)).

Definition set_tableRows (rows : gmap string (float * float)) (u : Ui) : Ui :=
  mkUi (loadingHidden u) (errorHidden u) (errorMessage u) (resultsHidden u) (fallbackHidden u)
       (formDisabled u) (resultsTitle u) rows (onlineIndicator u).

Definition set_resultsTitle (title : string) (u : Ui) : Ui :=
  mkUi (loadingHidden u) (errorHidden u) (errorMessage u) (resultsHidden u) (fallbackHidden u)
       (formDisabled u) (Some title) (tableRows u) (onlineIndicator u).

(** [changes[currency] || 0] *)
Definition changeOrZero (changes : gmap string float) (currency : string) : float :=
  match changes !! currency with
  | Some c => if truthy_number c then c else 0%float
  | None => 0%float
  end.

(** [createTableRow(currency, rate, change)]: [rate.toFixed(4)] is a call of
    a method that only a number has; on any other JSON value the call throws
    a TypeError. *)
Definition createTableRow (currency : string) (rate : Entry) (change : float)
    : Exception + (float * float) :=
  match rate with
  | ENumber x => inr (x, change)
  | _ => inl ExnTypeError
  end.

(** The order of [a.localeCompare(b)] on the codes that pass the filter of
    [displayResults]: these are among [TARGET_CURRENCIES], words of capital
    letters, which every locale orders as their character codes do. *)
Definition localeCompare_le (a b : string * Entry) : Prop :=
  Is_true (String.leb a.1 b.1).

#[global] Instance localeCompare_le_dec (a b : string * Entry) : Decision (localeCompare_le a b) :=
  Is_true_dec _.

(** The entries of [data.rates] that [displayResults] shows: those whose
    code is a target currency other than the base, in alphabetical order. *)
Definition filteredRates (rates : gmap string Entry) (baseCurrency : string)
    : list (string * Entry) :=
  merge_sort localeCompare_le
    (filter (λ kv : string * Entry, kv.1 ∈ TARGET_CURRENCIES ∧ kv.1 ≠ baseCurrency)
            (map_to_list rates)).

(** The body of the [forEach] callback of [displayResults], with the rows of
    the table as its state. *)
Definition appendRow (changes : gmap string float) (rows : gmap string (float * float))
    (kv : string * Entry) : Exception + gmap string (float * float) :=
  let change := changeOrZero changes kv.1 in
  match createTableRow kv.1 kv.2 change with
  | inl error => inl error
  | inr row => inr (<[kv.1 := row]> rows)
  end.

(** [displayResults(data, baseCurrency, changes)]: the table is emptied and
    the title set; then one row is appended for each entry of [data.rates]
    whose code is a target currency other than the base; the results are
    shown at the end. When [createTableRow] throws, the rows appended so far
    stay and the results are not shown. *)
Definition displayResults (rates : gmap string Entry) (baseCurrency : string)
    (changes : gmap string float) (u : Ui) : Ui * option Exception :=
  let u := set_tableRows ∅ u in
  let u := set_resultsTitle baseCurrency u in
  let '(rows, thrown) :=
    forEach (appendRow changes) (filteredRates rates baseCurrency) (tableRows u) in
  let u := set_tableRows rows u in
  match thrown with
  | Some error => (u, Some error)
  | None => (showResults u, None)
  end.

(** [handleFetchError(error)]. The messages of a TypeError and of a
    SyntaxError are the browser's: they neither start with 'API_ERROR:' nor
    equal 'INVALID_RESPONSE'. *)
Definition handleFetchError (error : Exception) (st : AppState) (u : Ui) : Ui :=
  let errorMessage :=
    match error with
    | ExnAbortError => MsgTimeout
    | ExnApiError statusCode => MsgServiceUnavailable statusCode
    | ExnInvalidResponse => MsgInvalidResponse
    | ExnTypeError | ExnSyntaxError =>
        if negb (isOnline st) then MsgNoConnection else MsgUnexpected
    end in
  let u := showError errorMessage u in
  if (0 <? size (previousRates st))%nat then showFallbackData u else u.

(** *** The host: interval timers and suspended calls *)

Record Host : Type := mkHost {
  timers : list nat;          (* ids of the interval timers that are set *)
  nextTimerId : nat;          (* the id the next [setInterval] returns *)
  pending : list string       (* [baseCurrency] of each call suspended at its [await fetch] *)
}.

Record Page : Type := mkPage {
  app : AppState;
  ui : Ui;
  host : Host
}.

(** A timer id is a positive integer; [null] and [0] are falsy. *)
Definition timer_truthy (t : option nat) : bool :=
  match t with
  | Some (S _) => true
  | _ => false
  end.

(** [startAutoRefresh()]: clears the interval in [AppState.autoRefreshInterval],
    if any, and sets a new one. *)
Definition startAutoRefresh (w : Page) : Page :=
  let h := host w in
  let cleared :=
    match autoRefreshInterval (app w) with
    | Some id => if timer_truthy (Some id)
                 then List.filter (λ t, negb (Nat.eqb t id)) (timers h)
                 else timers h
    | None => timers h
    end in
  let id := nextTimerId h in
  mkPage (set_autoRefreshInterval (Some id) (app w))
         (ui w)
         (mkHost (id :: cleared) (S id) (pending h)).

(** *** [fetchExchangeRates] *)

(** How [await fetch(...)] and [await response.json()] settle. *)
Inductive JsonBody : Type :=
| BodyNotJson                   (* [response.json()] rejects *)
| BodyNull                      (* the body is the JSON text null *)
| BodyValue (rates : JsValue).  (* any other JSON value; [rates] is its [rates] property,
                                   [JUndefined] when it has none *)

Inductive FetchResult : Type :=
| FetchAborted                  (* the 10 s timer fired first: AbortError *)
| FetchFailed                   (* no response: TypeError *)
| FetchResponse (status : Z) (body : JsonBody).

(** [response.ok] *)
Definition response_ok (status : Z) : bool :=
  (200 <=? status) && (status <=? 299).

Definition requestUrl (baseCurrency : string) : string :=
  API_BASE_URL +:+ "/latest?from=" +:+ baseCurrency.

Inductive SyncStart : Type :=
| Busy                               (* 'Fetch already in progress, skipping...' *)
| Started (baseCurrency : string).   (* a request for [requestUrl baseCurrency] was issued *)

Inductive SyncOutcome : Type :=
| SyncSuccess (changes : gmap string float)
| SyncFailure (error : Exception).

(** The call of [fetchExchangeRates()], up to its first [await]. *)
Definition fetchExchangeRates_begin (w : Page) : Page * SyncStart :=
  if isFetching (app w) then (w, Busy)
  else
    let baseCurrency := currentBaseCurrency (app w) in
    let st := set_isFetching true (app w) in
    let u := disableForm true (hideFallbackData (hideResults (hideError (showLoading (ui w))))) in
    let h := mkHost (timers (host w)) (nextTimerId (host w)) (pending (host w) ++ [baseCurrency]) in
    (mkPage st u h, Started baseCurrency).

(** The [try] block after the request has settled. It returns the page as
    the block leaves it and either the exception thrown or [changes]. *)
Definition fetchExchangeRates_try (w : Page) (baseCurrency : string) (r : FetchResult) (now : Z)
    : Page * (Exception + gmap string float) :=
  match r with
  | FetchAborted => (w, inl ExnAbortError)
  | FetchFailed => (w, inl ExnTypeError)
  | FetchResponse status body =>
      if negb (response_ok status) then (w, inl (ExnApiError status))
      else
        match body with
        | BodyNotJson => (w, inl ExnSyntaxError)
        | BodyNull => (w, inl ExnTypeError)
        | BodyValue rates =>
            if negb (js_truthy rates) || negb (is_TObject (typeof rates))
            then (w, inl ExnInvalidResponse)
            else
              match calculateRealTimeChanges (app w) (own_properties rates) baseCurrency with
              | inl error => (w, inl error)
              | inr (changes, st) =>
                  let st := set_lastSuccessfulUpdate (Some now) st in
                  let st := set_isOnline true st in
                  let st := set_currentRates rates st in
                  let '(u, thrown) :=
                    displayResults (own_properties rates) baseCurrency changes (ui w) in
                  let w := mkPage st u (host w) in
                  match thrown with
                  | Some error => (w, inl error)
                  | None =>
                      let w := if negb (timer_truthy (autoRefreshInterval (app w)))
                               then startAutoRefresh w else w in
                      (w, inr changes)
                  end
              end
        end
  end.

(** The rest of [fetchExchangeRates()] once the request has settled: the
    [try] block, the [catch] clause and the [finally] clause. *)
Definition fetchExchangeRates_resume (w : Page) (baseCurrency : string) (r : FetchResult) (now : Z)
    : Page * SyncOutcome :=
  let '(w, result) := fetchExchangeRates_try w baseCurrency r now in
  let '(w, outcome) :=
    match result with
    | inr changes => (w, SyncSuccess changes)
    | inl error => (mkPage (app w) (handleFetchError error (app w) (ui w)) (host w), SyncFailure error)
    end in
  let st := set_isFetching false (app w) in
  let u := updateOnlineStatusIndicator st (disableForm false (hideLoading (ui w))) in
  (mkPage st u (host w), outcome).

(** *** Event handlers *)

(** The callback given to [setInterval] by [startAutoRefresh]. *)
Definition autoRefreshTick (w : Page) : Page * option SyncStart :=
  if isOnline (app w) && negb (isFetching (app w))
  then let '(w, s) := fetchExchangeRates_begin w in (w, Some s)
  else (w, None).

(** [handleFetchButtonClick] *)
Definition handleFetchButtonClick (w : Page) : Page :=
  fst (fetchExchangeRates_begin w).

(** [handleCurrencyChange], with the value of the select box. *)
Definition handleCurrencyChange (newBaseCurrency : string) (w : Page) : Page :=
  fst (fetchExchangeRates_begin
         (mkPage (set_currentBaseCurrency newBaseCurrency (app w)) (ui w) (host w))).

(** [handleOnlineStatus], with the value of [navigator.onLine]. *)
Definition handleOnlineStatus (onLine : bool) (w : Page) : Page :=
  let st := set_isOnline onLine (app w) in
  let w := mkPage st (updateOnlineStatusIndicator st (ui w)) (host w) in
  if isOnline (app w) && negb (isFetching (app w))
  then fst (fetchExchangeRates_begin w)
  else w.

(** The table [loadFallbackData] makes up. [random n] is what the [n]-th
    call of [Math.random()] returns. *)
Definition sampleRates (random : nat → float) : gmap string Entry :=
  numbers
    {[ "USD" := (1.0854 + (random 0%nat - 0.5) * 0.02)%float;
       "EUR" := 1.0000%float;
       "GBP" := (0.8574 + (random 1%nat - 0.5) * 0.01)%float;
       "JPY" := (161.25 + (random 2%nat - 0.5) * 0.5)%float;
       "CHF" := (0.9456 + (random 3%nat - 0.5) * 0.005)%float;
       "CAD" := (1.4678 + (random 4%nat - 0.5) * 0.01)%float;
       "AUD" := (1.6523 + (random 5%nat - 0.5) * 0.015)%float;
       "CNY" := (7.8564 + (random 6%nat - 0.5) * 0.05)%float ]}.

(** [loadFallbackData()], exported on [window]: the page it leaves, and the
    exception if one of its calls threw (nothing catches it). *)
Definition loadFallbackData (random : nat → float) (w : Page) : Page * option Exception :=
  let baseCurrency := currentBaseCurrency (app w) in
  let rates := sampleRates random in
  match calculateRealTimeChanges (app w) rates baseCurrency with
  | inl error => (w, Some error)
  | inr (changes, st) =>
      let u := hideError (ui w) in
      let '(u, thrown) := displayResults rates baseCurrency changes u in
      match thrown with
      | Some error => (mkPage st u (host w), Some error)
      | None => (mkPage st (showFallbackData u) (host w), None)
      end
  end.

(** What the event loop can deliver to the page. *)
Inductive Event : Type :=
| Click
| CurrencyChange (newBaseCurrency : string)
| Connectivity (onLine : bool)
| Tick (id : nat)
| Settle (r : FetchResult) (now : Z)
| LoadFallback (random : nat → float).

(** One turn of the event loop. A timer that is not set does not fire, and
    nothing settles when no call is suspended. *)
Definition dispatch (w : Page) (e : Event) : Page :=
  match e with
  | Click => handleFetchButtonClick w
  | CurrencyChange c => handleCurrencyChange c w
  | Connectivity b => handleOnlineStatus b w
  | Tick id =>
      if bool_decide (id ∈ timers (host w)) then fst (autoRefreshTick w) else w
  | Settle r now =>
      match pending (host w) with
      | baseCurrency :: rest =>
          let w := mkPage (app w) (ui w) (mkHost (timers (host w)) (nextTimerId (host w)) rest) in
          fst (fetchExchangeRates_resume w baseCurrency r now)
      | [] => w
      end
  | LoadFallback random => fst (loadFallbackData random w)
  end.

Definition run (w : Page) (events : list Event) : Page :=
  foldl dispatch w events.

(** *** The diff as the specification words it

    "For each currency present in both tables:
    change = (current[c] - previous[c]) / previous[c] * 100; values with
    |change| < 0.001 are normalized to exactly 0; currency codes absent from
    either table are excluded; if previous is absent, the result is empty." *)
Definition diff_as_specified (current : gmap string float)
    (previous : option (gmap string float)) : gmap string float :=
  match previous with
  | None => ∅
  | Some previous =>
      map_zip_with
        (λ x y, let change := ((x - y) / y * 100)%float in
                if (abs change <? 0.001)%float then 0%float else change)
        current previous
  end.

(** A rates table in the specification's sense: an object keyed by currency
    code. *)
Definition is_table (v : JsValue) : bool :=
  match v with JObject _ => true | _ => false end.

Definition is_array (v : JsValue) : bool :=
  match v with JArray _ => true | _ => false end.

(** *** How a change is shown *)

(** The [className] that [getChangeDisplayInfo(change)] returns: the text of
    the cell, with its two decimals, is not modelled. *)
Inductive ChangeClass : Type :=
| ChangeNeutral     (* 'change-neutral', shown as Stable *)
| ChangePositive    (* 'change-positive' *)
| ChangeNegative.   (* 'change-negative' *)

Definition getChangeDisplayInfo (change : float) : ChangeClass :=
  let absChange := abs change in
  if (absChange <? 0.001)%float then ChangeNeutral
  else if (0 <? change)%float then ChangePositive
  else ChangeNegative.

(** A page to run examples on: the script's initial [AppState], every panel
    hidden, the form enabled, no timer set and no call suspended. *)
Definition examplePage : Page :=
  mkPage initialAppState
         (mkUi true true None true true false None ∅ None)
         (mkHost [] 1 []).

(** *** Properties of [calculateRealTimeChanges] *)

(** The outcome of a call of [calculateRealTimeChanges] for its caller: the
    exception, or the ChangeSet returned. *)
Definition changes_of (result : Exception + (gmap string float * AppState))
    : Exception + gmap string float :=
  match result with
  | inl error => inl error
  | inr (changes, _) => inr changes
  end.

(** The guard of the [forEach] callback. *)
Definition callback_guard (currentRates previous : gmap string Entry) (baseCurrency c : string)
    : bool :=
  negb (String.eqb c baseCurrency) && truthy (currentRates !! c) && truthy (previous !! c).

(** Whether the two operands of the callback's subtraction convert to
    numbers. *)
Definition callback_converts (currentRates previous : gmap string Entry) (c : string) : bool :=
  match currentRates !! c, previous !! c with
  | Some x, Some y =>
      match ToNumber x, ToNumber y with
      | Some _, Some _ => true
      | _, _ => false
      end
  | _, _ => true
  end.

(** The percentage the callback stores: [change] when its magnitude exceeds
    [0.001], and [0] otherwise. *)
Definition normalized_change (x y : float) : float :=
  let change := ((x - y) / y * 100)%float in
  if (0.001 <? abs change)%float then change else 0%float.

(** The value the callback stores for a currency that passes the guard. *)
Definition callback_entry (currentRates previous : gmap string Entry) (c : string)
    : option float :=
  match currentRates !! c, previous !! c with
  | Some x, Some y =>
      match ToNumber x, ToNumber y with
      | Some x, Some y => Some (normalized_change x y)
      | _, _ => None
      end
  | _, _ => None
  end.

Section Changes.

Variables (currentRates previous : gmap string Entry) (baseCurrency : string).

Let guard := callback_guard currentRates previous baseCurrency.
Let converts := callback_converts currentRates previous.
Let entry := callback_entry currentRates previous.

Lemma changesStep_cases (changes : gmap string float) (a : string) :
  match changesStep currentRates previous baseCurrency changes a with
  | inr changes' =>
      (guard a = true → converts a = true)
      ∧ ∀ c, changes' !! c = if bool_decide (c = a) && guard c then entry c else changes !! c
  | inl error => error = ExnTypeError ∧ guard a = true ∧ converts a = false
  end.
Proof.
  unfold changesStep, guard, converts, entry, callback_guard, callback_converts, callback_entry,
    normalized_change.
  destruct (negb (a =? baseCurrency)%string && truthy (currentRates !! a)
            && truthy (previous !! a)) eqn:Hg.
  - destruct (currentRates !! a) as [x|] eqn:Hx, (previous !! a) as [y|] eqn:Hy;
      try (cbn in Hg; rewrite ?andb_false_r in Hg; discriminate).
    destruct (ToNumber x) as [xn|] eqn:Hxn, (ToNumber y) as [yn|] eqn:Hyn;
      try (repeat split; reflexivity).
    cbv zeta.
    destruct (0.001 <? abs ((xn - yn) / yn * 100))%float eqn:Hbig.
    all: split; [reflexivity|]; intros c.
    all: destruct (decide (c = a)) as [->|Hne];
      [ rewrite bool_decide_eq_true_2 by reflexivity; cbn [andb];
        rewrite Hx, Hy, Hg, Hxn, Hyn, Hbig; by rewrite lookup_insert_eq
      | rewrite bool_decide_eq_false_2 by assumption; cbn [andb];
        by rewrite lookup_insert_ne ].
  - split; [discriminate|]. intros c.
    destruct (decide (c = a)) as [->|Hne].
    + rewrite bool_decide_eq_true_2 by reflexivity. cbn [andb]. by rewrite Hg.
    + by rewrite bool_decide_eq_false_2 by assumption.
Qed.

Lemma forEach_changesStep (l : list string) :
  ∀ changes : gmap string float,
    match forEach (changesStep currentRates previous baseCurrency) l changes with
    | (changes', None) =>
        (∀ c, c ∈ l → guard c = true → converts c = true)
        ∧ ∀ c, changes' !! c = if bool_decide (c ∈ l) && guard c then entry c else changes !! c
    | (_, Some error) =>
        error = ExnTypeError ∧ ∃ c, c ∈ l ∧ guard c = true ∧ converts c = false
    end.
Proof.
  induction l as [|a l IH]; intros changes; cbn [forEach].
  - split; [by intros c ?%not_elem_of_nil|]. intros c.
    rewrite bool_decide_eq_false_2; [reflexivity|]. apply not_elem_of_nil.
  - pose proof (changesStep_cases changes a) as Hstep.
    destruct (changesStep currentRates previous baseCurrency changes a) as [error|changes1].
    + destruct Hstep as (-> & Hg & Hc). split; [reflexivity|].
      exists a. split; [apply list_elem_of_here | by split].
    + destruct Hstep as [Hconv Hlook]. specialize (IH changes1).
      destruct (forEach (changesStep currentRates previous baseCurrency) l changes1)
        as [changes' [error|]].
      * destruct IH as (-> & c & Hin & Hg & Hc). split; [reflexivity|].
        exists c. split; [by apply list_elem_of_further | by split].
      * destruct IH as [Hall Hlook']. split.
        -- intros c [->|Hin]%elem_of_cons; [exact Hconv | by apply Hall].
        -- intros c. rewrite Hlook', Hlook.
           destruct (decide (c = a)) as [->|Hne].
           ++ rewrite (bool_decide_eq_true_2 (a = a)) by reflexivity.
              rewrite (bool_decide_eq_true_2 (a ∈ a :: l)) by apply list_elem_of_here.
              cbn [andb]. destruct (guard a); [|by rewrite andb_false_r].
              by destruct (bool_decide (a ∈ l)).
           ++ rewrite (bool_decide_eq_false_2 (c = a)) by assumption. cbn [andb].
              destruct (decide (c ∈ l)) as [Hin|Hnin].
              ** rewrite (bool_decide_eq_true_2 (c ∈ l)) by assumption.
                 rewrite (bool_decide_eq_true_2 (c ∈ a :: l)); [reflexivity|].
                 by apply list_elem_of_further.
              ** rewrite (bool_decide_eq_false_2 (c ∈ l)) by assumption.
                 rewrite (bool_decide_eq_false_2 (c ∈ a :: l)); [reflexivity|].
                 intros [?|?]%elem_of_cons; contradiction.
Qed.

End Changes.

(** Whether [calculateRealTimeChanges] throws: it does when, for a target
    currency that passes the callback's guard, an operand of the subtraction
    does not convert to a number. *)
Definition calculation_throws (st : AppState) (currentRates : gmap string Entry)
    (baseCurrency : string) : bool :=
  match previousRates st !! baseCurrency with
  | Some previous =>
      existsb (λ c, callback_guard currentRates previous baseCurrency c
                    && negb (callback_converts currentRates previous c))
              TARGET_CURRENCIES
  | None => false
  end.

(** What [calculateRealTimeChanges] does, in terms of the callback's guard:
    it throws a TypeError, or it returns the ChangeSet and the state with the
    snapshot of the base currency overwritten. *)
Lemma calculateRealTimeChanges_cases
    (st : AppState) (currentRates : gmap string Entry) (baseCurrency : string) :
  match calculateRealTimeChanges st currentRates baseCurrency with
  | inr (changes, st') =>
      calculation_throws st currentRates baseCurrency = false
      ∧ st' = set_previousRates (<[baseCurrency := currentRates]> (previousRates st)) st
      ∧ ∀ c, changes !! c =
             match previousRates st !! baseCurrency with
             | Some previous =>
                 if bool_decide (c ∈ TARGET_CURRENCIES)
                    && callback_guard currentRates previous baseCurrency c
                 then callback_entry currentRates previous c
                 else None
             | None => None
             end
  | inl error =>
      error = ExnTypeError ∧ calculation_throws st currentRates baseCurrency = true
  end.
Proof.
  unfold calculateRealTimeChanges, calculation_throws.
  destruct (previousRates st !! baseCurrency) as [previous|].
  - pose proof (forEach_changesStep currentRates previous baseCurrency TARGET_CURRENCIES ∅)
      as Hfold.
    destruct (forEach (changesStep currentRates previous baseCurrency) TARGET_CURRENCIES ∅)
      as [changes [error|]].
    + destruct Hfold as (-> & c & Hin & Hg & Hc). split; [reflexivity|].
      apply existsb_exists. exists c. split; [by apply list_elem_of_In|].
      by rewrite Hg, Hc.
    + destruct Hfold as [Hall Hlook]. split; [|split; [reflexivity|]].
      * apply not_true_is_false. intros (c & Hin & Hc)%existsb_exists.
        apply andb_true_iff in Hc as [Hg Hc]. apply list_elem_of_In in Hin.
        rewrite (Hall c Hin Hg) in Hc. discriminate.
      * intros c. rewrite Hlook. by rewrite lookup_empty.
  - split; [reflexivity|]. split; [reflexivity|]. intros c. apply lookup_empty.
Qed.

Lemma calculateRealTimeChanges_returns
    (st : AppState) (currentRates : gmap string Entry) (baseCurrency : string) :
  calculation_throws st currentRates baseCurrency = false →
  ∃ changes,
    calculateRealTimeChanges st currentRates baseCurrency
    = inr (changes, set_previousRates (<[baseCurrency := currentRates]> (previousRates st)) st).
Proof.
  intros Hno. pose proof (calculateRealTimeChanges_cases st currentRates baseCurrency) as H.
  destruct (calculateRealTimeChanges st currentRates baseCurrency) as [error|[changes st']].
  - destruct H as [_ H]. congruence.
  - destruct H as (_ & -> & _). by exists changes.
Qed.

(** Tables whose entries all convert to numbers: numbers, null, booleans and
    strings do. *)
Definition converts_all (table : gmap string Entry) : Prop :=
  ∀ c x, table !! c = Some x → ToNumber x ≠ None.

Lemma numbers_converts_all (table : gmap string float) : converts_all (numbers table).
Proof.
  intros c x. unfold numbers. rewrite lookup_fmap.
  destruct (table !! c); [|discriminate]. by intros [= <-].
Qed.

Lemma calculation_throws_converts
    (st : AppState) (currentRates : gmap string Entry) (baseCurrency : string) :
  (∀ previous, previousRates st !! baseCurrency = Some previous → converts_all previous) →
  converts_all currentRates →
  calculation_throws st currentRates baseCurrency = false.
Proof.
  intros Hprev Hcur. unfold calculation_throws.
  destruct (previousRates st !! baseCurrency) as [previous|]; [|reflexivity].
  apply not_true_is_false. intros (c & _ & Hc)%existsb_exists.
  apply andb_true_iff in Hc as [_ Hc]. apply negb_true_iff in Hc.
  unfold callback_converts in Hc.
  destruct (currentRates !! c) as [x|] eqn:Hx; [|discriminate].
  destruct (previous !! c) as [y|] eqn:Hy; [|discriminate].
  specialize (Hcur c x Hx). specialize (Hprev previous eq_refl c y Hy).
  destruct (ToNumber x), (ToNumber y); congruence.
Qed.



(** What JavaScript takes for false among the numbers. *)
Example truthy_number_values :
  truthy_number 0 = false
  ∧ truthy_number neg_zero = false
  ∧ truthy_number nan = false
  ∧ truthy_number 1.08 = true
  ∧ truthy_number infinity = true.
Proof. vm_compute. repeat split; reflexivity. Qed.

Lemma calculateRealTimeChanges_no_previous_eq
    (st : AppState) (currentRates : gmap string Entry) (baseCurrency : string) :
  previousRates st !! baseCurrency = None →
  calculateRealTimeChanges st currentRates baseCurrency
  = inr (∅, set_previousRates (<[baseCurrency := currentRates]> (previousRates st)) st).
Proof.
  intros Hnone. unfold calculateRealTimeChanges. rewrite Hnone. reflexivity.
Qed.

(** C1, as amended. When a snapshot [previous] is stored for the base
    currency, the ChangeSet that the calculation returns maps a currency code
    [c] to [((current[c] - previous[c]) / previous[c]) * 100], replaced by [0]
    unless its magnitude exceeds [0.001], exactly when [c] is one of
    [TARGET_CURRENCIES], differs from the base currency, and has a rate that
    is neither [0] nor [NaN] in both tables; every other code is absent. For
    an entry that is not a number the test is its truthiness and the
    arithmetic is done on its conversion to a number. The calculation returns
    whenever the entries of the two tables convert to numbers, as numbers do;
    otherwise it can throw a TypeError. *)
Theorem calculateRealTimeChanges_entry
    (st : AppState) (currentRates previous : gmap string Entry) (baseCurrency : string) :
  previousRates st !! baseCurrency = Some previous →
  (∀ changes st', calculateRealTimeChanges st currentRates baseCurrency = inr (changes, st') →
     ∀ c, changes !! c
          = match currentRates !! c, previous !! c with
            | Some current, Some prev =>
                if bool_decide (c ∈ TARGET_CURRENCIES) && negb (String.eqb c baseCurrency)
                   && entry_truthy current && entry_truthy prev
                then match ToNumber current, ToNumber prev with
                     | Some x, Some y =>
                         Some (let change := ((x - y) / y * 100)%float in
                               if (0.001 <? abs change)%float then change else 0%float)
                     | _, _ => None
                     end
                else None
            | _, _ => None
            end)
  ∧ (converts_all currentRates → converts_all previous →
     ∃ changes st', calculateRealTimeChanges st currentRates baseCurrency = inr (changes, st'))
  ∧ (∀ error, calculateRealTimeChanges st currentRates baseCurrency = inl error →
       error = ExnTypeError
       ∧ ∃ c current prev,
           c ∈ TARGET_CURRENCIES ∧ currentRates !! c = Some current ∧ previous !! c = Some prev
           ∧ (ToNumber current = None ∨ ToNumber prev = None)).
Proof.
  intros Hprev.
  pose proof (calculateRealTimeChanges_cases st currentRates baseCurrency) as Hcases.
  split; [|split].
  - intros changes st' Hret c. rewrite Hret, Hprev in Hcases.
    destruct Hcases as (_ & _ & Hlook). rewrite Hlook.
    unfold callback_guard, callback_entry, normalized_change.
    destruct (currentRates !! c) as [x|] eqn:Hx, (previous !! c) as [y|] eqn:Hy; cbn [truthy].
    + destruct (bool_decide (c ∈ TARGET_CURRENCIES)), (negb (c =? baseCurrency)%string),
        (entry_truthy x), (entry_truthy y); reflexivity.
    + by rewrite !andb_false_r.
    + by destruct (bool_decide (c ∈ TARGET_CURRENCIES)), (negb (c =? baseCurrency)%string).
    + by rewrite !andb_false_r.
  - intros Hcur Hprv.
    destruct (calculateRealTimeChanges_returns st currentRates baseCurrency) as [changes Hret].
    + apply calculation_throws_converts; [|exact Hcur].
      intros previous' Hprev'. rewrite Hprev in Hprev'. by injection Hprev' as <-.
    + eauto.
  - intros error Hthrow. rewrite Hthrow in Hcases. destruct Hcases as [-> Hthrows].
    split; [reflexivity|].
    unfold calculation_throws in Hthrows. rewrite Hprev in Hthrows.
    apply existsb_exists in Hthrows as (c & Hin & Hc).
    apply andb_true_iff in Hc as [_ Hc]. apply negb_true_iff in Hc.
    unfold callback_converts in Hc.
    destruct (currentRates !! c) as [x|] eqn:Hx; [|discriminate].
    destruct (previous !! c) as [y|] eqn:Hy; [|discriminate].
    exists c, x, y. split; [by apply list_elem_of_In|]. split; [exact Hx|].
    split; [exact Hy|].
    destruct (ToNumber x); [|by left]. destruct (ToNumber y); [discriminate | by right].
Qed.

Lemma calculateRealTimeChanges_entry_witness :
  ∃ changes st',
    calculateRealTimeChanges
      (set_previousRates {[ "EUR" := numbers {[ "USD" := 1.25%float ]} ]} initialAppState)
      (numbers {[ "USD" := 1.5%float ]}) "EUR" = inr (changes, st')
    ∧ changes !! "USD" = Some 20%float.
Proof.
  assert (Hprev : previousRates
                    (set_previousRates {[ "EUR" := numbers {[ "USD" := 1.25%float ]} ]}
                       initialAppState) !! "EUR"
                  = Some (numbers {[ "USD" := 1.25%float ]})) by (vm_compute; reflexivity).
  destruct (calculateRealTimeChanges_entry _ (numbers {[ "USD" := 1.5%float ]}) _ "EUR" Hprev)
    as (Hentry & _ & _).
  destruct (calculateRealTimeChanges _ _ _) as [error|[changes st']] eqn:Hcalc;
    [vm_compute in Hcalc; discriminate|].
  exists changes, st'. split; [reflexivity|].
  rewrite (Hentry changes st' eq_refl "USD"). vm_compute. reflexivity.
Defined.

(** On tables of numbers the calculation returns, and the entries of its
    ChangeSet are given by the rates themselves. *)
Lemma calculateRealTimeChanges_on_numbers
    (st : AppState) (currentRates previous : gmap string float) (baseCurrency : string) :
  previousRates st !! baseCurrency = Some (numbers previous) →
  ∃ changes,
    calculateRealTimeChanges st (numbers currentRates) baseCurrency
    = inr (changes,
           set_previousRates (<[baseCurrency := numbers currentRates]> (previousRates st)) st)
    ∧ ∀ c, changes !! c
           = match currentRates !! c, previous !! c with
             | Some x, Some y =>
                 if bool_decide (c ∈ TARGET_CURRENCIES) && negb (String.eqb c baseCurrency)
                    && truthy_number x && truthy_number y
                 then Some (let change := ((x - y) / y * 100)%float in
                            if (0.001 <? abs change)%float then change else 0%float)
                 else None
             | _, _ => None
             end.
Proof.
  intros Hprev.
  destruct (calculateRealTimeChanges_returns st (numbers currentRates) baseCurrency)
    as [changes Hret].
  { apply calculation_throws_converts; [|apply numbers_converts_all].
    intros p Hp. rewrite Hprev in Hp. injection Hp as <-. apply numbers_converts_all. }
  exists changes. split; [exact Hret|]. intros c.
  pose proof (calculateRealTimeChanges_cases st (numbers currentRates) baseCurrency) as Hcases.
  rewrite Hret, Hprev in Hcases. destruct Hcases as (_ & _ & Hlook). rewrite Hlook.
  unfold callback_guard, callback_entry, normalized_change, numbers. rewrite !lookup_fmap.
  destruct (currentRates !! c) as [x|], (previous !! c) as [y|]; cbn.
  - destruct (bool_decide (c ∈ TARGET_CURRENCIES)), (negb (c =? baseCurrency)%string),
      (truthy_number x), (truthy_number y); reflexivity.
  - by rewrite !andb_false_r.
  - by destruct (bool_decide (c ∈ TARGET_CURRENCIES)), (negb (c =? baseCurrency)%string).
  - by rewrite !andb_false_r.
Qed.

(** C1, as the specification states it, fails: NZD is present in both tables
    and the specified diff gives it a change of 25 percent, but the code leaves
    every code outside [TARGET_CURRENCIES] out of the ChangeSet. *)
Lemma calculateRealTimeChanges_skips_untargeted :
  let previous : gmap string float := {[ "USD" := 1.25%float; "NZD" := 2%float ]} in
  let current : gmap string float := {[ "USD" := 1.5%float; "NZD" := 2.5%float ]} in
  let st := set_previousRates {[ "EUR" := numbers previous ]} initialAppState in
  ∃ changes st',
    calculateRealTimeChanges st (numbers current) "EUR" = inr (changes, st')
    ∧ changes !! "NZD" = None
    ∧ diff_as_specified current (Some previous) !! "NZD" = Some 25%float
    ∧ changes !! "USD" = Some 20%float.
Proof. cbv zeta. eexists _, _. split; [vm_compute; reflexivity|]. vm_compute. repeat split; reflexivity. Qed.

(** A change of magnitude exactly [0.001] is not below [0.001], so the
    specified diff passes it through; the code stores [0]. *)
Example calculateRealTimeChanges_threshold :
  let previous : gmap string float := {[ "USD" := 100000%float ]} in
  let current : gmap string float := {[ "USD" := 100001%float ]} in
  let st := set_previousRates {[ "EUR" := numbers previous ]} initialAppState in
  ((100001 - 100000) / 100000 * 100 =? 0.001)%float = true
  ∧ (∃ changes st',
       calculateRealTimeChanges st (numbers current) "EUR" = inr (changes, st')
       ∧ changes !! "USD" = Some 0%float)
  ∧ diff_as_specified current (Some previous) !! "USD" = Some 0.001%float.
Proof.
  cbv zeta. split; [vm_compute; reflexivity|]. split; [|vm_compute; reflexivity].
  eexists _, _. split; vm_compute; reflexivity.
Qed.

(** The base currency itself is left out, even when both tables list it. *)
Example calculateRealTimeChanges_skips_base :
  let previous : gmap string float := {[ "USD" := 1.25%float; "EUR" := 1%float ]} in
  let current : gmap string float := {[ "USD" := 1.5%float; "EUR" := 2%float ]} in
  let st := set_previousRates {[ "EUR" := numbers previous ]} initialAppState in
  (∃ changes st',
     calculateRealTimeChanges st (numbers current) "EUR" = inr (changes, st')
     ∧ changes !! "EUR" = None)
  ∧ diff_as_specified current (Some previous) !! "EUR" = Some 100%float.
Proof.
  cbv zeta. split; [|vm_compute; reflexivity].
  eexists _, _. split; vm_compute; reflexivity.
Qed.

(** C9. With no snapshot stored for the base currency, the calculation
    returns the empty ChangeSet, whatever the current table (and it stores
    that table as the snapshot of the base currency). *)
Theorem calculateRealTimeChanges_no_previous
    (st : AppState) (currentRates : gmap string Entry) (baseCurrency : string) :
  previousRates st !! baseCurrency = None →
  calculateRealTimeChanges st currentRates baseCurrency
  = inr (∅, set_previousRates (<[baseCurrency := currentRates]> (previousRates st)) st).
Proof.
  intros Hnone. unfold calculateRealTimeChanges. rewrite Hnone. reflexivity.
Qed.

Lemma calculateRealTimeChanges_no_previous_witness :
  ∃ st',
    calculateRealTimeChanges initialAppState
      (numbers {[ "USD" := 1.08%float; "GBP" := 0.85%float ]}) "EUR" = inr (∅, st').
Proof.
  eexists. apply (calculateRealTimeChanges_no_previous initialAppState). reflexivity.
Defined.

(** The specification's scenario: base EUR, first table [{USD:1.08, GBP:0.85}],
    second table [{USD:1.10, GBP:0.85}]. *)
Example scenario_two_syncs :
  let t1 := numbers {[ "USD" := 1.08%float; "GBP" := 0.85%float ]} in
  let t2 := numbers {[ "USD" := 1.10%float; "GBP" := 0.85%float ]} in
  ∃ st1 changes st2,
    calculateRealTimeChanges initialAppState t1 "EUR" = inr (∅, st1)
    ∧ calculateRealTimeChanges st1 t2 "EUR" = inr (changes, st2)
    ∧ changes !! "GBP" = Some 0%float
    ∧ (∃ d, changes !! "USD" = Some d ∧ (1.851 <? d)%float = true ∧ (d <? 1.853)%float = true)
    ∧ size changes = 2%nat.
Proof.
  cbv zeta. eexists _, _, _.
  split; [vm_compute; reflexivity|]. split; [vm_compute; reflexivity|].
  split; [vm_compute; reflexivity|]. split; [|vm_compute; reflexivity].
  eexists. split; [vm_compute; reflexivity|]. split; vm_compute; reflexivity.
Qed.



(** A previous rate of [0] (JSON can carry it) would make the quotient
    infinite; the guard drops the currency instead. *)
Example calculateRealTimeChanges_zero_previous :
  let previous := numbers {[ "USD" := 0%float; "GBP" := 0.5%float ]} in
  let current := numbers {[ "USD" := 1.5%float; "GBP" := 0%float ]} in
  let st := set_previousRates {[ "EUR" := previous ]} initialAppState in
  ∃ st', calculateRealTimeChanges st current "EUR" = inr (∅, st').
Proof. cbv zeta. eexists. vm_compute. reflexivity. Qed.

(** C5, as the specification states it, fails: the calculation takes the
    previous table from [AppState.previousRates], so two calls with the same
    arguments differ, and it overwrites the stored snapshot itself. *)
Lemma calculateRealTimeChanges_reads_and_writes_store :
  let current := numbers {[ "USD" := 1.5%float ]} in
  let earlier := numbers {[ "USD" := 1.25%float ]} in
  let st1 := set_previousRates {[ "EUR" := current ]} initialAppState in
  let st2 := set_previousRates {[ "EUR" := earlier ]} initialAppState in
  previousRates initialAppState !! "EUR" = None
  ∧ calculateRealTimeChanges initialAppState current "EUR" = inr (∅, st1)
  ∧ previousRates st1 !! "EUR" = Some current
  ∧ calculateRealTimeChanges st1 earlier "EUR" = inr ({[ "USD" := (-16.666666666666664)%float ]}, st2)
  ∧ calculateRealTimeChanges st2 current "EUR" = inr ({[ "USD" := 20%float ]}, st1).
Proof. vm_compute. repeat split; reflexivity. Qed.

(** C5, as amended. The outcome of the calculation, the ChangeSet or the
    exception, is a function of the current table, the base currency and the
    snapshot stored for that base currency, and of nothing else in the state.
    A call that returns writes one thing: the stored snapshot of the base
    currency becomes the current table; the snapshots of other base
    currencies and all other fields of [AppState] keep their values. *)
Theorem calculateRealTimeChanges_frame
    (st st' : AppState) (currentRates : gmap string Entry) (baseCurrency : string) :
  (previousRates st !! baseCurrency = previousRates st' !! baseCurrency →
   changes_of (calculateRealTimeChanges st currentRates baseCurrency)
   = changes_of (calculateRealTimeChanges st' currentRates baseCurrency))
  ∧ (∀ changes st2, calculateRealTimeChanges st currentRates baseCurrency = inr (changes, st2) →
       previousRates st2 !! baseCurrency = Some currentRates
       ∧ (∀ b, b ≠ baseCurrency → previousRates st2 !! b = previousRates st !! b)
       ∧ set_previousRates (previousRates st) st2 = st).
Proof.
  split.
  - intros Heq. unfold calculateRealTimeChanges. rewrite <- Heq.
    by destruct (match previousRates st !! baseCurrency with
                 | Some previous => _ | None => _ end) as [changes' [error|]].
  - intros changes st2 Hret.
    pose proof (calculateRealTimeChanges_cases st currentRates baseCurrency) as Hcases.
    rewrite Hret in Hcases. destruct Hcases as (_ & -> & _). cbn.
    split; [apply lookup_insert_eq|]. split; [intros b Hb; by apply lookup_insert_ne|].
    by destruct st.
Qed.

(** *** Properties of [displayResults] *)

Definition is_number (v : Entry) : bool :=
  match v with ENumber _ => true | _ => false end.

(** Whether every rate that [displayResults] shows is a number. *)
Definition displays (rates : gmap string Entry) (baseCurrency : string) : bool :=
  forallb (λ kv : string * Entry, is_number kv.2) (filteredRates rates baseCurrency).

Lemma elem_of_filteredRates (rates : gmap string Entry) (baseCurrency c : string) (v : Entry) :
  (c, v) ∈ filteredRates rates baseCurrency
  ↔ rates !! c = Some v ∧ c ∈ TARGET_CURRENCIES ∧ c ≠ baseCurrency.
Proof.
  unfold filteredRates.
  rewrite merge_sort_Permutation, list_elem_of_filter, elem_of_map_to_list. cbn. tauto.
Qed.

Lemma NoDup_filteredRates (rates : gmap string Entry) (baseCurrency : string) :
  NoDup (filteredRates rates baseCurrency).*1.
Proof.
  unfold filteredRates. rewrite merge_sort_Permutation.
  apply (sublist_NoDup _ (map_to_list rates).*1); [apply NoDup_fst_map_to_list|].
  apply fmap_sublist, sublist_filter.
Qed.

Lemma displays_spec (rates : gmap string Entry) (baseCurrency : string) :
  displays rates baseCurrency = true
  ↔ ∀ c v, rates !! c = Some v → c ∈ TARGET_CURRENCIES → c ≠ baseCurrency → ∃ x, v = ENumber x.
Proof.
  unfold displays. rewrite forallb_forall. split.
  - intros Hall c v Hc Hin Hne.
    assert (Hmem : (c, v) ∈ filteredRates rates baseCurrency)
      by (by apply elem_of_filteredRates).
    apply list_elem_of_In, Hall in Hmem. cbn in Hmem. destruct v; try discriminate. eauto.
  - intros Hall [c v] Hmem. apply list_elem_of_In, elem_of_filteredRates in Hmem.
    destruct Hmem as (Hc & Hin & Hne). destruct (Hall c v Hc Hin Hne) as [x ->]. reflexivity.
Qed.

Lemma numbers_displays (table : gmap string float) (baseCurrency : string) :
  displays (numbers table) baseCurrency = true.
Proof.
  apply displays_spec. intros c v. unfold numbers. rewrite lookup_fmap.
  destruct (table !! c) as [x|]; [|discriminate]. intros [= <-]. eauto.
Qed.

(** The rows that the callback of [displayResults] leaves. *)
Lemma forEach_appendRow (changes : gmap string float) (l : list (string * Entry)) :
  ∀ rows : gmap string (float * float),
    let res := forEach (appendRow changes) l rows in
    (∀ c row, res.1 !! c = Some row →
       rows !! c = Some row
       ∨ ∃ x, (c, ENumber x) ∈ l ∧ row = (x, changeOrZero changes c))
    ∧ (∀ c, c ∉ l.*1 → res.1 !! c = rows !! c)
    ∧ match res.2 with
      | None =>
          forallb (λ kv : string * Entry, is_number kv.2) l = true
          ∧ (NoDup l.*1 →
             ∀ c x, (c, ENumber x) ∈ l → res.1 !! c = Some (x, changeOrZero changes c))
      | Some error =>
          error = ExnTypeError
          ∧ forallb (λ kv : string * Entry, is_number kv.2) l = false
      end.
Proof.
  induction l as [|[a v] l IH]; intros rows; cbv zeta; cbn [forEach].
  - cbn. split; [by left|]. split; [reflexivity|]. split; [reflexivity|].
    intros _ c x Hin. by apply not_elem_of_nil in Hin.
  - assert (Hnum : ∀ x, appendRow changes rows (a, ENumber x)
                        = inr (<[a := (x, changeOrZero changes a)]> rows)) by reflexivity.
    destruct v as [x| | | |]; [rewrite Hnum|..]; clear Hnum;
      cbn [fst snd appendRow createTableRow forallb is_number andb].
    2-5: (split; [by left|]; split; [reflexivity|]; by split).
    specialize (IH (<[a := (x, changeOrZero changes a)]> rows)).
    cbv zeta in IH.
    destruct (forEach (appendRow changes) l (<[a:=(x, changeOrZero changes a)]> rows))
      as [rows' thrown].
    cbn [fst snd] in *. destruct IH as (Hsound & Hframe & Hend).
    split; [|split].
    + intros c row Hrow. destruct (Hsound c row Hrow) as [Hold|(x' & Hin & ->)].
      * destruct (decide (c = a)) as [->|Hne].
        -- rewrite lookup_insert_eq in Hold. injection Hold as <-.
           right. exists x. split; [apply list_elem_of_here | reflexivity].
        -- rewrite lookup_insert_ne in Hold by congruence. by left.
      * right. exists x'. split; [by apply list_elem_of_further | reflexivity].
    + intros c Hc. rewrite fmap_cons in Hc. cbn in Hc.
      apply not_elem_of_cons in Hc as [Hne Hc].
      rewrite (Hframe c Hc). by rewrite lookup_insert_ne.
    + destruct thrown as [error|]; [exact Hend|].
      destruct Hend as [Hall Hrows]. split; [exact Hall|].
      intros Hnodup c x' Hin. rewrite fmap_cons in Hnodup. cbn in Hnodup.
      apply NoDup_cons in Hnodup as [Hfresh Hnodup].
      apply elem_of_cons in Hin as [[= -> ->]|Hin].
      * rewrite (Hframe a Hfresh). apply lookup_insert_eq.
      * by apply Hrows.
Qed.

(** What [displayResults] leaves on the page: the title, the emptied table
    with the rows that were appended, and the results shown unless a row made
    [createTableRow] throw. *)
Lemma displayResults_cases (rates : gmap string Entry) (baseCurrency : string)
    (changes : gmap string float) (u : Ui) :
  let res := displayResults rates baseCurrency changes u in
  loadingHidden res.1 = loadingHidden u
  ∧ errorHidden res.1 = errorHidden u
  ∧ errorMessage res.1 = errorMessage u
  ∧ fallbackHidden res.1 = fallbackHidden u
  ∧ formDisabled res.1 = formDisabled u
  ∧ onlineIndicator res.1 = onlineIndicator u
  ∧ resultsTitle res.1 = Some baseCurrency
  ∧ (∀ c row, tableRows res.1 !! c = Some row →
       ∃ x, rates !! c = Some (ENumber x) ∧ row = (x, changeOrZero changes c)
            ∧ c ∈ TARGET_CURRENCIES ∧ c ≠ baseCurrency)
  ∧ match res.2 with
    | None =>
        displays rates baseCurrency = true
        ∧ resultsHidden res.1 = false
        ∧ ∀ c, tableRows res.1 !! c
               = match rates !! c with
                 | Some (ENumber x) =>
                     if bool_decide (c ∈ TARGET_CURRENCIES) && negb (String.eqb c baseCurrency)
                     then Some (x, changeOrZero changes c)
                     else None
                 | _ => None
                 end
    | Some error =>
        error = ExnTypeError
        ∧ displays rates baseCurrency = false
        ∧ resultsHidden res.1 = resultsHidden u
    end.
Proof.
  cbv zeta. unfold displayResults, displays.
  pose proof (forEach_appendRow changes (filteredRates rates baseCurrency) ∅) as Hrows.
  cbv zeta in Hrows. cbn [tableRows set_tableRows set_resultsTitle].
  destruct (forEach (appendRow changes) (filteredRates rates baseCurrency) ∅) as [rows thrown].
  cbn [fst snd] in Hrows. destruct Hrows as (Hsound & Hframe & Hend).
  assert (Hsound' : ∀ c row, rows !! c = Some row →
            ∃ x, rates !! c = Some (ENumber x) ∧ row = (x, changeOrZero changes c)
                 ∧ c ∈ TARGET_CURRENCIES ∧ c ≠ baseCurrency).
  { intros c row Hrow. destruct (Hsound c row Hrow) as [Hold|(x & Hin & ->)].
    - by rewrite lookup_empty in Hold.
    - apply elem_of_filteredRates in Hin as (Hc & Hin & Hne). eauto 6. }
  destruct thrown as [error|];
    cbn [fst snd tableRows showResults set_tableRows set_resultsTitle loadingHidden errorHidden
         errorMessage fallbackHidden formDisabled onlineIndicator resultsTitle resultsHidden];
    repeat split; try (apply Hend); try exact Hsound'.
  intros c. destruct Hend as [_ Hrows]. specialize (Hrows (NoDup_filteredRates _ _)).
  destruct (rates !! c) as [v|] eqn:Hc.
  - destruct (decide (c ∈ TARGET_CURRENCIES)) as [Hin|Hnin].
    + rewrite (bool_decide_eq_true_2 _ Hin). cbn [andb].
      destruct (String.eqb_spec c baseCurrency) as [->|Hne]; cbn [negb].
      * destruct (rows !! baseCurrency) as [row|] eqn:Hrow; [|by destruct v].
        destruct (Hsound' _ _ Hrow) as (_ & _ & _ & _ & Hne). contradiction.
      * destruct v as [x| | | |].
        1: apply Hrows; by apply elem_of_filteredRates.
        all: destruct (rows !! c) as [row|] eqn:Hrow; [|reflexivity].
        all: destruct (Hsound' _ _ Hrow) as (x & Hx & _); congruence.
    + rewrite (bool_decide_eq_false_2 _ Hnin). cbn [andb].
      destruct (rows !! c) as [row|] eqn:Hrow; [|by destruct v].
      destruct (Hsound' _ _ Hrow) as (_ & _ & _ & Hin & _). contradiction.
  - destruct (rows !! c) as [row|] eqn:Hrow; [|reflexivity].
    destruct (Hsound' _ _ Hrow) as (x & Hx & _). congruence.
Qed.

Lemma displayResults_throws_iff (rates : gmap string Entry) (baseCurrency : string)
    (changes : gmap string float) (u : Ui) :
  (displayResults rates baseCurrency changes u).2
  = if displays rates baseCurrency then None else Some ExnTypeError.
Proof.
  pose proof (displayResults_cases rates baseCurrency changes u) as H. cbv zeta in H.
  destruct H as (_ & _ & _ & _ & _ & _ & _ & _ & H).
  destruct ((displayResults rates baseCurrency changes u).2) as [error|].
  - destruct H as (-> & -> & _). reflexivity.
  - destruct H as (-> & _). reflexivity.
Qed.

(** *** Properties of [fetchExchangeRates] *)

(** The exception that the checks of the [try] block throw, if any: the
    rejection of [fetch] or of [response.json()], a status that is not ok, a
    body that is null, a [rates] property that is falsy or not of type
    object. *)
Definition rejection (r : FetchResult) : option Exception :=
  match r with
  | FetchAborted => Some ExnAbortError
  | FetchFailed => Some ExnTypeError
  | FetchResponse status body =>
      if negb (response_ok status) then Some (ExnApiError status)
      else
        match body with
        | BodyNotJson => Some ExnSyntaxError
        | BodyNull => Some ExnTypeError
        | BodyValue rates =>
            if negb (js_truthy rates) || negb (is_TObject (typeof rates))
            then Some ExnInvalidResponse
            else None
        end
  end.

(** The table of a response that passes the checks. *)
Definition accepted_table (r : FetchResult) : option (gmap string Entry) :=
  match rejection r, r with
  | None, FetchResponse _ (BodyValue rates) => Some (own_properties rates)
  | _, _ => None
  end.

(** Whether the sync gets as far as [displayResults] and that call throws:
    the response passes the checks, the calculation returns, and the rate of
    a target currency other than the base is not a number. *)
Definition display_throws (st : AppState) (r : FetchResult) (baseCurrency : string) : bool :=
  match accepted_table r with
  | Some table =>
      negb (calculation_throws st table baseCurrency) && negb (displays table baseCurrency)
  | None => false
  end.

(** Splits a goal about [fetchExchangeRates_try] along the paths of the
    [try] block: the six throws of the checks, a throw of the calculation, a
    throw of the display, and the path to the end of the block. *)
Ltac try_paths r :=
  let status := fresh "status" in
  let body := fresh "body" in
  let rates := fresh "rates" in
  let error := fresh "error" in
  let changes := fresh "changes" in
  let st := fresh "st" in
  let u := fresh "u" in
  unfold fetchExchangeRates_try;
  destruct r as [| |status body];
  [ | | destruct (negb (response_ok status)) eqn:?;
        [ | destruct body as [| |rates];
            [ | | destruct (negb (js_truthy rates) || negb (is_TObject (typeof rates))) eqn:?;
                  [ | destruct (calculateRealTimeChanges _ (own_properties rates) _)
                        as [error|[changes st]] eqn:?;
                      [ | destruct (displayResults (own_properties rates) _ changes _)
                            as [u [error|]] eqn:? ] ] ] ] ].

(** At most one call is suspended, and [isFetching] is set exactly while one
    is. *)
Definition session_ok (w : Page) : Prop :=
  (isFetching (app w) = false ∧ pending (host w) = [])
  ∨ (isFetching (app w) = true ∧ ∃ b, pending (host w) = [b]).

Lemma fetchExchangeRates_begin_session (w : Page) :
  session_ok w → session_ok (fetchExchangeRates_begin w).1.
Proof.
  intros Hw. unfold fetchExchangeRates_begin.
  destruct (isFetching (app w)) eqn:Hbusy; [exact Hw|].
  destruct Hw as [[_ Hp]|[Hf _]]; [|congruence].
  right. cbn. rewrite Hp. eauto.
Qed.

Lemma fetchExchangeRates_try_host (w : Page) (b : string) (r : FetchResult) (now : Z) :
  pending (host (fetchExchangeRates_try w b r now).1) = pending (host w).
Proof.
  try_paths r; try reflexivity.
  cbn [app]. by destruct (negb (timer_truthy _)).
Qed.

Lemma fetchExchangeRates_resume_isFetching (w : Page) (b : string) (r : FetchResult) (now : Z) :
  isFetching (app (fetchExchangeRates_resume w b r now).1) = false.
Proof.
  unfold fetchExchangeRates_resume.
  destruct (fetchExchangeRates_try w b r now) as [w1 [error|changes]]; reflexivity.
Qed.

Lemma fetchExchangeRates_resume_pending (w : Page) (b : string) (r : FetchResult) (now : Z) :
  pending (host (fetchExchangeRates_resume w b r now).1) = pending (host w).
Proof.
  unfold fetchExchangeRates_resume.
  pose proof (fetchExchangeRates_try_host w b r now) as Hh.
  destruct (fetchExchangeRates_try w b r now) as [w1 [error|changes]]; exact Hh.
Qed.

Lemma loadFallbackData_frame (random : nat → float) (w : Page) :
  let w' := (loadFallbackData random w).1 in
  host w' = host w
  ∧ isFetching (app w') = isFetching (app w)
  ∧ autoRefreshInterval (app w') = autoRefreshInterval (app w)
  ∧ lastSuccessfulUpdate (app w') = lastSuccessfulUpdate (app w)
  ∧ currentRates (app w') = currentRates (app w)
  ∧ currentBaseCurrency (app w') = currentBaseCurrency (app w)
  ∧ isOnline (app w') = isOnline (app w)
  ∧ (previousRates (app w') = previousRates (app w)
     ∨ previousRates (app w')
       = <[currentBaseCurrency (app w) := sampleRates random]> (previousRates (app w))).
Proof.
  cbv zeta. unfold loadFallbackData.
  pose proof (calculateRealTimeChanges_cases (app w) (sampleRates random)
                (currentBaseCurrency (app w))) as Hcases.
  destruct (calculateRealTimeChanges _ _ _) as [error|[changes st]].
  - cbn. repeat split. by left.
  - destruct Hcases as (_ & -> & _).
    destruct (displayResults _ _ _ _) as [u [error|]]; cbn; repeat split; by right.
Qed.

Lemma dispatch_session (w : Page) (e : Event) :
  session_ok w → session_ok (dispatch w e).
Proof.
  intros Hw. destruct e as [|c|onLine|id|r now|random]; cbn [dispatch].
  - by apply fetchExchangeRates_begin_session.
  - apply fetchExchangeRates_begin_session. exact Hw.
  - unfold handleOnlineStatus. cbn [app isOnline set_isOnline isFetching].
    destruct (onLine && negb (isFetching (app w))); [|exact Hw].
    apply fetchExchangeRates_begin_session. exact Hw.
  - destruct (bool_decide (id ∈ timers (host w))); [|exact Hw].
    unfold autoRefreshTick.
    destruct (isOnline (app w) && negb (isFetching (app w))); [|exact Hw].
    pose proof (fetchExchangeRates_begin_session w Hw) as Hb.
    by destruct (fetchExchangeRates_begin w).
  - destruct (pending (host w)) as [|b rest] eqn:Hp; [exact Hw|].
    left. split; [apply fetchExchangeRates_resume_isFetching|].
    rewrite fetchExchangeRates_resume_pending. cbn.
    destruct Hw as [[_ Hp']|[_ [b' Hp']]]; congruence.
  - destruct (loadFallbackData_frame random w) as (Hh & Hf & _).
    unfold session_ok. by rewrite Hh, Hf.
Qed.

Lemma run_session (events : list Event) :
  ∀ w, session_ok w → session_ok (run w events).
Proof.
  induction events as [|e events IH]; intros w Hw; [exact Hw|].
  apply IH. by apply dispatch_session.
Qed.

(** C2. While a sync is active ([isFetching] set), a call of
    [fetchExchangeRates] reports [Busy] and returns the page as it was:
    [AppState] (with the snapshot store and the time of the last successful
    update), the widgets, the timers and the suspended calls are unchanged, so
    nothing is queued. A click on the fetch button in that state therefore
    leaves no trace on what follows. *)
Theorem fetchExchangeRates_busy (w : Page) :
  isFetching (app w) = true →
  fetchExchangeRates_begin w = (w, Busy)
  ∧ dispatch w Click = w
  ∧ ∀ later, run w (Click :: later) = run w later.
Proof.
  intros Hbusy.
  assert (Hbegin : fetchExchangeRates_begin w = (w, Busy)).
  { unfold fetchExchangeRates_begin. by rewrite Hbusy. }
  assert (Hclick : dispatch w Click = w).
  { cbn [dispatch]. unfold handleFetchButtonClick. by rewrite Hbegin. }
  repeat split; [exact Hbegin | exact Hclick |].
  intros later. unfold run. cbn [foldl]. by rewrite Hclick.
Qed.

Lemma fetchExchangeRates_busy_witness :
  let w := dispatch examplePage Click in
  isFetching (app w) = true
  ∧ pending (host w) = ["EUR"]
  ∧ fetchExchangeRates_begin w = (w, Busy).
Proof.
  cbv zeta. split; [reflexivity|]. split; [reflexivity|].
  apply (fetchExchangeRates_busy (dispatch examplePage Click)). reflexivity.
Defined.

(** What the [try] block leaves in [AppState], path by path: nothing is
    written when a check or the calculation throws; otherwise the snapshot of
    the base currency, the time of the update, the online flag and
    [currentRates] are written, before [displayResults] runs. *)
Lemma fetchExchangeRates_try_state
    (w : Page) (baseCurrency : string) (r : FetchResult) (now : Z) :
  let res := fetchExchangeRates_try w baseCurrency r now in
  match rejection r with
  | Some error => res = (w, inl error)
  | None =>
      ∃ rates, r = FetchResponse (match r with FetchResponse s _ => s | _ => 0 end)
                     (BodyValue rates)
        ∧ accepted_table r = Some (own_properties rates)
        ∧ match calculateRealTimeChanges (app w) (own_properties rates) baseCurrency with
          | inl error => res = (w, inl error)
          | inr (changes, st) =>
              previousRates (app res.1)
              = <[baseCurrency := own_properties rates]> (previousRates (app w))
              ∧ lastSuccessfulUpdate (app res.1) = Some now
              ∧ isOnline (app res.1) = true
              ∧ currentRates (app res.1) = rates
              ∧ currentBaseCurrency (app res.1) = currentBaseCurrency (app w)
              ∧ isFetching (app res.1) = isFetching (app w)
              ∧ res.2 = (if displays (own_properties rates) baseCurrency
                         then inr changes else inl ExnTypeError)
          end
  end.
Proof.
  cbv zeta. unfold accepted_table. unfold fetchExchangeRates_try, rejection.
  destruct r as [| |status body]; try reflexivity.
  destruct (negb (response_ok status)); [reflexivity|].
  destruct body as [| |rates]; try reflexivity.
  destruct (negb (js_truthy rates) || negb (is_TObject (typeof rates))); [reflexivity|].
  exists rates. split; [reflexivity|]. split; [reflexivity|].
  pose proof (calculateRealTimeChanges_cases (app w) (own_properties rates) baseCurrency)
    as Hcases.
  destruct (calculateRealTimeChanges _ _ _) as [error|[changes st]]; [reflexivity|].
  destruct Hcases as (_ & -> & _).
  pose proof (displayResults_throws_iff (own_properties rates) baseCurrency changes (ui w))
    as Hthrown.
  destruct (displayResults _ _ _ _) as [u thrown]. cbn [snd] in Hthrown. subst thrown.
  destruct (displays (own_properties rates) baseCurrency); cbn.
  - by destruct (negb (timer_truthy (autoRefreshInterval (app w)))).
  - repeat split.
Qed.

(** C3, as the specification states it, fails. A response with a success
    status whose table gives null for USD passes the checks; the calculation
    stores the table and the time of the update is set; then the row for USD
    makes [createTableRow] throw, and the sync ends in an error with the
    snapshot of the base currency overwritten. *)
Lemma fetchExchangeRates_stores_before_display :
  let w := dispatch examplePage Click in
  let table : gmap string Entry := {[ "USD" := ENull; "GBP" := ENumber 0.85%float ]} in
  let res := fetchExchangeRates_resume w "EUR"
               (FetchResponse 200 (BodyValue (JObject table))) 500 in
  res.2 = SyncFailure ExnTypeError
  ∧ previousRates (app w) !! "EUR" = None
  ∧ previousRates (app res.1) !! "EUR" = Some table
  ∧ lastSuccessfulUpdate (app res.1) = Some 500
  ∧ errorMessage (ui res.1) = Some MsgUnexpected
  ∧ isFetching (app res.1) = false.
Proof. vm_compute. repeat split; reflexivity. Qed.

(** C3, as amended. However the awaited request settles, the call ends with
    [isFetching] cleared, so the next call starts a sync at once; and when it
    ends in an error, the snapshot store (hence the entry of the requested
    base currency) and the time of the last successful update are what they
    were, unless the error is the one that [displayResults] raises on an
    accepted table in which a rate to display is not a number. *)
Theorem fetchExchangeRates_resume_cleanup
    (w : Page) (baseCurrency : string) (r : FetchResult) (now : Z) :
  let res := fetchExchangeRates_resume w baseCurrency r now in
  isFetching (app res.1) = false
  ∧ (fetchExchangeRates_begin res.1).2 = Started (currentBaseCurrency (app res.1))
  ∧ (∀ error, res.2 = SyncFailure error →
       display_throws (app w) r baseCurrency = false →
       previousRates (app res.1) = previousRates (app w)
       ∧ lastSuccessfulUpdate (app res.1) = lastSuccessfulUpdate (app w)).
Proof.
  cbv zeta.
  pose proof (fetchExchangeRates_resume_isFetching w baseCurrency r now) as Hclear.
  split; [exact Hclear|]. split.
  - unfold fetchExchangeRates_begin. by rewrite Hclear.
  - intros error. unfold fetchExchangeRates_resume, display_throws.
    pose proof (fetchExchangeRates_try_state w baseCurrency r now) as Htry.
    cbv zeta in Htry.
    destruct (rejection r) as [error'|] eqn:Hrej.
    + rewrite Htry. cbn. intros _ _. by split.
    + destruct Htry as (rates & _ & -> & Htry).
      pose proof (calculateRealTimeChanges_cases (app w) (own_properties rates) baseCurrency)
        as Hcases.
      destruct (calculateRealTimeChanges _ _ _) as [error'|[changes st]].
      * rewrite Htry. cbn. intros _ _. by split.
      * destruct Htry as (_ & _ & _ & _ & _ & _ & Hout). destruct Hcases as (-> & _).
        destruct (fetchExchangeRates_try w baseCurrency r now) as [w1 result].
        cbn [snd] in Hout. subst result.
        destruct (displays (own_properties rates) baseCurrency); cbn; discriminate.
Qed.

Lemma fetchExchangeRates_resume_cleanup_witness :
  let w := dispatch examplePage Click in
  let res := fetchExchangeRates_resume w "EUR" FetchAborted 10000 in
  res.2 = SyncFailure ExnAbortError
  ∧ display_throws (app w) FetchAborted "EUR" = false
  ∧ previousRates (app res.1) = previousRates (app w)
  ∧ lastSuccessfulUpdate (app res.1) = lastSuccessfulUpdate (app w).
Proof.
  cbv zeta. split; [reflexivity|]. split; [reflexivity|].
  destruct (fetchExchangeRates_resume_cleanup (dispatch examplePage Click) "EUR"
              FetchAborted 10000) as (_ & _ & Hkept).
  apply (Hkept ExnAbortError); reflexivity.
Defined.

(** The four kinds of failure the specification lists, and an unparsable
    body, each end the sync in an error. *)
Lemma fetchExchangeRates_failures (w : Page) (b : string) (now : Z) :
  (fetchExchangeRates_resume w b FetchAborted now).2 = SyncFailure ExnAbortError
  ∧ (fetchExchangeRates_resume w b FetchFailed now).2 = SyncFailure ExnTypeError
  ∧ (∀ status body, response_ok status = false →
       (fetchExchangeRates_resume w b (FetchResponse status body) now).2
       = SyncFailure (ExnApiError status))
  ∧ (∀ status, response_ok status = true →
       (fetchExchangeRates_resume w b (FetchResponse status BodyNotJson) now).2
       = SyncFailure ExnSyntaxError)
  ∧ (∀ status, response_ok status = true →
       (fetchExchangeRates_resume w b (FetchResponse status (BodyValue JUndefined)) now).2
       = SyncFailure ExnInvalidResponse).
Proof.
  split; [reflexivity|]. split; [reflexivity|].
  unfold fetchExchangeRates_resume, fetchExchangeRates_try.
  repeat split; intros; by rewrite H.
Qed.

(** A sync that times out, then a second one that succeeds at once. *)
Example timeout_then_success :
  let rates := numbers {[ "USD" := 1.25%float ]} in
  let w1 := run examplePage [Click; Settle FetchAborted 10000] in
  let w2 := run w1 [Click; Settle (FetchResponse 200 (BodyValue (JObject rates))) 10500] in
  previousRates (app w1) = ∅
  ∧ isFetching (app w1) = false
  ∧ errorMessage (ui w1) = Some MsgTimeout
  ∧ previousRates (app w2) !! "EUR" = Some rates
  ∧ lastSuccessfulUpdate (app w2) = Some 10500
  ∧ timers (host w2) = [1%nat].
Proof. vm_compute. repeat split; reflexivity. Qed.

(** X1. At most one sync is active at any instant: whatever events the page
    receives, starting with no call suspended, at most one call of
    [fetchExchangeRates] is suspended at its request, and [isFetching] is set
    exactly while one is. *)
Theorem one_session_at_a_time (u : Ui) (timerIds : list nat) (nextId : nat)
    (events : list Event) :
  session_ok (run (mkPage initialAppState u (mkHost timerIds nextId [])) events).
Proof.
  apply run_session. left. by split.
Qed.

(** X2. A response with a success status whose [rates] is an object makes
    the sync succeed exactly when the calculation returns and every rate to
    display, that of a target currency other than the base, is a number. A
    sync that succeeds reports the ChangeSet computed against the snapshot
    stored before it, has stored the new table for its base currency, has
    recorded the time of the update and marked the page online. *)
Theorem fetchExchangeRates_success
    (w : Page) (baseCurrency : string) (status : Z) (props : gmap string Entry) (now : Z) :
  response_ok status = true →
  let res := fetchExchangeRates_resume w baseCurrency
               (FetchResponse status (BodyValue (JObject props))) now in
  (∀ changes st', calculateRealTimeChanges (app w) props baseCurrency = inr (changes, st') →
     displays props baseCurrency = true →
     res.2 = SyncSuccess changes
     ∧ previousRates (app res.1) = <[baseCurrency := props]> (previousRates (app w))
     ∧ lastSuccessfulUpdate (app res.1) = Some now
     ∧ isOnline (app res.1) = true
     ∧ isFetching (app res.1) = false)
  ∧ (∀ changes, res.2 = SyncSuccess changes →
       displays props baseCurrency = true
       ∧ ∃ st', calculateRealTimeChanges (app w) props baseCurrency = inr (changes, st')).
Proof.
  intros Hok. cbv zeta.
  pose proof (fetchExchangeRates_try_state w baseCurrency
                (FetchResponse status (BodyValue (JObject props))) now) as Htry.
  cbv zeta in Htry. unfold rejection in Htry. rewrite Hok in Htry.
  cbn [negb js_truthy typeof is_TObject orb] in Htry.
  destruct Htry as (rates & [= <-] & _ & Htry). cbn [own_properties] in Htry.
  unfold fetchExchangeRates_resume.
  destruct (calculateRealTimeChanges (app w) props baseCurrency) as [error|[changes st]].
  - rewrite Htry. split; [discriminate|]. intros changes. cbn. discriminate.
  - destruct Htry as (Hstore & Htime & Honline & _ & _ & _ & Hout).
    destruct (fetchExchangeRates_try w baseCurrency _ now) as [w1 result].
    cbn [fst snd] in *. subst result. split.
    + intros changes' st' [= <- <-] Hshow. rewrite Hshow. cbn. by repeat split.
    + intros changes'. destruct (displays props baseCurrency); cbn; [|discriminate].
      intros [= <-]. split; [reflexivity | eauto].
Qed.

Lemma fetchExchangeRates_success_witness :
  let rates := numbers {[ "USD" := 1.25%float ]} in
  let res := fetchExchangeRates_resume (dispatch examplePage Click) "EUR"
               (FetchResponse 200 (BodyValue (JObject rates))) 500 in
  res.2 = SyncSuccess ∅
  ∧ previousRates (app res.1) = {[ "EUR" := rates ]}.
Proof.
  cbv zeta.
  destruct (fetchExchangeRates_success (dispatch examplePage Click) "EUR" 200
              (numbers {[ "USD" := 1.25%float ]}) 500 eq_refl) as [Hsuccess _].
  assert (Hnone : previousRates (app (dispatch examplePage Click)) !! "EUR" = None)
    by reflexivity.
  destruct (Hsuccess ∅ _ (calculateRealTimeChanges_no_previous_eq _ _ "EUR" Hnone)
              (numbers_displays _ _)) as (Hout & Hstore & _).
  split; [exact Hout | exact Hstore].
Defined.

(** C4, as amended. A response with a success status whose body is a JSON
    value other than null, and whose [rates] property is missing, or is null,
    a boolean, a number or a string, ends the sync with the error
    'INVALID_RESPONSE' and the matching message. The check comes before any
    write to [AppState]: at the end only [isFetching] has been cleared, so the
    snapshot store is unchanged, and no timer or suspended call is touched. *)
Theorem fetchExchangeRates_rejects_missing_rates
    (w : Page) (baseCurrency : string) (status : Z) (rates : JsValue) (now : Z) :
  response_ok status = true →
  is_table rates = false →
  is_array rates = false →
  let res := fetchExchangeRates_resume w baseCurrency
               (FetchResponse status (BodyValue rates)) now in
  res.2 = SyncFailure ExnInvalidResponse
  ∧ errorMessage (ui res.1) = Some MsgInvalidResponse
  ∧ app res.1 = set_isFetching false (app w)
  ∧ previousRates (app res.1) = previousRates (app w)
  ∧ host res.1 = host w.
Proof.
  intros Hok Htable Harray. cbv zeta.
  unfold fetchExchangeRates_resume, fetchExchangeRates_try. rewrite Hok. cbn [negb].
  assert (Hcheck : negb (js_truthy rates) || negb (is_TObject (typeof rates)) = true).
  { destruct rates as [| |b|x|s|items|props]; cbn in *; try reflexivity; try discriminate.
    - by destruct b.
    - apply orb_true_r.
    - apply orb_true_r. }
  rewrite Hcheck. cbn [fst snd app ui host].
  repeat split.
  unfold handleFetchError.
  by destruct (0 <? size (previousRates (app w)))%nat.
Qed.

Lemma fetchExchangeRates_rejects_missing_rates_witness :
  let res := fetchExchangeRates_resume (dispatch examplePage Click) "EUR"
               (FetchResponse 200 (BodyValue JUndefined)) 0 in
  res.2 = SyncFailure ExnInvalidResponse
  ∧ previousRates (app res.1) = ∅.
Proof.
  cbv zeta.
  destruct (fetchExchangeRates_rejects_missing_rates (dispatch examplePage Click) "EUR"
              200 JUndefined 0) as (Hout & _ & _ & Hstore & _); try reflexivity.
  split; [exact Hout | exact Hstore].
Defined.

(** C4, as the specification states it, fails. An array is not a table keyed
    by currency code, but [typeof] says 'object' for it: the sync succeeds and
    the store takes the array's entries, keyed by index. And a body that is
    the JSON value null has no [rates] field, but the read [data.rates] throws
    a TypeError, which is reported as an unexpected error, not as an invalid
    response. *)
Lemma fetchExchangeRates_accepts_array :
  let w := dispatch examplePage Click in
  let res := fetchExchangeRates_resume w "EUR"
               (FetchResponse 200 (BodyValue (JArray [ENumber 1.5%float]))) 0 in
  let res' := fetchExchangeRates_resume w "EUR" (FetchResponse 200 BodyNull) 0 in
  is_table (JArray [ENumber 1.5%float]) = false
  ∧ res.2 = SyncSuccess ∅
  ∧ previousRates (app w) !! "EUR" = None
  ∧ previousRates (app res.1) !! "EUR" = Some {[ "0" := ENumber 1.5%float ]}
  ∧ res'.2 = SyncFailure ExnTypeError
  ∧ errorMessage (ui res'.1) = Some MsgUnexpected.
Proof. vm_compute. repeat split; reflexivity. Qed.

(** C8. While the interval timer is set, a tick calls [fetchExchangeRates]
    exactly when the page is online and no sync is active: the call then
    starts a sync for the current base currency. In every other state the
    tick returns the page as it was, and what follows runs as if the tick had
    not happened: it is neither deferred nor queued. *)
Theorem autoRefreshTick_guard (w : Page) (id : nat) :
  id ∈ timers (host w) →
  (isOnline (app w) = true → isFetching (app w) = false →
     dispatch w (Tick id) = (fetchExchangeRates_begin w).1
     ∧ (autoRefreshTick w).2 = Some (Started (currentBaseCurrency (app w)))
     ∧ isFetching (app (dispatch w (Tick id))) = true
     ∧ pending (host (dispatch w (Tick id))) = pending (host w) ++ [currentBaseCurrency (app w)])
  ∧ (isOnline (app w) = false ∨ isFetching (app w) = true →
     (autoRefreshTick w).2 = None
     ∧ dispatch w (Tick id) = w
     ∧ ∀ later, run w (Tick id :: later) = run w later).
Proof.
  intros Hset. split.
  - intros Honline Hidle. cbn [dispatch].
    rewrite bool_decide_eq_true_2 by assumption.
    unfold autoRefreshTick, fetchExchangeRates_begin. rewrite Honline, Hidle.
    cbn. repeat split.
  - intros Hskip.
    assert (Hguard : isOnline (app w) && negb (isFetching (app w)) = false).
    { destruct Hskip as [->| ->]; [reflexivity | apply andb_false_r]. }
    assert (Htick : dispatch w (Tick id) = w).
    { cbn [dispatch]. rewrite bool_decide_eq_true_2 by assumption.
      unfold autoRefreshTick. by rewrite Hguard. }
    split; [unfold autoRefreshTick; by rewrite Hguard|].
    split; [exact Htick|].
    intros later. unfold run. cbn [foldl]. by rewrite Htick.
Qed.

Lemma autoRefreshTick_guard_witness :
  let rates := numbers {[ "USD" := 1.25%float ]} in
  let w := run examplePage [Click; Settle (FetchResponse 200 (BodyValue (JObject rates))) 500] in
  let busy := dispatch w Click in
  let offline := dispatch w (Connectivity false) in
  timers (host w) = [1%nat]
  ∧ pending (host (dispatch w (Tick 1))) = ["EUR"]
  ∧ dispatch busy (Tick 1) = busy
  ∧ dispatch offline (Tick 1) = offline.
Proof.
  cbv zeta. split; [vm_compute; reflexivity|].
  set (w := run examplePage _).
  assert (Hw : (1%nat) ∈ timers (host w)) by (vm_compute; apply list_elem_of_here).
  destruct (autoRefreshTick_guard w 1 Hw) as [Hrun _].
  destruct (Hrun ltac:(vm_compute; reflexivity) ltac:(vm_compute; reflexivity))
    as (_ & _ & _ & Hpending).
  split; [rewrite Hpending; vm_compute; reflexivity|]. split.
  - assert (Hb : (1%nat) ∈ timers (host (dispatch w Click)))
      by (vm_compute; apply list_elem_of_here).
    destruct (autoRefreshTick_guard (dispatch w Click) 1 Hb) as [_ Hskip].
    apply Hskip. right. vm_compute. reflexivity.
  - assert (Ho : (1%nat) ∈ timers (host (dispatch w (Connectivity false))))
      by (vm_compute; apply list_elem_of_here).
    destruct (autoRefreshTick_guard (dispatch w (Connectivity false)) 1 Ho) as [_ Hskip].
    apply Hskip. left. vm_compute. reflexivity.
Defined.

Lemma calculateRealTimeChanges_state
    (st st' : AppState) (currentRates : gmap string Entry) (baseCurrency : string)
    (changes : gmap string float) :
  calculateRealTimeChanges st currentRates baseCurrency = inr (changes, st') →
  st' = set_previousRates (<[baseCurrency := currentRates]> (previousRates st)) st.
Proof.
  intros Hret. pose proof (calculateRealTimeChanges_cases st currentRates baseCurrency) as H.
  rewrite Hret in H. by destruct H as (_ & -> & _).
Qed.

(* --------------------------------------------------------------------- *)
(** *** The refresh timer *)

(** The timer in [AppState.autoRefreshInterval] is the one timer that is
    set, and ids handed out by [setInterval] are positive and fresh. *)
Definition scheduler_ok (w : Page) : Prop :=
  match autoRefreshInterval (app w) with
  | None => timers (host w) = []
  | Some id => timers (host w) = [id] ∧ (0 < id < nextTimerId (host w))%nat
  end
  ∧ (0 < nextTimerId (host w))%nat.

Lemma fetchExchangeRates_begin_frame (w : Page) :
  let w' := (fetchExchangeRates_begin w).1 in
  previousRates (app w') = previousRates (app w)
  ∧ currentRates (app w') = currentRates (app w)
  ∧ lastSuccessfulUpdate (app w') = lastSuccessfulUpdate (app w)
  ∧ autoRefreshInterval (app w') = autoRefreshInterval (app w)
  ∧ currentBaseCurrency (app w') = currentBaseCurrency (app w)
  ∧ isOnline (app w') = isOnline (app w)
  ∧ timers (host w') = timers (host w)
  ∧ nextTimerId (host w') = nextTimerId (host w).
Proof.
  cbv zeta. unfold fetchExchangeRates_begin.
  destruct (isFetching (app w)); cbn; repeat split.
Qed.

Lemma fetchExchangeRates_begin_scheduler (w : Page) :
  scheduler_ok w → scheduler_ok (fetchExchangeRates_begin w).1.
Proof.
  unfold scheduler_ok.
  destruct (fetchExchangeRates_begin_frame w) as (_ & _ & _ & -> & _ & _ & -> & ->).
  auto.
Qed.

(** The [try] block and the timer: a timer that is set stays the one timer;
    when none is set, one is set exactly on the path to the end of the
    block. *)
Lemma fetchExchangeRates_try_timer (w : Page) (b : string) (r : FetchResult) (now : Z) :
  scheduler_ok w →
  scheduler_ok (fetchExchangeRates_try w b r now).1
  ∧ ∀ id, autoRefreshInterval (app w) = Some id →
          autoRefreshInterval (app (fetchExchangeRates_try w b r now).1) = Some id.
Proof.
  intros Hw. try_paths r; try (split; [exact Hw | by intros id ?]).
  all: match goal with
       | H : calculateRealTimeChanges _ _ _ = inr _ |- _ =>
           apply calculateRealTimeChanges_state in H; subst
       end.
  - split; [exact Hw | by intros id ?].
  - unfold scheduler_ok in *.
    destruct Hw as [Htimer Hnext].
    destruct (autoRefreshInterval (app w)) as [[|id]|] eqn:Hid;
      cbn; rewrite ?Hid; cbn; rewrite ?Hid.
    + destruct Htimer as [_ ?]. lia.
    + split; [split; [exact Htimer | exact Hnext] | by intros id' ?].
    + rewrite ?Htimer. split; [repeat split; lia | discriminate].
Qed.

Lemma fetchExchangeRates_resume_timer (w : Page) (b : string) (r : FetchResult) (now : Z) :
  scheduler_ok w →
  scheduler_ok (fetchExchangeRates_resume w b r now).1
  ∧ ∀ id, autoRefreshInterval (app w) = Some id →
          autoRefreshInterval (app (fetchExchangeRates_resume w b r now).1) = Some id.
Proof.
  intros Hw. destruct (fetchExchangeRates_try_timer w b r now Hw) as [Hok Hid].
  unfold fetchExchangeRates_resume.
  destruct (fetchExchangeRates_try w b r now) as [w1 [error|changes]]; cbn in *; by split.
Qed.

Lemma dispatch_scheduler (w : Page) (e : Event) :
  scheduler_ok w → scheduler_ok (dispatch w e).
Proof.
  intros Hw. destruct e as [|c|onLine|id|r now|random]; cbn [dispatch].
  - by apply fetchExchangeRates_begin_scheduler.
  - apply fetchExchangeRates_begin_scheduler. exact Hw.
  - unfold handleOnlineStatus. cbn [app isOnline set_isOnline isFetching].
    destruct (onLine && negb (isFetching (app w))); [|exact Hw].
    apply fetchExchangeRates_begin_scheduler. exact Hw.
  - destruct (bool_decide (id ∈ timers (host w))); [|exact Hw].
    unfold autoRefreshTick.
    destruct (isOnline (app w) && negb (isFetching (app w))); [|exact Hw].
    pose proof (fetchExchangeRates_begin_scheduler w Hw) as Hb.
    by destruct (fetchExchangeRates_begin w).
  - destruct (pending (host w)) as [|b rest]; [exact Hw|].
    by apply fetchExchangeRates_resume_timer.
  - destruct (loadFallbackData_frame random w) as (Hh & _ & Hid & _).
    unfold scheduler_ok. by rewrite Hh, Hid.
Qed.

Lemma run_scheduler (events : list Event) :
  ∀ w, scheduler_ok w → scheduler_ok (run w events).
Proof.
  induction events as [|e events IH]; intros w Hw; [exact Hw|].
  apply IH. by apply dispatch_scheduler.
Qed.

(** X3. Whatever events the page receives, at most one interval timer is
    set, and it is the one recorded in [AppState.autoRefreshInterval]: timers
    never stack. *)
Theorem at_most_one_timer (u : Ui) (nextId : nat) (events : list Event) :
  let w := run (mkPage initialAppState u (mkHost [] (S nextId) [])) events in
  (length (timers (host w)) ≤ 1)%nat
  ∧ ∀ id, id ∈ timers (host w) ↔ autoRefreshInterval (app w) = Some id.
Proof.
  cbv zeta.
  assert (Hok : scheduler_ok (run (mkPage initialAppState u (mkHost [] (S nextId) [])) events)).
  { apply run_scheduler. split; cbn; [reflexivity | lia]. }
  destruct Hok as [Htimer _].
  destruct (autoRefreshInterval (app (run _ events))) as [id|].
  - destruct Htimer as [-> _]. split; [cbn; lia|].
    intros id'. rewrite list_elem_of_singleton. split; congruence.
  - rewrite Htimer. split; [cbn; lia|].
    intros id'. split; [by intros ?%not_elem_of_nil | discriminate].
Qed.

(** X4. The refresh timer is set once: after the first sync that succeeds,
    the timer id in [AppState.autoRefreshInterval] never changes, whatever
    follows (later syncs do not restart the timer). *)
Theorem timer_started_once (u : Ui) (nextId : nat) (events later : list Event) (id : nat) :
  let w := run (mkPage initialAppState u (mkHost [] (S nextId) [])) events in
  autoRefreshInterval (app w) = Some id →
  autoRefreshInterval (app (run w later)) = Some id
  ∧ timers (host (run w later)) = [id].
Proof.
  cbv zeta.
  assert (Hok : scheduler_ok (run (mkPage initialAppState u (mkHost [] (S nextId) [])) events)).
  { apply run_scheduler. split; cbn; [reflexivity | lia]. }
  revert Hok. generalize (run (mkPage initialAppState u (mkHost [] (S nextId) [])) events).
  induction later as [|e later IH]; intros w Hok Hid.
  - cbn. split; [exact Hid|]. destruct Hok as [Htimer _]. rewrite Hid in Htimer. tauto.
  - cbn [run foldl]. apply IH; [by apply dispatch_scheduler|].
    destruct e as [|c|onLine|tid|r now|random]; cbn [dispatch].
    + unfold handleFetchButtonClick.
      by destruct (fetchExchangeRates_begin_frame w) as (_ & _ & _ & -> & _).
    + unfold handleCurrencyChange.
      by destruct (fetchExchangeRates_begin_frame
                     (mkPage (set_currentBaseCurrency c (app w)) (ui w) (host w)))
        as (_ & _ & _ & -> & _).
    + unfold handleOnlineStatus. cbn [app isOnline set_isOnline isFetching].
      destruct (onLine && negb (isFetching (app w))); [|exact Hid].
      by destruct (fetchExchangeRates_begin_frame
                     (mkPage (set_isOnline onLine (app w))
                        (updateOnlineStatusIndicator (set_isOnline onLine (app w)) (ui w))
                        (host w)))
        as (_ & _ & _ & -> & _).
    + destruct (bool_decide (tid ∈ timers (host w))); [|exact Hid].
      unfold autoRefreshTick.
      destruct (isOnline (app w) && negb (isFetching (app w))); [|exact Hid].
      pose proof (fetchExchangeRates_begin_frame w) as (_ & _ & _ & Hb & _).
      destruct (fetchExchangeRates_begin w). cbn in *. congruence.
    + destruct (pending (host w)) as [|b rest]; [exact Hid|].
      apply fetchExchangeRates_resume_timer; [exact Hok | exact Hid].
    + destruct (loadFallbackData_frame random w) as (_ & _ & -> & _). exact Hid.
Qed.

Lemma timer_started_once_witness :
  let rates := numbers {[ "USD" := 1.25%float ]} in
  let ok := Settle (FetchResponse 200 (BodyValue (JObject rates))) 500 in
  let w := run (mkPage initialAppState (ui examplePage) (mkHost [] 1 [])) [Click; ok] in
  autoRefreshInterval (app (run w [Tick 1; ok; Click; ok])) = Some 1%nat
  ∧ timers (host (run w [Tick 1; ok; Click; ok])) = [1%nat].
Proof.
  cbv zeta. apply timer_started_once. vm_compute. reflexivity.
Defined.

(* --------------------------------------------------------------------- *)
(** *** Who writes the snapshot store *)

(** The three fields a sync reports into. *)
Definition snapshot_fields (st : AppState)
    : gmap string (gmap string Entry) * JsValue * option Z :=
  (previousRates st, currentRates st, lastSuccessfulUpdate st).

Lemma fetchExchangeRates_begin_snapshot (w : Page) :
  snapshot_fields (app (fetchExchangeRates_begin w).1) = snapshot_fields (app w).
Proof.
  unfold snapshot_fields.
  by destruct (fetchExchangeRates_begin_frame w) as (-> & -> & -> & _).
Qed.

Lemma commands_snapshot_fields (w : Page) :
  snapshot_fields (app (dispatch w Click)) = snapshot_fields (app w)
  ∧ (∀ c, snapshot_fields (app (dispatch w (CurrencyChange c))) = snapshot_fields (app w))
  ∧ (∀ onLine, snapshot_fields (app (dispatch w (Connectivity onLine))) = snapshot_fields (app w))
  ∧ (∀ id, snapshot_fields (app (dispatch w (Tick id))) = snapshot_fields (app w)).
Proof.
  split; [|split; [|split]].
  - cbn [dispatch]. apply fetchExchangeRates_begin_snapshot.
  - intros c. cbn [dispatch]. unfold handleCurrencyChange.
    by rewrite fetchExchangeRates_begin_snapshot.
  - intros onLine. cbn [dispatch]. unfold handleOnlineStatus.
    cbn [app isOnline set_isOnline isFetching].
    destruct (onLine && negb (isFetching (app w))); [|reflexivity].
    by rewrite fetchExchangeRates_begin_snapshot.
  - intros id. cbn [dispatch].
    destruct (bool_decide (id ∈ timers (host w))); [|reflexivity].
    unfold autoRefreshTick.
    destruct (isOnline (app w) && negb (isFetching (app w))); [|reflexivity].
    pose proof (fetchExchangeRates_begin_snapshot w) as Hb.
    by destruct (fetchExchangeRates_begin w).
Qed.

(** The events that come from the user, the network status and the timer,
    as opposed to a response that settles and to [loadFallbackData]. *)
Definition is_command (e : Event) : bool :=
  match e with
  | Click | CurrencyChange _ | Connectivity _ | Tick _ => true
  | Settle _ _ | LoadFallback _ => false
  end.

(** X5. Starting a sync writes nothing into the snapshot store: any run of
    clicks, changes of base currency, connectivity events and timer ticks
    leaves [previousRates], [currentRates] and [lastSuccessfulUpdate] as they
    were. Only a response that settles, or [loadFallbackData], changes them. *)
Theorem commands_leave_snapshots (w : Page) (events : list Event) :
  forallb is_command events = true →
  snapshot_fields (app (run w events)) = snapshot_fields (app w).
Proof.
  revert w. induction events as [|e events IH]; intros w Hall; [reflexivity|].
  cbn [forallb] in Hall. apply andb_true_iff in Hall as [He Hall].
  cbn [run foldl]. fold (run (dispatch w e) events). rewrite (IH _ Hall).
  destruct (commands_snapshot_fields w) as (Hclick & Hchange & Hconn & Htick).
  destruct e as [|c|onLine|id|r now|random]; try discriminate; auto.
Qed.

Lemma commands_leave_snapshots_witness :
  let rates := numbers {[ "USD" := 1.25%float ]} in
  let w := run examplePage [Click; Settle (FetchResponse 200 (BodyValue (JObject rates))) 500] in
  snapshot_fields (app (run w [Tick 1; CurrencyChange "USD"; Connectivity false; Click]))
  = ({[ "EUR" := rates ]}, JObject rates, Some 500).
Proof.
  cbv zeta. rewrite commands_leave_snapshots by reflexivity.
  vm_compute. reflexivity.
Defined.

Lemma fetchExchangeRates_resume_store (w : Page) (b : string) (r : FetchResult) (now : Z) :
  previousRates (app (fetchExchangeRates_resume w b r now).1) = previousRates (app w)
  ∨ ∃ t, previousRates (app (fetchExchangeRates_resume w b r now).1)
         = <[b := t]> (previousRates (app w)).
Proof.
  unfold fetchExchangeRates_resume.
  pose proof (fetchExchangeRates_try_state w b r now) as Htry. cbv zeta in Htry.
  destruct (rejection r) as [error|].
  - rewrite Htry. by left.
  - destruct Htry as (rates & _ & _ & Htry).
    destruct (calculateRealTimeChanges _ _ _) as [error|[changes st]].
    + rewrite Htry. by left.
    + destruct Htry as (Hstore & _). right. exists (own_properties rates).
      by destruct (fetchExchangeRates_try w b r now) as [w1 [error|changes']].
Qed.

Lemma dispatch_store (w : Page) (e : Event) :
  previousRates (app (dispatch w e)) = previousRates (app w)
  ∨ ∃ b t, previousRates (app (dispatch w e)) = <[b := t]> (previousRates (app w)).
Proof.
  destruct (commands_snapshot_fields w) as (Hclick & Hchange & Hconn & Htick).
  destruct e as [|c|onLine|id|r now|random].
  - left. by injection Hclick.
  - left. specialize (Hchange c). by injection Hchange.
  - left. specialize (Hconn onLine). by injection Hconn.
  - left. specialize (Htick id). by injection Htick.
  - cbn [dispatch]. destruct (pending (host w)) as [|b rest]; [by left|].
    destruct (fetchExchangeRates_resume_store
                (mkPage (app w) (ui w) (mkHost (timers (host w)) (nextTimerId (host w)) rest))
                b r now) as [Heq|[t Heq]]; [by left|].
    right. by exists b, t.
  - cbn [dispatch].
    destruct (loadFallbackData_frame random w) as (_ & _ & _ & _ & _ & _ & _ & [Heq|Heq]);
      [by left | right; eauto].
Qed.

(** X6. A snapshot is never dropped: once the store holds a table for a base
    currency it holds one for that base currency after any further events
    (tables are overwritten, never removed). *)
Theorem snapshots_never_removed (w : Page) (events : list Event) (b : string) :
  b ∈ dom (previousRates (app w)) →
  b ∈ dom (previousRates (app (run w events))).
Proof.
  revert w. induction events as [|e events IH]; intros w Hb; [exact Hb|].
  cbn [run foldl]. apply IH.
  destruct (dispatch_store w e) as [-> | (b' & t & ->)]; [exact Hb|].
  rewrite dom_insert_L. apply elem_of_union. by right.
Qed.

Lemma snapshots_never_removed_witness :
  let rates := numbers {[ "USD" := 1.25%float ]} in
  let w := run examplePage [Click; Settle (FetchResponse 200 (BodyValue (JObject rates))) 500] in
  "EUR" ∈ dom (previousRates (app (run w [CurrencyChange "USD"; Settle FetchFailed 900;
                                          Click; Settle FetchAborted 11000]))).
Proof.
  cbv zeta. apply snapshots_never_removed.
  apply elem_of_dom. vm_compute. eauto.
Defined.

(* --------------------------------------------------------------------- *)
(** *** The threshold, in IEEE terms *)

(** The binary64 value of the literal [0.001]. *)
Definition threshold_spec : SpecFloat.spec_float :=
  SpecFloat.S754_finite false 4611686018427388 (-62).

Lemma threshold_spec_eq : FloatOps.Prim2SF 0.001 = threshold_spec.
Proof. vm_compute. reflexivity. Qed.

Lemma SFcompare_finite_refl (s : bool) (m : positive) (e : Z) :
  SpecFloat.SFcompare (SpecFloat.S754_finite s m e) (SpecFloat.S754_finite s m e) = Some Eq.
Proof.
  cbn. destruct s; rewrite Z.compare_refl, Pos.compare_cont_refl; reflexivity.
Qed.

(** A number whose magnitude exceeds [0.001] is neither [0] nor [NaN]. *)
Lemma above_threshold_truthy (v : float) :
  (0.001 <? abs v)%float = true → truthy_number v = true.
Proof.
  unfold truthy_number.
  rewrite FloatAxioms.ltb_spec, FloatAxioms.abs_spec.
  rewrite (FloatAxioms.eqb_spec v 0), (FloatAxioms.eqb_spec v v).
  rewrite threshold_spec_eq.
  replace (FloatOps.Prim2SF 0) with (SpecFloat.S754_zero false) by (vm_compute; reflexivity).
  generalize (FloatOps.Prim2SF v). intros sv. unfold threshold_spec.
  destruct sv as [s|s| |s m e]; cbn [SpecFloat.SFabs];
    unfold SpecFloat.SFltb, SpecFloat.SFeqb.
  - discriminate.
  - intros _. by destruct s.
  - discriminate.
  - intros _. rewrite SFcompare_finite_refl. by destruct s.
Qed.

(** ... and its magnitude is not below [0.001]. *)
Lemma above_threshold_not_below (v : float) :
  (0.001 <? abs v)%float = true → (abs v <? 0.001)%float = false.
Proof.
  rewrite (FloatAxioms.ltb_spec 0.001), (FloatAxioms.ltb_spec (abs v)), FloatAxioms.abs_spec.
  rewrite threshold_spec_eq.
  generalize (FloatOps.Prim2SF v). intros sv. unfold threshold_spec.
  destruct sv as [s|s| |s m e]; cbn [SpecFloat.SFabs]; unfold SpecFloat.SFltb;
    try discriminate; try reflexivity.
  unfold SpecFloat.SFcompare.
  destruct (-62 ?= e) eqn:He.
  - apply Z.compare_eq in He. subst e. rewrite Z.compare_refl.
    pose proof (Pos.compare_cont_antisym 4611686018427388 m Eq) as Ha.
    cbn [CompOpp] in Ha. rewrite <- Ha.
    destruct (Pos.compare_cont Eq 4611686018427388 m); cbn [CompOpp]; congruence.
  - rewrite Z.compare_antisym, He. reflexivity.
  - discriminate.
Qed.

Lemma normalized_change_cases (x y : float) :
  normalized_change x y = 0%float
  ∨ ((0.001 <? abs (normalized_change x y))%float = true
     ∧ truthy_number (normalized_change x y) = true).
Proof.
  unfold normalized_change. cbv zeta.
  destruct (0.001 <? abs ((x - y) / y * 100))%float eqn:Hbig.
  - right. split; [exact Hbig | by apply above_threshold_truthy].
  - by left.
Qed.

(** An entry of the ChangeSet is the literal [0], or a number whose
    magnitude exceeds [0.001]. *)
Lemma calculateRealTimeChanges_value_cases
    (st st' : AppState) (currentRates : gmap string Entry) (baseCurrency c : string)
    (changes : gmap string float) (v : float) :
  calculateRealTimeChanges st currentRates baseCurrency = inr (changes, st') →
  changes !! c = Some v →
  v = 0%float ∨ ((0.001 <? abs v)%float = true ∧ truthy_number v = true).
Proof.
  intros Hret Hv.
  pose proof (calculateRealTimeChanges_cases st currentRates baseCurrency) as Hcases.
  rewrite Hret in Hcases. destruct Hcases as (_ & _ & Hlook). rewrite Hlook in Hv.
  destruct (previousRates st !! baseCurrency) as [previous|]; [|discriminate].
  destruct (bool_decide (c ∈ TARGET_CURRENCIES) && _); [|discriminate].
  unfold callback_entry in Hv.
  destruct (currentRates !! c) as [x|]; [|discriminate].
  destruct (previous !! c) as [y|]; [|discriminate].
  destruct (ToNumber x) as [xn|]; [|discriminate].
  destruct (ToNumber y) as [yn|]; [|discriminate].
  injection Hv as <-. apply normalized_change_cases.
Qed.

Lemma changeOrZero_default
    (st st' : AppState) (currentRates : gmap string Entry) (baseCurrency c : string)
    (changes : gmap string float) :
  calculateRealTimeChanges st currentRates baseCurrency = inr (changes, st') →
  changeOrZero changes c = default 0%float (changes !! c).
Proof.
  intros Hret. unfold changeOrZero.
  destruct (changes !! c) as [v|] eqn:Hv; [|reflexivity]. cbn [default].
  destruct (calculateRealTimeChanges_value_cases _ _ _ _ _ _ _ Hret Hv) as [-> | [_ ->]];
    reflexivity.
Qed.

(* --------------------------------------------------------------------- *)
(** *** What the page shows when a sync ends *)

Lemma changes_of_store
    (st st' : AppState) (currentRates : gmap string Entry) (baseCurrency : string) :
  previousRates st !! baseCurrency = previousRates st' !! baseCurrency →
  changes_of (calculateRealTimeChanges st currentRates baseCurrency)
  = changes_of (calculateRealTimeChanges st' currentRates baseCurrency).
Proof.
  intros Heq. unfold calculateRealTimeChanges. rewrite <- Heq.
  by destruct (match previousRates st !! baseCurrency with
               | Some previous => _ | None => _ end) as [changes' [error|]].
Qed.

Lemma changes_of_inr
    (st : AppState) (currentRates : gmap string Entry) (baseCurrency : string)
    (changes : gmap string float) :
  changes_of (calculateRealTimeChanges st currentRates baseCurrency) = inr changes →
  ∃ st', calculateRealTimeChanges st currentRates baseCurrency = inr (changes, st').
Proof.
  destruct (calculateRealTimeChanges st currentRates baseCurrency) as [error|[changes' st']];
    cbn; [discriminate|]. intros [= <-]. eauto.
Qed.

(** The widgets after the [try] block: untouched when a check or the
    calculation throws, and otherwise as [displayResults] leaves them. *)
Lemma fetchExchangeRates_try_ui
    (w : Page) (baseCurrency : string) (r : FetchResult) (now : Z) :
  let res := fetchExchangeRates_try w baseCurrency r now in
  match accepted_table r with
  | Some table =>
      match calculateRealTimeChanges (app w) table baseCurrency with
      | inl _ => ui res.1 = ui w
      | inr (changes, _) => ui res.1 = (displayResults table baseCurrency changes (ui w)).1
      end
  | None => ui res.1 = ui w
  end.
Proof.
  cbv zeta. unfold accepted_table, rejection, fetchExchangeRates_try.
  destruct r as [| |status body]; try reflexivity.
  destruct (negb (response_ok status)); [reflexivity|].
  destruct body as [| |rates]; try reflexivity.
  destruct (negb (js_truthy rates) || negb (is_TObject (typeof rates))); [reflexivity|].
  destruct (calculateRealTimeChanges _ _ _) as [error|[changes st]]; [reflexivity|].
  destruct (displayResults _ _ _ _) as [u [error|]]; [reflexivity|].
  cbn [app]. by destruct (negb (timer_truthy _)).
Qed.

(** The [catch] and [finally] clauses, on the page that the [try] block left
    when it threw. *)
Lemma fetchExchangeRates_resume_failure
    (w w1 : Page) (baseCurrency : string) (r : FetchResult) (now : Z) (error : Exception) :
  fetchExchangeRates_try w baseCurrency r now = (w1, inl error) →
  let res := fetchExchangeRates_resume w baseCurrency r now in
  res.2 = SyncFailure error
  ∧ app res.1 = set_isFetching false (app w1)
  ∧ host res.1 = host w1
  ∧ loadingHidden (ui res.1) = true
  ∧ formDisabled (ui res.1) = false
  ∧ errorHidden (ui res.1) = false
  ∧ resultsHidden (ui res.1) = resultsHidden (ui w1)
  ∧ tableRows (ui res.1) = tableRows (ui w1)
  ∧ resultsTitle (ui res.1) = resultsTitle (ui w1)
  ∧ fallbackHidden (ui res.1)
    = (if (0 <? size (previousRates (app w1)))%nat then false else fallbackHidden (ui w1))
  ∧ errorMessage (ui res.1)
    = Some match error with
           | ExnAbortError => MsgTimeout
           | ExnApiError statusCode => MsgServiceUnavailable statusCode
           | ExnInvalidResponse => MsgInvalidResponse
           | ExnTypeError | ExnSyntaxError =>
               if isOnline (app w1) then MsgUnexpected else MsgNoConnection
           end.
Proof.
  intros Htry. cbv zeta. unfold fetchExchangeRates_resume. rewrite Htry.
  unfold handleFetchError.
  destruct (0 <? size (previousRates (app w1)))%nat, error, (isOnline (app w1)); cbn;
    repeat split.
Qed.

Lemma calculation_throws_store
    (st st' : AppState) (currentRates : gmap string Entry) (baseCurrency : string) :
  previousRates st !! baseCurrency = previousRates st' !! baseCurrency →
  calculation_throws st currentRates baseCurrency
  = calculation_throws st' currentRates baseCurrency.
Proof. intros Heq. unfold calculation_throws. by rewrite Heq. Qed.

Lemma calculation_throws_iff
    (st : AppState) (currentRates : gmap string Entry) (baseCurrency : string) :
  calculation_throws st currentRates baseCurrency
  = match calculateRealTimeChanges st currentRates baseCurrency with
    | inl _ => true
    | inr _ => false
    end.
Proof.
  pose proof (calculateRealTimeChanges_cases st currentRates baseCurrency) as H.
  destruct (calculateRealTimeChanges st currentRates baseCurrency) as [error|[changes st']].
  - by destruct H.
  - by destruct H.
Qed.

(** X7. A sync that ends in an error leaves the page with the loading panel
    hidden, the form enabled again, the results hidden and the error panel
    shown; the fallback panel is shown exactly when the snapshot store is
    not empty. The message says: timeout for an aborted request, the status
    code for a response that is not ok, invalid response for a rejected
    [rates] field, and for any other error (a failed request, an unreadable
    or null body, a TypeError of the calculation or of the display) no
    connection when the page believes it is offline and an unexpected error
    otherwise. Unless the error comes from [displayResults], the store, the
    online flag and the table rows are not touched. When it does, because a
    rate to display is not a number, the table of the response has been
    stored and the page marked online, so that the message is the unexpected
    error and the fallback panel is shown, and the table holds rows of the
    response only. *)
Theorem failed_sync_screen (w : Page) (r : FetchResult) (now : Z) (error : Exception) :
  isFetching (app w) = false →
  let baseCurrency := currentBaseCurrency (app w) in
  let started := (fetchExchangeRates_begin w).1 in
  let res := fetchExchangeRates_resume started baseCurrency r now in
  res.2 = SyncFailure error →
  loadingHidden (ui res.1) = true
  ∧ formDisabled (ui res.1) = false
  ∧ resultsHidden (ui res.1) = true
  ∧ errorHidden (ui res.1) = false
  ∧ (fallbackHidden (ui res.1) = true ↔ previousRates (app res.1) = ∅)
  ∧ errorMessage (ui res.1)
    = Some match error with
           | ExnAbortError => MsgTimeout
           | ExnApiError statusCode => MsgServiceUnavailable statusCode
           | ExnInvalidResponse => MsgInvalidResponse
           | ExnTypeError | ExnSyntaxError =>
               if isOnline (app res.1) then MsgUnexpected else MsgNoConnection
           end
  ∧ error = default ExnTypeError (rejection r)
  ∧ (display_throws (app w) r baseCurrency = false →
       previousRates (app res.1) = previousRates (app w)
       ∧ isOnline (app res.1) = isOnline (app w)
       ∧ tableRows (ui res.1) = tableRows (ui w))
  ∧ (display_throws (app w) r baseCurrency = true →
       ∃ table, accepted_table r = Some table
         ∧ previousRates (app res.1) = <[baseCurrency := table]> (previousRates (app w))
         ∧ isOnline (app res.1) = true
         ∧ errorMessage (ui res.1) = Some MsgUnexpected
         ∧ fallbackHidden (ui res.1) = false
         ∧ ∀ c row, tableRows (ui res.1) !! c = Some row →
                    ∃ x change, table !! c = Some (ENumber x) ∧ row = (x, change)).
Proof.
  intros Hidle. cbv zeta.
  set (b := currentBaseCurrency (app w)).
  set (p := (fetchExchangeRates_begin w).1).
  assert (Hp : previousRates (app p) = previousRates (app w)
               ∧ isOnline (app p) = isOnline (app w)
               ∧ resultsHidden (ui p) = true
               ∧ fallbackHidden (ui p) = true
               ∧ tableRows (ui p) = tableRows (ui w)).
  { subst p. unfold fetchExchangeRates_begin. rewrite Hidle. cbn. repeat split. }
  clearbody p. destruct Hp as (Hstore & Honline & Hresults & Hfallback & Hrows).
  assert (Hthrows : ∀ table, calculation_throws (app w) table b
                             = calculation_throws (app p) table b).
  { intros table. apply calculation_throws_store. by rewrite Hstore. }
  assert (Hempty : ∀ m : gmap string (gmap string Entry),
            (if (0 <? size m)%nat then false else true) = true ↔ m = ∅).
  { intros m. destruct (size m) as [|n] eqn:Hsize; cbn.
    - split; [intros _; by apply map_size_empty_iff | reflexivity].
    - split; [discriminate|]. intros ->. by rewrite map_size_empty in Hsize. }
  pose proof (fetchExchangeRates_try_state p b r now) as Hstate.
  pose proof (fetchExchangeRates_try_ui p b r now) as Hui.
  cbv zeta in Hstate, Hui. unfold display_throws.
  destruct (fetchExchangeRates_try p b r now) as [w1 result] eqn:Htry.
  destruct result as [error'|changes].
  2: { unfold fetchExchangeRates_resume. rewrite Htry. discriminate. }
  destruct (fetchExchangeRates_resume_failure p w1 b r now error' Htry)
    as (Hout & Happ & _ & Hload & Hform & Herr & Hres & Hrows' & _ & Hfb & Hmsg).
  rewrite Hout. intros [= <-].
  rewrite Hload, Hform, Herr, Hres, Hrows', Hfb, Hmsg, Happ.
  cbn [previousRates isOnline set_isFetching fst snd] in *.
  destruct (rejection r) as [error|] eqn:Hrej.
  - injection Hstate as -> ->.
    assert (Hnone : accepted_table r = None) by (unfold accepted_table; by rewrite Hrej).
    rewrite Hnone, Hresults, Hfallback, Hstore, Honline, Hrows. cbn [default].
    repeat split; try apply Hempty; try discriminate.
  - destruct Hstate as (rates & _ & Htable & Hstate). rewrite Htable in Hui |- *.
    rewrite Hthrows, calculation_throws_iff.
    destruct (calculateRealTimeChanges (app p) (own_properties rates) b)
      as [error|[changes st]] eqn:Hcalc.
    + injection Hstate as -> ->.
      pose proof (calculateRealTimeChanges_cases (app p) (own_properties rates) b) as Hcases.
      rewrite Hcalc in Hcases. destruct Hcases as [-> _].
      rewrite Hresults, Hfallback, Hstore, Honline, Hrows. cbn [default negb andb].
      repeat split; try apply Hempty; try discriminate.
    + destruct Hstate as (Hstore1 & _ & Honline1 & _ & _ & _ & Hresult).
      destruct (displays (own_properties rates) b) eqn:Hshow; [discriminate|].
      injection Hresult as ->.
      pose proof (displayResults_cases (own_properties rates) b changes (ui p)) as Hd.
      cbv zeta in Hd. rewrite <- Hui in Hd.
      destruct Hd as (_ & _ & _ & Hfb1 & _ & _ & _ & Hsound & Hend).
      rewrite (displayResults_throws_iff (own_properties rates) b changes (ui p)), Hshow
        in Hend.
      destruct Hend as (_ & _ & Hres1).
      rewrite Hres1, Hresults, Hfb1, Hfallback, Hstore1, Honline1, Hstore.
      cbn [default negb andb].
      assert (Hsize : (0 <? size (<[b := own_properties rates]> (previousRates (app w))))%nat
                      = true).
      { destruct (size (<[b:=own_properties rates]> (previousRates (app w)))) eqn:Hsize;
          [|reflexivity].
        apply map_size_empty_iff in Hsize. by apply insert_non_empty in Hsize. }
      rewrite Hsize.
      repeat split; try discriminate.
      * intros Hempty'. by apply insert_non_empty in Hempty'.
      * intros _. exists (own_properties rates). repeat split.
        intros c row Hrow. destruct (Hsound c row Hrow) as (x & Hx & -> & _). eauto.
Qed.

Lemma failed_sync_screen_witness :
  let rates := numbers {[ "USD" := 1.25%float ]} in
  let w := run examplePage [Click; Settle (FetchResponse 200 (BodyValue (JObject rates))) 500;
                            Connectivity false] in
  let res := fetchExchangeRates_resume (fetchExchangeRates_begin w).1 "EUR" FetchFailed 900 in
  errorMessage (ui res.1) = Some MsgNoConnection
  ∧ errorHidden (ui res.1) = false
  ∧ fallbackHidden (ui res.1) = false.
Proof.
  cbv zeta.
  set (w := run examplePage _).
  assert (Hidle : isFetching (app w) = false) by (vm_compute; reflexivity).
  assert (Hfail : (fetchExchangeRates_resume (fetchExchangeRates_begin w).1
                     (currentBaseCurrency (app w)) FetchFailed 900).2
                  = SyncFailure ExnTypeError) by reflexivity.
  destruct (failed_sync_screen w FetchFailed 900 ExnTypeError Hidle Hfail)
    as (_ & _ & _ & Herr & _ & Hmsg & _).
  split; [|split; [exact Herr | vm_compute; reflexivity]].
  change "EUR"%string with (currentBaseCurrency (app w)) at 1.
  rewrite Hmsg. vm_compute. reflexivity.
Defined.

(** The page that a response leaves when the sync succeeds, field by
    field. *)
Lemma successful_resume_page
    (w : Page) (baseCurrency : string) (status : Z) (props : gmap string Entry)
    (now : Z) (changes : gmap string float) :
  response_ok status = true →
  changes_of (calculateRealTimeChanges (app w) props baseCurrency) = inr changes →
  displays props baseCurrency = true →
  let res := fetchExchangeRates_resume w baseCurrency
               (FetchResponse status (BodyValue (JObject props))) now in
  res.2 = SyncSuccess changes
  ∧ loadingHidden (ui res.1) = true
  ∧ formDisabled (ui res.1) = false
  ∧ errorHidden (ui res.1) = errorHidden (ui w)
  ∧ fallbackHidden (ui res.1) = fallbackHidden (ui w)
  ∧ resultsHidden (ui res.1) = false
  ∧ resultsTitle (ui res.1) = Some baseCurrency
  ∧ ∀ c, tableRows (ui res.1) !! c
         = match props !! c with
           | Some (ENumber rate) =>
               if bool_decide (c ∈ TARGET_CURRENCIES) && negb (String.eqb c baseCurrency)
               then Some (rate, default 0%float (changes !! c))
               else None
           | _ => None
           end.
Proof.
  intros Hok Hchanges Hshow. cbv zeta.
  apply changes_of_inr in Hchanges as [st' Hcalc].
  pose proof (displayResults_cases props baseCurrency changes (ui w)) as Hd.
  cbv zeta in Hd. rewrite displayResults_throws_iff, Hshow in Hd.
  destruct Hd as (Hl & He & Hm & Hf & Hfo & Ho & Ht & _ & _ & Hr & Hrows).
  unfold fetchExchangeRates_resume, fetchExchangeRates_try. rewrite Hok.
  cbn [negb js_truthy typeof is_TObject orb own_properties]. rewrite Hcalc.
  pose proof (displayResults_throws_iff props baseCurrency changes (ui w)) as Hthrown.
  rewrite Hshow in Hthrown.
  destruct (displayResults props baseCurrency changes (ui w)) as [u thrown].
  cbn [fst snd] in *. subst thrown.
  assert (Hrows' : ∀ c, tableRows u !! c
            = match props !! c with
              | Some (ENumber rate) =>
                  if bool_decide (c ∈ TARGET_CURRENCIES) && negb (String.eqb c baseCurrency)
                  then Some (rate, default 0%float (changes !! c))
                  else None
              | _ => None
              end).
  { intros c. rewrite Hrows. by rewrite (changeOrZero_default _ _ _ _ c _ Hcalc). }
  destruct (negb (timer_truthy (autoRefreshInterval _))); cbn; repeat split; assumption.
Qed.

(** X8. From a page at rest, a click followed by a response with a success
    status and an object of rates in which the rates to display are numbers
    leaves the loading, error and fallback panels hidden, the form enabled and
    the results shown under the base currency of the request, provided the
    calculation returns, as it does on numbers. The table has one row for each
    currency of the response that is a target currency other than that base,
    with its rate and its ChangeSet entry, or 0 where the ChangeSet has no
    entry for it. *)
Theorem successful_sync_screen
    (w : Page) (status : Z) (props : gmap string Entry) (now : Z) (c : string)
    (changes : gmap string float) (st' : AppState) :
  isFetching (app w) = false →
  pending (host w) = [] →
  response_ok status = true →
  let baseCurrency := currentBaseCurrency (app w) in
  calculateRealTimeChanges (app w) props baseCurrency = inr (changes, st') →
  displays props baseCurrency = true →
  let w' := run w [Click; Settle (FetchResponse status (BodyValue (JObject props))) now] in
  loadingHidden (ui w') = true
  ∧ formDisabled (ui w') = false
  ∧ errorHidden (ui w') = true
  ∧ fallbackHidden (ui w') = true
  ∧ resultsHidden (ui w') = false
  ∧ resultsTitle (ui w') = Some baseCurrency
  ∧ tableRows (ui w') !! c
    = match props !! c with
      | Some (ENumber rate) =>
          if bool_decide (c ∈ TARGET_CURRENCIES) && negb (String.eqb c baseCurrency)
          then Some (rate, default 0%float (changes !! c))
          else None
      | _ => None
      end.
Proof.
  intros Hidle Hpending Hok. cbv zeta. intros Hcalc Hshow.
  unfold run. cbn [foldl dispatch]. unfold handleFetchButtonClick, fetchExchangeRates_begin.
  rewrite Hidle. cbn [fst host pending]. rewrite Hpending. cbn [List.app app ui host].
  match goal with
  | |- context [fetchExchangeRates_resume ?p ?b ?r ?t] =>
      destruct (successful_resume_page p b status props now changes Hok)
        as (_ & H1 & H2 & H3 & H4 & H5 & H6 & H7);
      [ | exact Hshow | ]
  end.
  - rewrite <- (changes_of_store (app w)) by reflexivity. by rewrite Hcalc.
  - repeat split; try assumption. apply H7.
Qed.

Lemma successful_sync_screen_witness :
  let t1 := numbers {[ "USD" := 1.25%float; "NZD" := 2%float ]} in
  let t2 := numbers {[ "USD" := 1.5%float; "NZD" := 2.5%float ]} in
  let w := run examplePage [Click; Settle (FetchResponse 200 (BodyValue (JObject t1))) 500] in
  let w' := run w [Click; Settle (FetchResponse 200 (BodyValue (JObject t2))) 900] in
  resultsHidden (ui w') = false
  ∧ tableRows (ui w') !! "USD" = Some (1.5%float, 20%float)
  ∧ tableRows (ui w') !! "NZD" = None.
Proof.
  cbv zeta.
  set (w := run examplePage _).
  set (t2 := numbers {[ "USD" := 1.5%float; "NZD" := 2.5%float ]}).
  assert (Hidle : isFetching (app w) = false) by (vm_compute; reflexivity).
  assert (Hpending : pending (host w) = []) by (vm_compute; reflexivity).
  assert (Hshow : displays t2 (currentBaseCurrency (app w)) = true)
    by apply numbers_displays.
  destruct (calculateRealTimeChanges (app w) t2 (currentBaseCurrency (app w)))
    as [error|[changes st']] eqn:Hcalc; [vm_compute in Hcalc; discriminate|].
  assert (Husd : changes !! "USD" = Some 20%float).
  { vm_compute in Hcalc. injection Hcalc as <- _. vm_compute. reflexivity. }
  split; [|split].
  - by destruct (successful_sync_screen w 200 t2 900 "USD" changes st'
                   Hidle Hpending eq_refl Hcalc Hshow) as (_ & _ & _ & _ & H & _).
  - destruct (successful_sync_screen w 200 t2 900 "USD" changes st'
                Hidle Hpending eq_refl Hcalc Hshow) as (_ & _ & _ & _ & _ & _ & H).
    rewrite H, Husd. vm_compute. reflexivity.
  - destruct (successful_sync_screen w 200 t2 900 "NZD" changes st'
                Hidle Hpending eq_refl Hcalc Hshow) as (_ & _ & _ & _ & _ & _ & H).
    rewrite H. vm_compute. reflexivity.
Defined.

(** X9. The first sync for a base currency shows no movement: when the store
    holds no snapshot for the base currency, every row of the table that the
    sync renders from a response carries the rate of the response and a
    change of exactly 0. *)
Theorem first_sync_rows_show_zero
    (w : Page) (status : Z) (props : gmap string Entry) (now : Z)
    (c : string) (rate change : float) :
  isFetching (app w) = false →
  response_ok status = true →
  previousRates (app w) !! currentBaseCurrency (app w) = None →
  let res := fetchExchangeRates_resume (fetchExchangeRates_begin w).1
               (currentBaseCurrency (app w))
               (FetchResponse status (BodyValue (JObject props))) now in
  tableRows (ui res.1) !! c = Some (rate, change) →
  change = 0%float ∧ props !! c = Some (ENumber rate).
Proof.
  intros Hidle Hok Hnone. cbv zeta.
  set (b := currentBaseCurrency (app w)).
  set (p := (fetchExchangeRates_begin w).1).
  assert (Hp : previousRates (app p) !! b = None).
  { subst p. by destruct (fetchExchangeRates_begin_frame w) as (-> & _). }
  clearbody p.
  pose proof (fetchExchangeRates_try_ui p b
                (FetchResponse status (BodyValue (JObject props))) now) as Hui.
  cbv zeta in Hui. unfold accepted_table, rejection in Hui. rewrite Hok in Hui.
  cbn [negb js_truthy typeof is_TObject orb own_properties] in Hui.
  rewrite (calculateRealTimeChanges_no_previous_eq _ _ _ Hp) in Hui.
  pose proof (displayResults_cases props b ∅ (ui p)) as Hd. cbv zeta in Hd.
  destruct Hd as (_ & _ & _ & _ & _ & _ & _ & Hsound & _). rewrite <- Hui in Hsound.
  unfold fetchExchangeRates_resume.
  destruct (fetchExchangeRates_try p b _ now) as [w1 [error|changes]]; cbn [fst snd ui] in *.
  - unfold handleFetchError.
    destruct (0 <? size (previousRates (app w1)))%nat; cbn;
      intros Hrow; destruct (Hsound c _ Hrow) as (x & Hx & [= -> ->] & _); by split.
  - cbn. intros Hrow. destruct (Hsound c _ Hrow) as (x & Hx & [= -> ->] & _). by split.
Qed.

Lemma first_sync_rows_show_zero_witness :
  let rates : gmap string Entry := {[ "USD" := ENull; "GBP" := ENumber 0.85%float ]} in
  let res := fetchExchangeRates_resume (fetchExchangeRates_begin examplePage).1 "EUR"
               (FetchResponse 200 (BodyValue (JObject rates))) 500 in
  tableRows (ui res.1) !! "GBP" = Some (0.85%float, 0%float)
  ∧ tableRows (ui res.1) !! "USD" = None
  ∧ res.2 = SyncFailure ExnTypeError.
Proof.
  cbv zeta.
  assert (Hrow : tableRows (ui (fetchExchangeRates_resume (fetchExchangeRates_begin examplePage).1
                     "EUR" (FetchResponse 200 (BodyValue (JObject
                        {[ "USD" := ENull; "GBP" := ENumber 0.85%float ]}))) 500).1)
                 !! "GBP" = Some (0.85%float, 0%float)) by (vm_compute; reflexivity).
  destruct (first_sync_rows_show_zero examplePage 200
              {[ "USD" := ENull; "GBP" := ENumber 0.85%float ]} 500 "GBP"
              0.85%float 0%float eq_refl eq_refl eq_refl Hrow) as [_ _].
  split; [exact Hrow|]. vm_compute. split; reflexivity.
Defined.

(* --------------------------------------------------------------------- *)
(** *** How a change is shown *)

(** X10. The threshold of the calculation and the threshold of the display
    agree on what the calculation produces: the cell for an entry of the
    ChangeSet is shown as stable exactly when the entry is 0, and an entry
    that is not 0 is shown as a rise when it is positive and as a fall
    otherwise. *)
Theorem change_shown_stable_iff_zero
    (st st' : AppState) (currentRates : gmap string Entry) (baseCurrency c : string)
    (changes : gmap string float) (v : float) :
  calculateRealTimeChanges st currentRates baseCurrency = inr (changes, st') →
  changes !! c = Some v →
  (getChangeDisplayInfo (changeOrZero changes c) = ChangeNeutral ↔ v = 0%float)
  ∧ (v ≠ 0%float →
     getChangeDisplayInfo (changeOrZero changes c)
     = if (0 <? v)%float then ChangePositive else ChangeNegative).
Proof.
  intros Hret Hv. unfold changeOrZero. rewrite Hv.
  destruct (calculateRealTimeChanges_value_cases _ _ _ _ _ _ _ Hret Hv)
    as [-> | [Hbig Htruthy]].
  - split; [by split | congruence].
  - rewrite Htruthy. unfold getChangeDisplayInfo. cbv zeta.
    rewrite (above_threshold_not_below v Hbig). split; [|reflexivity].
    split.
    + by destruct (0 <? v)%float.
    + intros ->. vm_compute in Hbig. discriminate.
Qed.

Lemma change_shown_stable_iff_zero_witness :
  let previous := numbers {[ "USD" := 1.25%float; "GBP" := 0.5%float ]} in
  let current := numbers {[ "USD" := 1.5%float; "GBP" := 0.5%float ]} in
  let st := set_previousRates {[ "EUR" := previous ]} initialAppState in
  ∃ changes st',
    calculateRealTimeChanges st current "EUR" = inr (changes, st')
    ∧ getChangeDisplayInfo (changeOrZero changes "GBP") = ChangeNeutral
    ∧ getChangeDisplayInfo (changeOrZero changes "USD") = ChangePositive.
Proof.
  cbv zeta.
  destruct (calculateRealTimeChanges _ _ _) as [error|[changes st']] eqn:Hcalc;
    [vm_compute in Hcalc; discriminate|].
  exists changes, st'. split; [reflexivity|].
  assert (Hgbp : changes !! "GBP" = Some 0%float).
  { vm_compute in Hcalc. injection Hcalc as <- _. vm_compute. reflexivity. }
  assert (Husd : changes !! "USD" = Some 20%float).
  { vm_compute in Hcalc. injection Hcalc as <- _. vm_compute. reflexivity. }
  split.
  - apply (change_shown_stable_iff_zero _ _ _ _ "GBP" _ 0%float Hcalc Hgbp). reflexivity.
  - destruct (change_shown_stable_iff_zero _ _ _ _ "USD" _ 20%float Hcalc Husd) as [_ Hsign].
    rewrite Hsign; [reflexivity|]. intros Heq. apply (f_equal (λ x, (x =? 0)%float)) in Heq.
    vm_compute in Heq. discriminate.
Defined.

(* --------------------------------------------------------------------- *)
(** *** The base currency of a sync, offline ticks, sample data *)

(** X11. A sync reports for the base currency it was started with. If the
    base currency is changed while the request is in flight, the change
    starts no second sync; when the calculation returns, the response is
    stored under the base currency of the request, and shown under it, while
    [currentBaseCurrency] is already the new one. *)
Theorem sync_keeps_its_base
    (w : Page) (newBase : string) (status : Z) (props : gmap string Entry) (now : Z)
    (changes : gmap string float) (st' : AppState) :
  isFetching (app w) = false →
  pending (host w) = [] →
  response_ok status = true →
  let oldBase := currentBaseCurrency (app w) in
  calculateRealTimeChanges (app w) props oldBase = inr (changes, st') →
  let w' := run w [Click; CurrencyChange newBase;
                   Settle (FetchResponse status (BodyValue (JObject props))) now] in
  previousRates (app w') = <[oldBase := props]> (previousRates (app w))
  ∧ resultsTitle (ui w') = Some oldBase
  ∧ currentBaseCurrency (app w') = newBase
  ∧ isFetching (app w') = false
  ∧ pending (host w') = [].
Proof.
  intros Hidle Hpending Hok. cbv zeta. intros Hcalc.
  unfold run. cbn [foldl dispatch].
  unfold handleFetchButtonClick, handleCurrencyChange, fetchExchangeRates_begin.
  rewrite Hidle. cbn [fst app ui host isFetching set_isFetching set_currentBaseCurrency pending].
  rewrite Hpending. cbn [List.app].
  set (b := currentBaseCurrency (app w)) in *.
  match goal with
  | |- context [fetchExchangeRates_resume ?p0 b ?r0 now] => set (p := p0); set (r := r0)
  end.
  assert (Hcalc' : ∃ st2, calculateRealTimeChanges (app p) props b = inr (changes, st2)).
  { apply changes_of_inr. rewrite <- (changes_of_store (app w)) by reflexivity.
    by rewrite Hcalc. }
  destruct Hcalc' as [st2 Hcalc'].
  pose proof (fetchExchangeRates_try_state p b r now) as Hstate.
  pose proof (fetchExchangeRates_try_ui p b r now) as Hui.
  pose proof (fetchExchangeRates_try_host p b r now) as Hhost.
  subst r. cbv zeta in Hstate, Hui. unfold accepted_table, rejection in Hstate, Hui.
  rewrite Hok in Hstate, Hui.
  cbn [negb js_truthy typeof is_TObject orb own_properties] in Hstate, Hui.
  destruct Hstate as (rates & [= <-] & _ & Hstate). cbn [own_properties] in Hstate.
  rewrite Hcalc' in Hstate, Hui.
  destruct Hstate as (Hstore & _ & _ & _ & Hbase & _ & _).
  pose proof (displayResults_cases props b changes (ui p)) as Hd. cbv zeta in Hd.
  destruct Hd as (_ & _ & _ & _ & _ & _ & Htitle & _). rewrite <- Hui in Htitle.
  unfold fetchExchangeRates_resume.
  destruct (fetchExchangeRates_try p b _ now) as [w1 [error|changes']];
    cbn [fst snd app ui host] in *.
  - unfold handleFetchError.
    destruct (0 <? size _)%nat; cbn; rewrite ?Hstore, ?Hbase, ?Hhost; cbn;
      by repeat split.
  - cbn. rewrite ?Hstore, ?Hbase, ?Hhost. cbn. by repeat split.
Qed.

Lemma sync_keeps_its_base_witness :
  let rates := numbers {[ "USD" := 1.25%float ]} in
  let w' := run examplePage [Click; CurrencyChange "USD";
                             Settle (FetchResponse 200 (BodyValue (JObject rates))) 500] in
  previousRates (app w') = {[ "EUR" := rates ]}
  ∧ currentBaseCurrency (app w') = "USD".
Proof.
  cbv zeta.
  assert (Hnone : previousRates (app examplePage) !! currentBaseCurrency (app examplePage)
                  = None) by reflexivity.
  destruct (sync_keeps_its_base examplePage "USD" 200 (numbers {[ "USD" := 1.25%float ]}) 500
              ∅ _ eq_refl eq_refl eq_refl
              (calculateRealTimeChanges_no_previous_eq _ _ _ Hnone))
    as (Hstore & _ & Hbase & _).
  split; [exact Hstore | exact Hbase].
Defined.

(** X12. After the browser reports that the connection is lost, timer ticks
    do nothing, however many fire; a click still starts a sync, for
    [fetchExchangeRates] itself does not look at the connection. *)
Theorem offline_ticks_do_nothing (w : Page) (ids : list nat) :
  let w' := dispatch w (Connectivity false) in
  isOnline (app w') = false
  ∧ run w' (Tick <$> ids) = w'
  ∧ (isFetching (app w) = false →
     (fetchExchangeRates_begin w').2 = Started (currentBaseCurrency (app w))).
Proof.
  cbv zeta. cbn [dispatch]. unfold handleOnlineStatus.
  cbn [app isOnline set_isOnline andb].
  set (w' := mkPage _ _ _).
  split; [reflexivity|]. split.
  - induction ids as [|id ids IH]; [reflexivity|].
    cbn [fmap list_fmap run foldl dispatch].
    destruct (bool_decide (id ∈ timers (host w'))); exact IH.
  - intros Hidle. unfold fetchExchangeRates_begin. cbn. by rewrite Hidle.
Qed.

Lemma sampleRates_dom (random : nat → float) :
  dom (sampleRates random) = list_to_set TARGET_CURRENCIES.
Proof. unfold sampleRates, numbers. rewrite dom_fmap_L. reflexivity. Qed.

(** X13. [loadFallbackData] has no busy check and is no sync: when its
    calculation returns, it leaves [isFetching], the suspended calls and the
    timers alone, but it overwrites the snapshot stored for the current base
    currency by its made-up table, which lists exactly the target currencies,
    so the next sync for that base reports changes against made-up rates. It
    hides the error panel and shows the results and the fallback panel. When
    its calculation throws, which takes a stored rate that does not convert
    to a number, it leaves the page as it was. *)
Theorem loadFallbackData_overwrites_snapshot (random : nat → float) (w : Page) :
  let res := loadFallbackData random w in
  let baseCurrency := currentBaseCurrency (app w) in
  match calculateRealTimeChanges (app w) (sampleRates random) baseCurrency with
  | inl error => res = (w, Some error)
  | inr _ =>
      res.2 = None
      ∧ previousRates (app res.1)
        = <[baseCurrency := sampleRates random]> (previousRates (app w))
      ∧ dom (sampleRates random) = list_to_set TARGET_CURRENCIES
      ∧ isFetching (app res.1) = isFetching (app w)
      ∧ host res.1 = host w
      ∧ lastSuccessfulUpdate (app res.1) = lastSuccessfulUpdate (app w)
      ∧ errorHidden (ui res.1) = true
      ∧ resultsHidden (ui res.1) = false
      ∧ fallbackHidden (ui res.1) = false
      ∧ ∀ later,
          changes_of (calculateRealTimeChanges (app res.1) later baseCurrency)
          = changes_of (calculateRealTimeChanges
                          (set_previousRates {[ baseCurrency := sampleRates random ]}
                             initialAppState)
                          later baseCurrency)
  end.
Proof.
  cbv zeta. unfold loadFallbackData.
  pose proof (calculateRealTimeChanges_cases (app w) (sampleRates random)
                (currentBaseCurrency (app w))) as Hcases.
  destruct (calculateRealTimeChanges _ _ _) as [error|[changes st]]; [reflexivity|].
  destruct Hcases as (_ & -> & _).
  pose proof (displayResults_cases (sampleRates random) (currentBaseCurrency (app w))
                changes (hideError (ui w))) as Hd.
  cbv zeta in Hd. rewrite displayResults_throws_iff in Hd.
  pose proof (displayResults_throws_iff (sampleRates random) (currentBaseCurrency (app w))
                changes (hideError (ui w))) as Hthrown.
  assert (Hshow : displays (sampleRates random) (currentBaseCurrency (app w)) = true)
    by apply numbers_displays.
  rewrite Hshow in Hd, Hthrown.
  destruct Hd as (_ & He & _ & _ & _ & _ & _ & _ & _ & Hr & _).
  destruct (displayResults _ _ _ _) as [u thrown]. cbn [fst snd] in *. subst thrown.
  cbn. rewrite He, Hr. split; [reflexivity|]. split; [reflexivity|].
  split; [apply sampleRates_dom|]. repeat split.
  intros later. apply changes_of_store. cbn.
  by rewrite lookup_insert_eq, lookup_singleton_eq.
Qed.

Lemma loadFallbackData_overwrites_snapshot_example :
  let random : nat → float := λ _, 0.5%float in
  let busy := dispatch examplePage Click in
  let res := loadFallbackData random busy in
  res.2 = None
  ∧ isFetching (app res.1) = true
  ∧ previousRates (app res.1) !! "EUR" = Some (sampleRates random)
  ∧ sampleRates random !! "JPY" = Some (ENumber 161.25%float).
Proof. vm_compute. repeat split; reflexivity. Qed.

(** A stored rate that does not convert to a number makes the calculation
    throw: the sync ends in an error and leaves the store as it was, and
    [loadFallbackData] throws. *)
Example calculation_throws_example :
  let odd : gmap string Entry := {[ "USD" := ENested None ]} in
  let w := mkPage (set_previousRates {[ "EUR" := odd ]} initialAppState)
                  (ui examplePage) (host examplePage) in
  let rates := numbers {[ "USD" := 1.25%float ]} in
  let w' := run w [Click; Settle (FetchResponse 200 (BodyValue (JObject rates))) 500] in
  calculateRealTimeChanges (app w) rates "EUR" = inl ExnTypeError
  ∧ previousRates (app w') = previousRates (app w)
  ∧ errorMessage (ui w') = Some MsgUnexpected
  ∧ loadFallbackData (λ _, 0.5%float) w = (w, Some ExnTypeError).
Proof. vm_compute. repeat split; reflexivity. Qed.

End App.

(* ===================================================================== *)
(** ** The service worker ([sw.js]) *)
(* ===================================================================== *)

Module Sw.

Definition CACHE_NAME : string := "currency-app-v1.0.0".

Definition API_CACHE_NAME : string := "currency-api-cache-v1".

Definition STATIC_ASSETS : list string :=
  ["/"; "/index.html"; "/style.css"; "/script.js";
   "https://api.frankfurter.app/latest?from=EUR"].

(** *** Requests, responses and the Cache API *)

(** A request: [url] is [request.url], the whole URL with its fragment. *)
Record Request : Type := mkRequest {
  method : string;
  url : string
}.

(** A response. It carries no [Vary] header, which only such a header would
    let the Cache API look at. *)
Record Response : Type := mkResponse {
  status : Z;
  body : string
}.

(** [String.prototype.includes] *)
Fixpoint includes (needle haystack : string) : bool :=
  String.prefix needle haystack
  || match haystack with
     | EmptyString => false
     | String _ rest => includes needle rest
     end.

(** The URL of [new Request(u)] inside the worker: a path is resolved
    against the origin the worker is served from. *)
Definition resolve (origin u : string) : string :=
  if String.prefix "/" u then origin +:+ u else u.

(** [response.ok] *)
Definition response_ok (r : Response) : bool :=
  (200 <=? status r) && (status r <=? 299).

(** The URL without its fragment, which is what the Cache API compares when
    it matches a request against the stored ones. *)
Fixpoint strip_fragment (u : string) : string :=
  match u with
  | EmptyString => EmptyString
  | String a rest =>
      if Ascii.eqb a "#"%char then EmptyString else String a (strip_fragment rest)
  end.

(** One cache: the stored responses by the URL of the stored request, the
    fragment included. Only GET requests are ever stored. The storage: the
    caches by name, in the order they were created. *)
Definition CacheStorage : Type := list (string * gmap string Response).

Fixpoint cache_lookup (name : string) (cs : CacheStorage) : option (gmap string Response) :=
  match cs with
  | [] => None
  | (n, c) :: rest => if String.eqb n name then Some c else cache_lookup name rest
  end.

Fixpoint cache_update (name : string) (f : gmap string Response → gmap string Response)
    (cs : CacheStorage) : CacheStorage :=
  match cs with
  | [] => []
  | (n, c) :: rest =>
      if String.eqb n name then (n, f c) :: rest else (n, c) :: cache_update name f rest
  end.

(** The caches created before the first cache of a name. *)
Fixpoint older_caches (name : string) (cs : CacheStorage) : CacheStorage :=
  match cs with
  | [] => []
  | (n, c) :: rest => if String.eqb n name then [] else (n, c) :: older_caches name rest
  end.

(** [caches.open(name)]: the cache is created, last in order, when there is
    none of that name. *)
Definition caches_open (name : string) (cs : CacheStorage) : CacheStorage :=
  match cache_lookup name cs with
  | Some _ => cs
  | None => cs ++ [(name, ∅)]
  end.

(** [cache.put] rejects, and stores nothing, unless the request is a GET of
    an http(s) URL and the response is not a partial one (206). *)
Definition storable (request : Request) (response : Response) : bool :=
  String.eqb (method request) "GET"
  && (String.prefix "http://" (url request) || String.prefix "https://" (url request))
  && negb (status response =? 206).

(** The entries of a cache that match a URL: those stored under that URL,
    whatever the fragments. *)
Definition matching (u : string) (c : gmap string Response) : gmap string Response :=
  filter (λ kv, strip_fragment kv.1 = strip_fragment u) c.

(** Storing a response: the entries that match the URL are removed, then
    the response is stored under the URL. So a cache holds at most one
    response for a URL without its fragment. *)
Definition cache_store (u : string) (response : Response) (c : gmap string Response)
    : gmap string Response :=
  <[u := response]> (filter (λ kv, strip_fragment kv.1 ≠ strip_fragment u) c).

Definition cache_put (name : string) (request : Request) (response : Response)
    (cs : CacheStorage) : CacheStorage :=
  if storable request response
  then cache_update name (cache_store (url request) response) cs
  else cs.

(** [cache.match(request)]: only a GET request matches, and it matches the
    entry stored under its URL, whatever the fragments. *)
Definition cache_match (request : Request) (c : gmap string Response) : option Response :=
  if String.eqb (method request) "GET"
  then snd <$> head (map_to_list (matching (url request) c))
  else None.

(** [caches.match(request)]: the caches are searched in creation order and
    the first match is the answer; [None] stands for [undefined]. *)
Fixpoint caches_match (request : Request) (cs : CacheStorage) : option Response :=
  match cs with
  | [] => None
  | (_, c) :: rest =>
      match cache_match request c with
      | Some response => Some response
      | None => caches_match request rest
      end
  end.

(** [caches.keys()] and [caches.delete(name)] *)
Definition caches_keys (cs : CacheStorage) : list string := map fst cs.

Definition caches_delete (name : string) (cs : CacheStorage) : CacheStorage :=
  List.filter (λ nc, negb (String.eqb nc.1 name)) cs.

(** *** The three handlers *)

(** The install handler: [caches.open(CACHE_NAME)], then
    [cache.addAll(STATIC_ASSETS)], which fetches every asset ([net] gives the
    response to each URL, if any) and stores all of them, or none when a
    fetch fails, a response is not ok, or two of the requests match each
    other. The result says whether the installation succeeded. *)
Definition onInstall (origin : string) (net : string → option Response) (cs : CacheStorage)
    : CacheStorage * bool :=
  let cs := caches_open CACHE_NAME cs in
  let requests := map (resolve origin) STATIC_ASSETS in
  match mapM (λ u, r ← net u; if response_ok r && negb (status r =? 206) then Some r else None)
             requests with
  | Some responses =>
      if bool_decide (NoDup (strip_fragment <$> requests))
      then (cache_update CACHE_NAME
              (λ c, foldl (λ c ur, cache_store ur.1 ur.2 c) c (zip requests responses)) cs,
            true)
      else (cs, false)
  | None => (cs, false)
  end.

(** The activate handler: every cache whose name is neither [CACHE_NAME] nor
    [API_CACHE_NAME] is deleted. *)
Definition onActivate (cs : CacheStorage) : CacheStorage :=
  foldl (λ cs cacheName,
           if negb (String.eqb cacheName CACHE_NAME) && negb (String.eqb cacheName API_CACHE_NAME)
           then caches_delete cacheName cs else cs)
        cs (caches_keys cs).

(** The fetch handler. [net] is the outcome of the live [fetch(request)]:
    a response of any status, or [None] when the fetch rejects. The result is
    the response handed to [event.respondWith]; [None] (a rejection, or
    [undefined]) reaches the page as a network error. The write
    [cache.put], which the handler starts without awaiting it, is taken to
    complete within the event. *)
Definition onFetch (request : Request) (net : option Response) (cs : CacheStorage)
    : CacheStorage * option Response :=
  if includes "frankfurter.app" (url request) then
    match net with
    | Some response =>
        (cache_put API_CACHE_NAME request response (caches_open API_CACHE_NAME cs),
         Some response)
    | None => (cs, caches_match request cs)
    end
  else
    match caches_match request cs with
    | Some response => (cs, Some response)
    | None => (cs, net)
    end.

(** *** The worker's life *)

Inductive Phase : Type :=
| Parsed        (* registered, not yet installed *)
| Installed     (* installed, waiting *)
| Activated.    (* active: fetch events are delivered *)

Record Worker : Type := mkWorker {
  phase : Phase;
  caches : CacheStorage
}.

Inductive Event : Type :=
| Install (net : string → option Response)
| Activate
| Fetch (request : Request) (net : option Response).

(** An event is delivered only in the phase it belongs to. A failed
    installation leaves the worker uninstalled. *)
Definition step (origin : string) (s : Worker) (e : Event) : Worker :=
  match e, phase s with
  | Install net, Parsed =>
      let '(cs, ok) := onInstall origin net (caches s) in
      mkWorker (if ok then Installed else Parsed) cs
  | Activate, Installed => mkWorker Activated (onActivate (caches s))
  | Fetch request net, Activated => mkWorker Activated (onFetch request net (caches s)).1
  | _, _ => s
  end.

(** The worker of a fresh origin: no cache exists. *)
Definition initial : Worker := mkWorker Parsed [].

Definition run (origin : string) (events : list Event) : Worker :=
  foldl (step origin) initial events.

(** The worker of an origin that holds caches already, left there by
    whatever ran on the origin before. *)
Definition run_from (origin : string) (cs : CacheStorage) (events : list Event) : Worker :=
  foldl (step origin) (mkWorker Parsed cs) events.

(** The two partitions. *)
Definition static_partition (s : Worker) : gmap string Response :=
  default ∅ (cache_lookup CACHE_NAME (caches s)).

Definition api_partition (s : Worker) : gmap string Response :=
  default ∅ (cache_lookup API_CACHE_NAME (caches s)).

(** *** Matching and storing *)

Lemma matching_lookup (u : string) (c : gmap string Response) (k : string) (r : Response) :
  matching u c !! k = Some r ↔ c !! k = Some r ∧ strip_fragment k = strip_fragment u.
Proof. unfold matching. by rewrite map_lookup_filter_Some. Qed.

Lemma cache_store_lookup (u : string) (response : Response) (c : gmap string Response)
    (k : string) (r : Response) :
  cache_store u response c !! k = Some r
  ↔ (k = u ∧ r = response) ∨ (strip_fragment k ≠ strip_fragment u ∧ c !! k = Some r).
Proof.
  unfold cache_store. rewrite lookup_insert_Some, map_lookup_filter_Some. cbn [fst].
  split.
  - intros [[-> ->]|(_ & Hc & Hs)]; auto.
  - intros [[-> ->]|[Hs Hc]]; [by left|right].
    split; [by intros ->|by split].
Qed.

Lemma cache_store_dom (u : string) (response : Response) (c : gmap string Response)
    (k : string) :
  k ∈ dom (cache_store u response c) → k = u ∨ k ∈ dom c.
Proof.
  intros [r Hr]%elem_of_dom. apply cache_store_lookup in Hr as [[-> _]|[_ Hc]]; [by left|].
  right. apply elem_of_dom. eauto.
Qed.

Lemma matching_store_same (u v : string) (response : Response) (c : gmap string Response) :
  strip_fragment u = strip_fragment v →
  matching v (cache_store u response c) = {[ u := response ]}.
Proof.
  intros Hsame. apply map_eq. intros k. apply option_eq. intros r.
  rewrite matching_lookup, cache_store_lookup, lookup_singleton_Some.
  split.
  - intros [[[-> ->]|[Hne _]] Hk]; [by split|]. congruence.
  - intros [<- <-]. split; [by left|exact Hsame].
Qed.

Lemma matching_store_other (u v : string) (response : Response) (c : gmap string Response) :
  strip_fragment u ≠ strip_fragment v →
  matching v (cache_store u response c) = matching v c.
Proof.
  intros Hother. apply map_eq. intros k. apply option_eq. intros r.
  rewrite !matching_lookup, cache_store_lookup.
  split.
  - intros [[[-> ->]|[_ Hc]] Hk]; [congruence|by split].
  - intros [Hc Hk]. split; [|exact Hk]. right. split; [congruence|exact Hc].
Qed.

(** Storing keeps a cache with at most one entry for a URL without its
    fragment. *)
Lemma cache_store_unique (u : string) (response : Response) (c : gmap string Response) :
  (∀ k1 k2, k1 ∈ dom c → k2 ∈ dom c → strip_fragment k1 = strip_fragment k2 → k1 = k2) →
  ∀ k1 k2, k1 ∈ dom (cache_store u response c) → k2 ∈ dom (cache_store u response c) →
           strip_fragment k1 = strip_fragment k2 → k1 = k2.
Proof.
  intros Hc k1 k2 [r1 H1]%elem_of_dom [r2 H2]%elem_of_dom Hsame.
  apply cache_store_lookup in H1 as [[-> _]|[Hn1 Hc1]];
    apply cache_store_lookup in H2 as [[-> _]|[Hn2 Hc2]]; try congruence.
  apply Hc; [apply elem_of_dom; eauto | apply elem_of_dom; eauto | exact Hsame].
Qed.

Lemma matching_empty_iff (u : string) (c : gmap string Response) :
  matching u c = ∅ ↔ ∀ k, k ∈ dom c → strip_fragment k ≠ strip_fragment u.
Proof.
  split.
  - intros Hempty k [r Hr]%elem_of_dom Hk.
    assert (Hin : matching u c !! k = Some r) by (by apply matching_lookup).
    by rewrite Hempty, lookup_empty in Hin.
  - intros Hnone. apply map_eq. intros k. rewrite lookup_empty.
    destruct (matching u c !! k) as [r|] eqn:Hr; [|reflexivity].
    apply matching_lookup in Hr as [Hc Hk]. exfalso. apply (Hnone k); [|exact Hk].
    apply elem_of_dom. eauto.
Qed.

Lemma cache_match_singleton (request : Request) (c : gmap string Response)
    (u : string) (response : Response) :
  String.eqb (method request) "GET" = true →
  matching (url request) c = {[ u := response ]} →
  cache_match request c = Some response.
Proof.
  intros Hget Hone. unfold cache_match. by rewrite Hget, Hone, map_to_list_singleton.
Qed.

Lemma cache_match_none (request : Request) (c : gmap string Response) :
  (∀ k, k ∈ dom c → strip_fragment k ≠ strip_fragment (url request)) →
  cache_match request c = None.
Proof.
  intros Hnone. apply matching_empty_iff in Hnone. unfold cache_match.
  rewrite Hnone, map_to_list_empty. by destruct (method request =? "GET")%string.
Qed.

Lemma cache_match_empty (request : Request) : cache_match request ∅ = None.
Proof.
  apply cache_match_none. intros k Hk. rewrite dom_empty_L in Hk.
  by apply not_elem_of_empty in Hk.
Qed.

Lemma cache_match_store_same (request : Request) (u : string) (response : Response)
    (c : gmap string Response) :
  String.eqb (method request) "GET" = true →
  strip_fragment u = strip_fragment (url request) →
  cache_match request (cache_store u response c) = Some response.
Proof.
  intros Hget Hsame. apply (cache_match_singleton _ _ u); [exact Hget|].
  by apply matching_store_same.
Qed.

Lemma cache_match_store_other (request : Request) (u : string) (response : Response)
    (c : gmap string Response) :
  strip_fragment u ≠ strip_fragment (url request) →
  cache_match request (cache_store u response c) = cache_match request c.
Proof.
  intros Hother. unfold cache_match. by rewrite matching_store_other.
Qed.

(** A match in a cache is an entry of it whose URL is the one of the
    request, whatever the fragments. *)
Lemma cache_match_Some (request : Request) (c : gmap string Response) (response : Response) :
  cache_match request c = Some response →
  String.eqb (method request) "GET" = true
  ∧ ∃ k, c !! k = Some response ∧ strip_fragment k = strip_fragment (url request).
Proof.
  unfold cache_match. destruct (method request =? "GET")%string; [|discriminate].
  intros Hhead. split; [reflexivity|].
  destruct (map_to_list (matching (url request) c)) as [|[k r] l] eqn:Hlist; [discriminate|].
  cbn in Hhead. injection Hhead as ->. exists k.
  apply matching_lookup, elem_of_map_to_list. rewrite Hlist. apply list_elem_of_here.
Qed.

(** *** The caches of a storage *)

Lemma cache_lookup_update_eq (name : string)
    (f : gmap string Response → gmap string Response) (cs : CacheStorage) :
  cache_lookup name (cache_update name f cs) = f <$> cache_lookup name cs.
Proof.
  induction cs as [|[n c] cs IH]; [reflexivity|].
  cbn [cache_update cache_lookup].
  destruct (String.eqb n name) eqn:Hn; cbn [cache_lookup]; rewrite Hn; [reflexivity|exact IH].
Qed.

Lemma cache_lookup_update_ne (name other : string)
    (f : gmap string Response → gmap string Response) (cs : CacheStorage) :
  String.eqb other name = false →
  cache_lookup name (cache_update other f cs) = cache_lookup name cs.
Proof.
  intros Hne. induction cs as [|[n c] cs IH]; [reflexivity|].
  cbn [cache_update]. destruct (String.eqb_spec n other) as [->|Hn]; cbn [cache_lookup].
  - by rewrite Hne.
  - by rewrite IH.
Qed.

Lemma cache_lookup_app (name n : string) (c : gmap string Response) (cs : CacheStorage) :
  cache_lookup name (cs ++ [(n, c)])
  = match cache_lookup name cs with
    | Some found => Some found
    | None => if String.eqb n name then Some c else None
    end.
Proof.
  induction cs as [|[n' c'] cs IH]; [reflexivity|].
  cbn [List.app cache_lookup]. by destruct (String.eqb n' name).
Qed.

Lemma cache_lookup_open (name : string) (cs : CacheStorage) :
  cache_lookup name (caches_open name cs) = Some (default ∅ (cache_lookup name cs)).
Proof.
  unfold caches_open. destruct (cache_lookup name cs) as [c|] eqn:Hc; [exact Hc|].
  by rewrite cache_lookup_app, Hc, String.eqb_refl.
Qed.

Lemma cache_lookup_open_ne (name other : string) (cs : CacheStorage) :
  String.eqb other name = false →
  cache_lookup name (caches_open other cs) = cache_lookup name cs.
Proof.
  intros Hne. unfold caches_open. destruct (cache_lookup other cs); [reflexivity|].
  rewrite cache_lookup_app, Hne. by destruct (cache_lookup name cs).
Qed.

Lemma older_caches_update (name : string)
    (f : gmap string Response → gmap string Response) (cs : CacheStorage) :
  older_caches name (cache_update name f cs) = older_caches name cs.
Proof.
  induction cs as [|[n c] cs IH]; [reflexivity|].
  cbn [cache_update older_caches].
  destruct (String.eqb n name) eqn:Hn; cbn [older_caches]; rewrite Hn; [reflexivity|].
  by rewrite IH.
Qed.

Lemma older_caches_open (name : string) (cs : CacheStorage) :
  older_caches name (caches_open name cs) = older_caches name cs.
Proof.
  unfold caches_open. destruct (cache_lookup name cs) eqn:Hc; [reflexivity|].
  induction cs as [|[n c] cs IH].
  - cbn. by rewrite String.eqb_refl.
  - cbn [cache_lookup] in Hc. cbn [List.app older_caches].
    destruct (String.eqb n name); [discriminate|]. by rewrite IH.
Qed.

(** The first match in creation order: when no cache older than the cache
    of a name holds a match and that cache holds one, it is the answer. *)
Lemma caches_match_older (request : Request) (name : string) (c : gmap string Response)
    (cs : CacheStorage) :
  cache_lookup name cs = Some c →
  caches_match request (older_caches name cs) = None →
  is_Some (cache_match request c) →
  caches_match request cs = cache_match request c.
Proof.
  intros Hc Holder [response Hmatch].
  induction cs as [|[n c'] cs IH]; [discriminate|].
  cbn [cache_lookup older_caches caches_match] in *.
  destruct (String.eqb n name).
  - injection Hc as ->. by rewrite Hmatch.
  - cbn [caches_match] in Holder.
    destruct (cache_match request c'); [discriminate|]. by apply IH.
Qed.

Lemma caches_match_none (request : Request) (cs : CacheStorage) :
  (∀ nc, nc ∈ cs → cache_match request nc.2 = None) → caches_match request cs = None.
Proof.
  induction cs as [|[n c] cs IH]; intros Hnone; [reflexivity|].
  cbn [caches_match].
  assert (Hc : cache_match request c = None) by apply (Hnone (n, c)), list_elem_of_here.
  rewrite Hc. apply IH. intros nc Hin. apply Hnone. by apply list_elem_of_further.
Qed.

Lemma caches_match_not_get (request : Request) (cs : CacheStorage) :
  String.eqb (method request) "GET" = false → caches_match request cs = None.
Proof.
  intros Hm. induction cs as [|[n c] cs IH]; [reflexivity|].
  cbn [caches_match]. unfold cache_match. by rewrite Hm.
Qed.

Lemma caches_match_app_empty (request : Request) (name : string) (cs : CacheStorage) :
  caches_match request (cs ++ [(name, ∅)]) = caches_match request cs.
Proof.
  induction cs as [|[n c] cs IH].
  - cbn [List.app caches_match]. by rewrite cache_match_empty.
  - cbn [List.app caches_match]. by rewrite IH.
Qed.

(** *** What the caches of a running worker look like *)

Section Worker.

Variable origin : string.

(** The static partition holds pre-cached assets only. *)
Definition static_ok (c : gmap string Response) : Prop :=
  ∀ k, k ∈ dom c → k ∈ map (resolve origin) STATIC_ASSETS.

(** The API partition holds API-classified requests only. *)
Definition api_ok (a : gmap string Response) : Prop :=
  ∀ k, k ∈ dom a → includes "frankfurter.app" k = true.

(** The static cache is created by the installation, the API cache by the
    first live API response, after activation; no other cache appears. *)
Definition well_formed (s : Worker) : Prop :=
  ∃ c, static_ok c ∧
    match phase s with
    | Parsed => caches s = [] ∨ caches s = [(CACHE_NAME, c)]
    | Installed => caches s = [(CACHE_NAME, c)]
    | Activated =>
        caches s = [(CACHE_NAME, c)]
        ∨ ∃ a, api_ok a ∧ caches s = [(CACHE_NAME, c); (API_CACHE_NAME, a)]
    end.

Lemma static_ok_empty : static_ok ∅.
Proof. intros k Hk. rewrite dom_empty_L in Hk. by apply not_elem_of_empty in Hk. Qed.

Lemma api_ok_empty : api_ok ∅.
Proof. intros k Hk. rewrite dom_empty_L in Hk. by apply not_elem_of_empty in Hk. Qed.

Lemma foldl_put_keys (l : list (string * Response)) :
  ∀ (c : gmap string Response) (k : string),
    k ∈ dom (foldl (λ c ur, cache_store ur.1 ur.2 c) c l) → k ∈ dom c ∨ ∃ r, (k, r) ∈ l.
Proof.
  induction l as [|[u r] l IH]; intros c k Hk; cbn [foldl] in Hk.
  - by left.
  - apply IH in Hk as [Hk|[r' Hr']].
    + cbn [fst snd] in Hk. apply cache_store_dom in Hk as [->|Hk].
      * right. exists r. apply list_elem_of_here.
      * by left.
    + right. exists r'. by apply list_elem_of_further.
Qed.

Lemma addAll_static_ok (c : gmap string Response) (responses : list Response) :
  static_ok c →
  static_ok (foldl (λ c ur, cache_store ur.1 ur.2 c) c
               (zip (map (resolve origin) STATIC_ASSETS) responses)).
Proof.
  intros Hc k Hk. apply foldl_put_keys in Hk as [Hk|[r Hr]].
  - by apply Hc.
  - by apply elem_of_zip_l in Hr.
Qed.

Lemma onInstall_well_formed (net : string → option Response) (c : gmap string Response)
    (cs : CacheStorage) :
  static_ok c → cs = [] ∨ cs = [(CACHE_NAME, c)] →
  ∃ c', static_ok c' ∧ (onInstall origin net cs).1 = [(CACHE_NAME, c')].
Proof.
  intros Hc Hcs. unfold onInstall.
  destruct (mapM _ (map (resolve origin) STATIC_ASSETS)) as [responses|];
    [destruct (bool_decide (NoDup _))|].
  - destruct Hcs as [->| ->]; cbn [fst].
    + eexists. split; [|reflexivity]. apply addAll_static_ok, static_ok_empty.
    + eexists. split; [|reflexivity]. by apply addAll_static_ok.
  - destruct Hcs as [->| ->]; cbn [fst].
    + exists ∅. split; [apply static_ok_empty | reflexivity].
    + exists c. split; [assumption | reflexivity].
  - destruct Hcs as [->| ->]; cbn [fst].
    + exists ∅. split; [apply static_ok_empty | reflexivity].
    + exists c. split; [assumption | reflexivity].
Qed.

Lemma step_well_formed (s : Worker) (e : Event) :
  well_formed s → well_formed (step origin s e).
Proof.
  intros (c & Hc & Hshape). unfold step.
  destruct e as [net| |request net], (phase s) eqn:Hphase;
    try (exists c; rewrite Hphase; by split).
  - destruct (onInstall_well_formed net c (caches s) Hc Hshape) as (c' & Hc' & Hcs).
    destruct (onInstall origin net (caches s)) as [cs ok]. cbn [fst] in Hcs. subst cs.
    exists c'. split; [assumption|]. destruct ok; cbn; auto.
  - exists c. split; [assumption|]. cbn [phase caches]. left. by rewrite Hshape.
  - exists c. split; [assumption|]. cbn [phase caches]. unfold onFetch.
    destruct (includes "frankfurter.app" (url request)) eqn:Hhost.
    + destruct net as [response|]; cbn [fst]; [|exact Hshape].
      unfold cache_put.
      destruct Hshape as [->|(a & Ha & ->)].
      * right. destruct (storable request response).
        -- eexists. split; [|reflexivity]. intros k Hk.
           apply cache_store_dom in Hk as [->|Hk]; [assumption|].
           rewrite dom_empty_L in Hk. by apply not_elem_of_empty in Hk.
        -- exists ∅. split; [apply api_ok_empty | reflexivity].
      * right. destruct (storable request response).
        -- eexists. split; [|reflexivity]. intros k Hk.
           apply cache_store_dom in Hk as [->|Hk]; [assumption|].
           by apply Ha.
        -- exists a. by split.
    + by destruct (caches_match request (caches s)).
Qed.

Lemma run_well_formed (events : list Event) : well_formed (run origin events).
Proof.
  unfold run.
  assert (Hinit : well_formed initial).
  { exists ∅. split; [apply static_ok_empty | by left]. }
  revert Hinit. generalize initial.
  induction events as [|e events IH]; intros s Hs; [exact Hs|].
  cbn [foldl]. apply IH. by apply step_well_formed.
Qed.

End Worker.

(** The deployment named in the README, for examples. *)
Definition exampleOrigin : string :=
  "https://projekt-exchange-enestalha-kayhan.onrender.com".

Definition eurRequest : Request :=
  mkRequest "GET" "https://api.frankfurter.app/latest?from=EUR".

(** Installation with every asset answered by [r0], activation, then one
    live API response [r1] to the request for base EUR. *)
Definition exampleTrace (r0 r1 : Response) : list Event :=
  [Install (λ _, Some r0); Activate; Fetch eurRequest (Some r1)].

Lemma activated_shape (origin : string) (events : list Event) :
  phase (run origin events) = Activated →
  ∃ c, static_ok origin c
       ∧ (caches (run origin events) = [(CACHE_NAME, c)]
          ∨ ∃ a, api_ok a ∧ caches (run origin events) = [(CACHE_NAME, c); (API_CACHE_NAME, a)]).
Proof.
  intros Hphase. destruct (run_well_formed origin events) as (c & Hc & Hshape).
  rewrite Hphase in Hshape. eauto.
Qed.

Lemma partition_keys (origin : string) (events : list Event) :
  static_ok origin (static_partition (run origin events))
  ∧ api_ok (api_partition (run origin events)).
Proof.
  destruct (run_well_formed origin events) as (c & Hc & Hshape).
  unfold static_partition, api_partition.
  destruct (phase (run origin events)).
  - destruct Hshape as [-> | ->]; cbn; auto using static_ok_empty, api_ok_empty.
  - rewrite Hshape. cbn. auto using api_ok_empty.
  - destruct Hshape as [-> | (a & Ha & ->)]; cbn; auto using api_ok_empty.
Qed.




(** On the deployment of the README the one request identity the two
    partitions can share is the API URL for base EUR. *)
Example partitions_share_at_most_eur (events : list Event) (k : string) :
  k ∈ dom (static_partition (run exampleOrigin events)) →
  k ∈ dom (api_partition (run exampleOrigin events)) →
  k = url eurRequest.
Proof.
  intros Hstatic Hapi.
  destruct (partition_keys exampleOrigin events) as [Hs Ha].
  specialize (Hs k Hstatic). specialize (Ha k Hapi).
  cbn [map STATIC_ASSETS] in Hs.
  repeat (apply elem_of_cons in Hs as [->|Hs]; [try reflexivity; by vm_compute in Ha|]).
  by apply not_elem_of_nil in Hs.
Qed.

(** The answer of [caches.match] in a worker that started on a fresh origin:
    the static partition is searched first, the API partition second. *)
Lemma caches_match_activated (origin : string) (events : list Event) (request : Request) :
  phase (run origin events) = Activated →
  caches_match request (caches (run origin events))
  = match cache_match request (static_partition (run origin events)) with
    | Some response => Some response
    | None => cache_match request (api_partition (run origin events))
    end.
Proof.
  intros Hphase. unfold static_partition, api_partition.
  destruct (activated_shape origin events Hphase) as (c & _ & [-> | (a & _ & ->)]);
    cbn -[cache_match].
  - by rewrite cache_match_empty.
  - by destruct (cache_match request c), (cache_match request a).
Qed.

(** The API cache after a fetch event for an API-classified request whose
    live attempt gave a response. *)
Lemma api_partition_after_put (request : Request) (response : Response) (cs : CacheStorage) :
  cache_lookup API_CACHE_NAME
    (cache_put API_CACHE_NAME request response (caches_open API_CACHE_NAME cs))
  = Some (if storable request response
          then cache_store (url request) response (default ∅ (cache_lookup API_CACHE_NAME cs))
          else default ∅ (cache_lookup API_CACHE_NAME cs)).
Proof.
  unfold cache_put. destruct (storable request response).
  - by rewrite cache_lookup_update_eq, cache_lookup_open.
  - apply cache_lookup_open.
Qed.

Lemma older_caches_after_put (request : Request) (response : Response) (cs : CacheStorage) :
  older_caches API_CACHE_NAME
    (cache_put API_CACHE_NAME request response (caches_open API_CACHE_NAME cs))
  = older_caches API_CACHE_NAME cs.
Proof.
  unfold cache_put. destruct (storable request response).
  - by rewrite older_caches_update, older_caches_open.
  - apply older_caches_open.
Qed.

Lemma onFetch_static_lookup (request : Request) (net : option Response) (cs : CacheStorage) :
  cache_lookup CACHE_NAME (onFetch request net cs).1 = cache_lookup CACHE_NAME cs.
Proof.
  unfold onFetch. destruct (includes "frankfurter.app" (url request)).
  - destruct net as [response|]; [|reflexivity]. cbn [fst]. unfold cache_put.
    destruct (storable request response).
    + rewrite cache_lookup_update_ne by reflexivity. by apply cache_lookup_open_ne.
    + by apply cache_lookup_open_ne.
  - by destruct (caches_match request cs).
Qed.

(** C6, as the specification states it, fails. After the trace above the API
    partition holds the live response [r1] for the request, yet when the
    network fails the worker answers with [r0], the copy stored at install
    time in the static partition. And before any live response, when the API
    partition has no entry for the request, the failure does not propagate:
    the answer is again [r0]. *)
Lemma api_fallback_prefers_static :
  let r0 := mkResponse 200 "at install" in
  let r1 := mkResponse 200 "live" in
  let s := run exampleOrigin (exampleTrace r0 r1) in
  let s0 := run exampleOrigin [Install (λ _, Some r0); Activate] in
  includes "frankfurter.app" (url eurRequest) = true
  ∧ api_partition s !! url eurRequest = Some r1
  ∧ (onFetch eurRequest None (caches s)).2 = Some r0
  ∧ api_partition s0 !! url eurRequest = None
  ∧ (onFetch eurRequest None (caches s0)).2 = Some r0.
Proof. vm_compute. repeat split; reflexivity. Qed.

(** Where the origin holds an API cache before the worker is installed, that
    cache is the older one, and the fallback answers from it. *)
Example api_fallback_older_api_cache :
  let r0 := mkResponse 200 "at install" in
  let r1 := mkResponse 200 "live, before the installation" in
  let s := run_from exampleOrigin [(API_CACHE_NAME, {[ url eurRequest := r1 ]})]
             [Install (λ _, Some r0); Activate] in
  phase s = Activated
  ∧ caches_keys (caches s) = [API_CACHE_NAME; CACHE_NAME]
  ∧ static_partition s !! url eurRequest = Some r0
  ∧ (onFetch eurRequest None (caches s)).2 = Some r1.
Proof. vm_compute. repeat split; reflexivity. Qed.

(** C6, as amended. In a running worker, whatever caches the origin holds,
    when the live attempt of an API-classified request fails, the caches are
    left as they are and the answer is the one of [caches.match]: the entry
    that matches the request in the first cache, in creation order, that
    holds one, and nothing when no cache holds one, so that the failure
    reaches the page. Where the worker started on an origin without caches,
    the static cache is the older one: the answer is the matching entry of the
    static partition if there is one, else the one of the API partition. The
    matching entry of the API partition is the most recent live response that
    could be stored for the URL of the request, fragments apart: a storable
    live response replaces it, and a live response to another URL leaves it.
    So when no cache older than the API cache holds a match, the fallback is
    the most recent stored live response. *)
Theorem api_fallback (origin : string) (s : Worker) (request : Request) :
  phase s = Activated →
  includes "frankfurter.app" (url request) = true →
  onFetch request None (caches s) = (caches s, caches_match request (caches s))
  ∧ (∀ name c, cache_lookup name (caches s) = Some c →
       caches_match request (older_caches name (caches s)) = None →
       is_Some (cache_match request c) →
       caches_match request (caches s) = cache_match request c)
  ∧ ((∀ nc, nc ∈ caches s → cache_match request nc.2 = None) →
     caches_match request (caches s) = None)
  ∧ (∀ events, s = run origin events →
       caches_match request (caches s)
       = match cache_match request (static_partition s) with
         | Some response => Some response
         | None => cache_match request (api_partition s)
         end)
  ∧ (∀ response, storable request response = true →
       let s' := step origin s (Fetch request (Some response)) in
       api_partition s' !! url request = Some response
       ∧ cache_match request (api_partition s') = Some response
       ∧ static_partition s' = static_partition s
       ∧ (caches_match request (older_caches API_CACHE_NAME (caches s)) = None →
          (onFetch request None (caches s')).2 = Some response))
  ∧ (∀ other response, strip_fragment (url other) ≠ strip_fragment (url request) →
       cache_match request (api_partition (step origin s (Fetch other (Some response))))
       = cache_match request (api_partition s)).
Proof.
  intros Hphase Hhost. split; [|split; [|split; [|split; [|split]]]].
  - unfold onFetch. by rewrite Hhost.
  - intros name c. apply caches_match_older.
  - apply caches_match_none.
  - intros events ->. by apply caches_match_activated.
  - intros response Hstore. cbv zeta.
    assert (Hget : (method request =? "GET")%string = true).
    { unfold storable in Hstore. by apply andb_true_iff in Hstore as [[? _]%andb_true_iff _]. }
    unfold step. rewrite Hphase. unfold static_partition, api_partition. cbn [caches].
    rewrite onFetch_static_lookup. unfold onFetch at 1 2. rewrite Hhost. cbn [fst].
    rewrite api_partition_after_put, Hstore. cbn [default].
    split; [|split; [|split]].
    + apply cache_store_lookup. by left.
    + by apply cache_match_store_same.
    + reflexivity.
    + intros Holder. unfold onFetch. rewrite Hhost. cbn [fst snd].
      rewrite (caches_match_older request API_CACHE_NAME _ _
                 (api_partition_after_put request response (caches s))).
      * rewrite Hstore. by apply cache_match_store_same.
      * by rewrite older_caches_after_put.
      * rewrite Hstore. exists response. by apply cache_match_store_same.
  - intros other response Hother. unfold step. rewrite Hphase.
    unfold api_partition. cbn [caches]. unfold onFetch.
    destruct (includes "frankfurter.app" (url other)); cbn [fst].
    + rewrite api_partition_after_put. cbn [default].
      destruct (storable other response); [|reflexivity].
      by apply cache_match_store_other.
    + by destruct (caches_match other (caches s)).
Qed.

Lemma api_fallback_witness :
  let usd := mkRequest "GET" "https://api.frankfurter.app/latest?from=USD" in
  let r0 := mkResponse 200 "at install" in
  let r1 := mkResponse 200 "live" in
  let s0 := run exampleOrigin [Install (λ _, Some r0); Activate] in
  let s1 := step exampleOrigin s0 (Fetch usd (Some r1)) in
  (onFetch usd None (caches s0)).2 = None
  ∧ (onFetch usd None (caches s1)).2 = Some r1.
Proof.
  cbv zeta.
  destruct (api_fallback exampleOrigin
              (run exampleOrigin [Install (λ _, Some (mkResponse 200 "at install")); Activate])
              (mkRequest "GET" "https://api.frankfurter.app/latest?from=USD")
              eq_refl eq_refl) as (Hfail & _ & _ & _ & Hrecent & _).
  split.
  - rewrite Hfail. vm_compute. reflexivity.
  - destruct (Hrecent (mkResponse 200 "live") eq_refl) as (_ & _ & _ & Hanswer).
    apply Hanswer. vm_compute. reflexivity.
Defined.

(* --------------------------------------------------------------------- *)
(** *** Activation *)

Definition recognized (name : string) : bool :=
  String.eqb name CACHE_NAME || String.eqb name API_CACHE_NAME.

Lemma filter_filter_bool {A} (p q : A → bool) (l : list A) :
  List.filter p (List.filter q l) = List.filter (λ x, q x && p x) l.
Proof.
  induction l as [|x l IH]; [reflexivity|].
  cbn. destruct (q x); cbn; [destruct (p x)|]; by rewrite IH.
Qed.

Lemma onActivate_steps (names : list string) :
  ∀ cs : CacheStorage,
    foldl (λ cs cacheName,
             if negb (String.eqb cacheName CACHE_NAME)
                && negb (String.eqb cacheName API_CACHE_NAME)
             then caches_delete cacheName cs else cs)
          cs names
    = List.filter (λ nc, recognized nc.1 || negb (existsb (String.eqb nc.1) names)) cs.
Proof.
  induction names as [|n names IH]; intros cs.
  - cbn [foldl existsb negb]. symmetry. rewrite forallb_filter_id; [reflexivity|].
    apply forallb_forall. intros x _. apply orb_true_r.
  - cbn [foldl]. rewrite IH.
    destruct (negb (n =? CACHE_NAME)%string && negb (n =? API_CACHE_NAME)%string) eqn:Hn.
    + unfold caches_delete. rewrite filter_filter_bool.
      apply List.filter_ext. intros [name c]. cbn [fst existsb].
      destruct (String.eqb_spec name n) as [->|Hne]; cbn [negb andb orb].
      * unfold recognized. apply andb_true_iff in Hn as [H1 H2].
        apply negb_true_iff in H1, H2. by rewrite H1, H2.
      * reflexivity.
    + apply List.filter_ext. intros [name c]. cbn [fst existsb].
      destruct (String.eqb_spec name n) as [->|Hne]; cbn [negb andb orb]; [|reflexivity].
      unfold recognized.
      destruct (n =? CACHE_NAME)%string, (n =? API_CACHE_NAME)%string; try reflexivity.
      discriminate.
Qed.

Lemma onActivate_filter (cs : CacheStorage) :
  onActivate cs = List.filter (λ nc, recognized nc.1) cs.
Proof.
  unfold onActivate. rewrite onActivate_steps.
  apply List.filter_ext_in. intros [name c] Hin. cbn [fst].
  replace (existsb (String.eqb name) (caches_keys cs)) with true; [apply orb_false_r|].
  symmetry. apply existsb_exists. exists name. split; [|apply String.eqb_refl].
  unfold caches_keys. apply in_map_iff. by exists (name, c).
Qed.

Lemma onActivate_lookup (cs : CacheStorage) (name : string) :
  recognized name = true →
  cache_lookup name (onActivate cs) = cache_lookup name cs.
Proof.
  intros Hname. rewrite onActivate_filter.
  induction cs as [|[n c] cs IH]; [reflexivity|].
  cbn [List.filter fst cache_lookup].
  destruct (recognized n) eqn:Hrec; cbn [cache_lookup].
  - by destruct (n =? name)%string.
  - destruct (String.eqb_spec n name) as [->|_]; [congruence | exact IH].
Qed.

(** X14. Activation removes every cache whose name is neither [CACHE_NAME]
    nor [API_CACHE_NAME], and only those: the caches of the two recognized
    names stay, with their contents and in their order, whatever the cache
    storage held before. *)
Theorem onActivate_keeps_recognized (cs : CacheStorage) :
  onActivate cs = List.filter (λ nc, recognized nc.1) cs
  ∧ (∀ name, name ∈ caches_keys (onActivate cs) → name = CACHE_NAME ∨ name = API_CACHE_NAME)
  ∧ cache_lookup CACHE_NAME (onActivate cs) = cache_lookup CACHE_NAME cs
  ∧ cache_lookup API_CACHE_NAME (onActivate cs) = cache_lookup API_CACHE_NAME cs.
Proof.
  split; [apply onActivate_filter|]. split; [|split].
  - intros name Hin. rewrite onActivate_filter in Hin. unfold caches_keys in Hin.
    apply list_elem_of_In, in_map_iff in Hin as ([n c] & <- & Hin).
    apply filter_In in Hin as [_ Hrec]. cbn [fst] in *. unfold recognized in Hrec.
    apply orb_true_iff in Hrec as [H|H]; apply String.eqb_eq in H; auto.
  - by apply onActivate_lookup.
  - by apply onActivate_lookup.
Qed.

(** Stale caches of earlier versions are removed, the API cache survives. *)
Example onActivate_example :
  let r := mkResponse 200 "x" in
  onActivate [("currency-app-v0.9.0", {[ "/" := r ]});
              (API_CACHE_NAME, {[ "https://api.frankfurter.app/latest?from=USD" := r ]});
              ("other", ∅);
              (CACHE_NAME, ∅)]
  = [(API_CACHE_NAME, {[ "https://api.frankfurter.app/latest?from=USD" := r ]});
     (CACHE_NAME, ∅)].
Proof. vm_compute. reflexivity. Qed.

(* --------------------------------------------------------------------- *)
(** *** What fetch events do to the caches *)

Definition installed (s : Worker) : bool :=
  match phase s with
  | Parsed => false
  | Installed | Activated => true
  end.

Lemma step_installed (origin : string) (s : Worker) (e : Event) :
  installed s = true →
  installed (step origin s e) = true
  ∧ static_partition (step origin s e) = static_partition s.
Proof.
  destruct s as [ph cs]. unfold installed, step, static_partition. cbn [phase caches].
  destruct e as [net| |request net], ph; try discriminate; intros _;
    cbn [phase caches]; try by split.
  - split; [reflexivity|]. by rewrite onActivate_lookup.
  - split; [reflexivity|]. by rewrite onFetch_static_lookup.
Qed.

(** X15. Once the worker is installed, the static partition never changes
    again: no fetch event and no activation adds, replaces or removes a
    pre-cached asset, so the assets stay as they were at install time. *)
Theorem static_partition_frozen (origin : string) (events later : list Event) :
  installed (run origin events) = true →
  static_partition (run origin (events ++ later)) = static_partition (run origin events)
  ∧ installed (run origin (events ++ later)) = true.
Proof.
  unfold run. rewrite foldl_app. generalize (foldl (step origin) initial events).
  induction later as [|e later IH]; intros s Hs; [by split|].
  cbn [foldl]. destruct (step_installed origin s e Hs) as [Hi Hp].
  destruct (IH _ Hi) as [-> ->]. by split.
Qed.

Lemma static_partition_frozen_witness :
  let r0 := mkResponse 200 "at install" in
  let r1 := mkResponse 200 "live" in
  let index := mkRequest "GET" (exampleOrigin +:+ "/index.html") in
  static_partition
    (run exampleOrigin ([Install (λ _, Some r0)]
                        ++ [Activate; Fetch eurRequest (Some r1); Fetch index (Some r1)]))
  !! url index = Some r0.
Proof.
  cbv zeta.
  destruct (static_partition_frozen exampleOrigin
              [Install (λ _, Some (mkResponse 200 "at install"))]
              [Activate; Fetch eurRequest (Some (mkResponse 200 "live"));
               Fetch (mkRequest "GET" (exampleOrigin +:+ "/index.html"))
                     (Some (mkResponse 200 "live"))]
              eq_refl) as [-> _].
  vm_compute. reflexivity.
Defined.

(** A request that differs from a pre-cached asset by its fragment only is
    answered from the static cache; and a response stored for a request that
    is API-classified by its fragment only answers the request without the
    fragment, which is not API-classified. *)
Example fragments_are_ignored :
  let r0 := mkResponse 200 "at install" in
  let r1 := mkResponse 200 "live" in
  let s := run exampleOrigin [Install (λ _, Some r0); Activate] in
  let top := mkRequest "GET" (exampleOrigin +:+ "/index.html#top") in
  let logo := mkRequest "GET" (exampleOrigin +:+ "/logo.png") in
  let tagged := mkRequest "GET" (exampleOrigin +:+ "/logo.png#frankfurter.app") in
  (onFetch top None (caches s)).2 = Some r0
  ∧ includes "frankfurter.app" (url logo) = false
  ∧ (onFetch logo None (caches s)).2 = None
  ∧ (onFetch logo None (caches (step exampleOrigin s (Fetch tagged (Some r1))))).2 = Some r1.
Proof. vm_compute. repeat split; reflexivity. Qed.

(** X16. The worker caches no static asset at run time. In a running
    worker, whatever caches the origin holds, a request that is not
    API-classified leaves the caches as they are whatever the network answers,
    so that after any number of live responses to it the caches answer it as
    they did before. In a worker that started on a fresh origin, a request
    that is not API-classified and that matches, fragments apart, none of the
    pre-cached [STATIC_ASSETS] and no entry of the API partition gets no
    answer when the network fails, even after live responses to the same
    request. *)
Theorem static_requests_never_cached
    (origin : string) (s : Worker) (request : Request) :
  phase s = Activated →
  includes "frankfurter.app" (url request) = false →
  (∀ net, (onFetch request net (caches s)).1 = caches s)
  ∧ (∀ responses : list Response,
       let s' := foldl (step origin) s ((λ r, Fetch request (Some r)) <$> responses) in
       s' = s
       ∧ (onFetch request None (caches s')).2 = caches_match request (caches s))
  ∧ (∀ events, s = run origin events →
       strip_fragment (url request) ∉ strip_fragment <$> map (resolve origin) STATIC_ASSETS →
       (∀ k, k ∈ dom (api_partition s) → strip_fragment k ≠ strip_fragment (url request)) →
       ∀ responses : list Response,
         let s' := run origin (events ++ ((λ r, Fetch request (Some r)) <$> responses)) in
         (onFetch request None (caches s')).2 = None).
Proof.
  intros Hphase Hhost.
  assert (Hkeep : ∀ net, (onFetch request net (caches s)).1 = caches s).
  { intros net. unfold onFetch. rewrite Hhost. by destruct (caches_match request (caches s)). }
  assert (Hsame : ∀ responses : list Response,
            foldl (step origin) s ((λ r, Fetch request (Some r)) <$> responses) = s).
  { induction responses as [|r responses IH]; [reflexivity|].
    cbn [fmap list_fmap foldl]. unfold step at 2. rewrite Hphase, Hkeep.
    replace (mkWorker Activated (caches s)) with s
      by (destruct s; cbn in *; congruence).
    exact IH. }
  assert (Hoffline : (onFetch request None (caches s)).2 = caches_match request (caches s)).
  { unfold onFetch. rewrite Hhost. by destruct (caches_match request (caches s)). }
  split; [exact Hkeep|]. split.
  - intros responses. cbv zeta. rewrite Hsame. by split.
  - intros events -> Hasset Hapi responses. cbv zeta.
    unfold run at 1. rewrite foldl_app. fold (run origin events).
    rewrite Hsame, Hoffline.
    rewrite caches_match_activated by exact Hphase.
    destruct (partition_keys origin events) as [Hs _].
    rewrite (cache_match_none request (static_partition (run origin events))).
    + by rewrite (cache_match_none request (api_partition (run origin events)) Hapi).
    + intros k Hk Hsame'. apply Hasset. rewrite <- Hsame'.
      apply list_elem_of_fmap. exists k. split; [reflexivity|]. by apply Hs.
Qed.

Lemma static_requests_never_cached_witness :
  let r := mkResponse 200 "logo" in
  let logo := mkRequest "GET" (exampleOrigin +:+ "/logo.png") in
  let events := [Install (λ _, Some r); Activate] in
  (onFetch logo None
     (caches (run exampleOrigin
                (events ++ ((λ r, Fetch logo (Some r)) <$> [r; r]))))).2 = None.
Proof.
  cbv zeta.
  assert (Hapi : api_partition (run exampleOrigin
                   [Install (λ _, Some (mkResponse 200 "logo")); Activate]) = ∅)
    by (vm_compute; reflexivity).
  destruct (static_requests_never_cached exampleOrigin
              (run exampleOrigin [Install (λ _, Some (mkResponse 200 "logo")); Activate])
              (mkRequest "GET" (exampleOrigin +:+ "/logo.png")) eq_refl eq_refl)
    as (_ & _ & Hoffline).
  apply (Hoffline _ eq_refl).
  - vm_compute. intros Hin.
    repeat (apply elem_of_cons in Hin as [Hin|Hin]; [discriminate|]).
    by apply not_elem_of_nil in Hin.
  - intros k Hk. rewrite Hapi, dom_empty_L in Hk. by apply not_elem_of_empty in Hk.
Defined.

(* --------------------------------------------------------------------- *)
(** *** Installation *)

(** The fetch of one asset by [cache.addAll]: a response that is ok and not
    partial. *)
Definition fetched_ok (net : string → option Response) (u : string) : bool :=
  match net u with
  | Some r => response_ok r && negb (status r =? 206)
  | None => false
  end.

Lemma addAll_fetches (net : string → option Response) (l : list string) :
  mapM (λ u, r ← net u; if response_ok r && negb (status r =? 206) then Some r else None) l
  = if forallb (fetched_ok net) l
    then Some (omap net l)
    else None.
Proof.
  induction l as [|u l IH]; [reflexivity|].
  cbn [mapM forallb omap list_omap]. rewrite IH.
  change (fetched_ok net u)
    with (match net u with
          | Some r => response_ok r && negb (status r =? 206)
          | None => false
          end).
  destruct (net u) as [r|] eqn:Hnet; cbn -[omap]; [|reflexivity].
  destruct (response_ok r && negb (status r =? 206)); cbn -[omap]; [|reflexivity].
  by destruct (forallb (fetched_ok net) l).
Qed.

Lemma fetched_ok_Some (net : string → option Response) (l : list string) (k : string) :
  forallb (fetched_ok net) l = true → k ∈ l → is_Some (net k).
Proof.
  intros Hall Hin. rewrite forallb_forall in Hall.
  specialize (Hall k (proj1 (list_elem_of_In _ _) Hin)).
  unfold fetched_ok in Hall. destruct (net k); [eauto | discriminate].
Qed.

(** The requests of [addAll] with the responses fetched for them. *)
Lemma addAll_pairs (net : string → option Response) (l : list string) :
  forallb (fetched_ok net) l = true →
  (zip l (omap net l)).*1 = l
  ∧ ∀ u r, u ∈ l → net u = Some r → (u, r) ∈ zip l (omap net l).
Proof.
  induction l as [|u0 l IH]; intros Hall.
  - split; [reflexivity|]. intros u r Hin. by apply not_elem_of_nil in Hin.
  - cbn [forallb] in Hall. apply andb_true_iff in Hall as [Hu Hall].
    destruct (IH Hall) as [Hfst Hin]. unfold fetched_ok in Hu. cbn [omap list_omap].
    destruct (net u0) as [r0|] eqn:Hnet; [|discriminate].
    cbn [zip zip_with fmap list_fmap fst]. fold (omap net l). split.
    + f_equal. exact Hfst.
    + intros u r [->|Hl]%elem_of_cons Hr.
      * rewrite Hnet in Hr. injection Hr as ->. apply list_elem_of_here.
      * apply list_elem_of_further. by apply Hin.
Qed.

Lemma addAll_matching_other (l : list (string * Response)) :
  ∀ (c : gmap string Response) (v : string),
    strip_fragment v ∉ strip_fragment <$> l.*1 →
    matching v (foldl (λ c ur, cache_store ur.1 ur.2 c) c l) = matching v c.
Proof.
  induction l as [|[u r] l IH]; intros c v Hv; [reflexivity|].
  cbn [fmap list_fmap fst] in Hv. apply not_elem_of_cons in Hv as [Hne Hv].
  cbn [foldl fst snd]. rewrite (IH _ _ Hv). apply matching_store_other. congruence.
Qed.

Lemma addAll_matching (l : list (string * Response)) :
  NoDup (strip_fragment <$> l.*1) →
  ∀ (c : gmap string Response) (u : string) (r : Response),
    (u, r) ∈ l →
    matching u (foldl (λ c ur, cache_store ur.1 ur.2 c) c l) = {[ u := r ]}.
Proof.
  induction l as [|[u0 r0] l IH]; intros Hnodup c u r Hin.
  - by apply not_elem_of_nil in Hin.
  - cbn [fmap list_fmap fst] in Hnodup. apply NoDup_cons in Hnodup as [Hhead Hnodup].
    cbn [foldl fst snd]. apply elem_of_cons in Hin as [[= -> ->]|Hin].
    + rewrite (addAll_matching_other _ _ _ Hhead). by apply matching_store_same.
    + by apply IH.
Qed.

(** The two outcomes of the install handler. *)
Lemma onInstall_cases (origin : string) (net : string → option Response) (cs : CacheStorage) :
  let requests := map (resolve origin) STATIC_ASSETS in
  onInstall origin net cs
  = if forallb (fetched_ok net) requests
       && bool_decide (NoDup (strip_fragment <$> requests))
    then (cache_update CACHE_NAME
            (λ c, foldl (λ c ur, cache_store ur.1 ur.2 c) c (zip requests (omap net requests)))
            (caches_open CACHE_NAME cs),
          true)
    else (caches_open CACHE_NAME cs, false).
Proof.
  cbv zeta. unfold onInstall. rewrite addAll_fetches.
  destruct (forallb (fetched_ok net) _); [|reflexivity].
  by destruct (bool_decide (NoDup _)).
Qed.

Lemma install_activate (origin : string) (net : string → option Response) (cs0 : CacheStorage) :
  let requests := map (resolve origin) STATIC_ASSETS in
  run_from origin cs0 [Install net; Activate]
  = if forallb (fetched_ok net) requests
       && bool_decide (NoDup (strip_fragment <$> requests))
    then mkWorker Activated
           (onActivate
              (cache_update CACHE_NAME
                 (λ c, foldl (λ c ur, cache_store ur.1 ur.2 c) c
                         (zip requests (omap net requests)))
                 (caches_open CACHE_NAME cs0)))
    else mkWorker Parsed (caches_open CACHE_NAME cs0).
Proof.
  cbv zeta. unfold run_from. cbn [foldl]. unfold step. cbn [phase caches].
  pose proof (onInstall_cases origin net cs0) as Hinstall. cbv zeta in Hinstall.
  rewrite Hinstall.
  by destruct (forallb (fetched_ok net) _), (bool_decide (NoDup _)).
Qed.

Lemma older_caches_elem (name : string) (cs : CacheStorage) (nc : string * gmap string Response) :
  nc ∈ older_caches name cs → nc ∈ cs ∧ nc.1 ≠ name.
Proof.
  induction cs as [|[n c] cs IH]; cbn [older_caches]; intros Hin.
  - by apply not_elem_of_nil in Hin.
  - destruct (String.eqb_spec n name) as [->|Hne]; [by apply not_elem_of_nil in Hin|].
    apply elem_of_cons in Hin as [->|Hin].
    + split; [apply list_elem_of_here|exact Hne].
    + destruct (IH Hin) as [Hcs Hname]. split; [by apply list_elem_of_further|exact Hname].
Qed.

(** X17. Installation followed by activation makes every pre-cached asset
    available offline, whatever caches the origin held before: when the
    installation succeeds, which takes an ok response for each of the
    [STATIC_ASSETS], the static partition holds each asset with the response
    fetched for it, and a GET request for an asset whose live attempt fails
    is answered with that response, unless a cache older than the static
    cache, which can only be an API cache left on the origin, holds a match.
    On an origin that held no static cache the static partition holds exactly
    the assets, and on an origin that held no cache at all every asset is
    answered with the response fetched for it. *)
Theorem installed_assets_served_offline
    (origin : string) (net : string → option Response) (cs0 : CacheStorage) (asset : string) :
  let s := run_from origin cs0 [Install net; Activate] in
  phase s = Activated →
  asset ∈ map (resolve origin) STATIC_ASSETS →
  forallb (fetched_ok net) (map (resolve origin) STATIC_ASSETS) = true
  ∧ is_Some (net asset)
  ∧ static_partition s !! asset = net asset
  ∧ cache_match (mkRequest "GET" asset) (static_partition s) = net asset
  ∧ (∀ nc, nc ∈ older_caches CACHE_NAME (caches s) → nc.1 = API_CACHE_NAME)
  ∧ (caches_match (mkRequest "GET" asset) (older_caches CACHE_NAME (caches s)) = None →
     (onFetch (mkRequest "GET" asset) None (caches s)).2 = net asset)
  ∧ (cache_lookup CACHE_NAME cs0 = None →
     ∀ k, static_partition s !! k
          = if bool_decide (k ∈ map (resolve origin) STATIC_ASSETS) then net k else None)
  ∧ (cs0 = [] → (onFetch (mkRequest "GET" asset) None (caches s)).2 = net asset).
Proof.
  cbv zeta. rewrite install_activate.
  set (requests := map (resolve origin) STATIC_ASSETS).
  destruct (forallb (fetched_ok net) requests) eqn:Hall; [|discriminate].
  destruct (bool_decide (NoDup (strip_fragment <$> requests))) eqn:Hnodup; [|discriminate].
  apply bool_decide_eq_true_1 in Hnodup. cbn [andb phase caches].
  intros _ Hin.
  destruct (addAll_pairs net requests Hall) as [Hfst Hpairs].
  destruct (fetched_ok_Some net requests asset Hall Hin) as [r Hr].
  set (c0 := default ∅ (cache_lookup CACHE_NAME cs0)).
  set (pairs := zip requests (omap net requests)) in *.
  set (cs1 := cache_update CACHE_NAME
                (λ c, foldl (λ c ur, cache_store ur.1 ur.2 c) c pairs)
                (caches_open CACHE_NAME cs0)).
  assert (Hstatic : cache_lookup CACHE_NAME (onActivate cs1)
                    = Some (foldl (λ c ur, cache_store ur.1 ur.2 c) c0 pairs)).
  { rewrite onActivate_lookup by reflexivity. subst cs1.
    by rewrite cache_lookup_update_eq, cache_lookup_open. }
  assert (Hone : ∀ k x, k ∈ requests → net k = Some x →
            matching k (foldl (λ c ur, cache_store ur.1 ur.2 c) c0 pairs) = {[ k := x ]}).
  { intros k x Hk Hx. apply addAll_matching; [by rewrite Hfst|by apply Hpairs]. }
  assert (Hlookup : ∀ k x, k ∈ requests → net k = Some x →
            foldl (λ c ur, cache_store ur.1 ur.2 c) c0 pairs !! k = Some x).
  { intros k x Hk Hx.
    assert (Hk' : matching k (foldl (λ c ur, cache_store ur.1 ur.2 c) c0 pairs) !! k = Some x)
      by (by rewrite (Hone k x Hk Hx), lookup_singleton_eq).
    by apply matching_lookup in Hk' as [? _]. }
  assert (Hmatch : cache_match (mkRequest "GET" asset)
                     (foldl (λ c ur, cache_store ur.1 ur.2 c) c0 pairs) = Some r).
  { apply (cache_match_singleton _ _ asset); [reflexivity|]. by apply Hone. }
  assert (Hanswer : caches_match (mkRequest "GET" asset)
                      (older_caches CACHE_NAME (onActivate cs1)) = None →
                    (onFetch (mkRequest "GET" asset) None (onActivate cs1)).2 = Some r).
  { intros Holder.
    assert (Hfound : caches_match (mkRequest "GET" asset) (onActivate cs1) = Some r).
    { rewrite (caches_match_older _ CACHE_NAME _ _ Hstatic Holder); [exact Hmatch|].
      rewrite Hmatch. eauto. }
    unfold onFetch. rewrite Hfound. by destruct (includes _ _). }
  unfold static_partition. cbn [caches]. rewrite Hstatic, Hr. cbn [default from_option id].
  split; [reflexivity|]. split; [eauto|]. split; [by apply Hlookup|].
  split; [exact Hmatch|]. split; [|split; [exact Hanswer|split]].
  - intros nc [Hcs Hname]%older_caches_elem.
    rewrite onActivate_filter in Hcs. apply list_elem_of_In, filter_In in Hcs as [_ Hrec].
    unfold recognized in Hrec. apply orb_true_iff in Hrec as [H|H]; apply String.eqb_eq in H.
    + contradiction.
    + exact H.
  - intros Hnone k. subst c0. rewrite Hnone in Hlookup |- *.
    cbn [default from_option id] in Hlookup |- *.
    destruct (decide (k ∈ requests)) as [Hk|Hk].
    + rewrite (bool_decide_eq_true_2 _ Hk).
      destruct (fetched_ok_Some net requests k Hall Hk) as [x Hx].
      rewrite Hx. by apply Hlookup.
    + rewrite (bool_decide_eq_false_2 _ Hk). apply not_elem_of_dom. intros Hdom.
      apply foldl_put_keys in Hdom as [Hdom|[x Hx]].
      * rewrite dom_empty_L in Hdom. by apply not_elem_of_empty in Hdom.
      * apply Hk. rewrite <- Hfst. apply list_elem_of_fmap. by exists (k, x).
  - intros ->. apply Hanswer. reflexivity.
Qed.

Lemma installed_assets_served_offline_witness :
  let net := λ u : string, Some (mkResponse 200 u) in
  let r1 := mkResponse 200 "live, before the installation" in
  let older := [(API_CACHE_NAME, {[ url eurRequest := r1 ]})] in
  let s := run_from exampleOrigin older [Install net; Activate] in
  let style := exampleOrigin +:+ "/style.css" in
  (onFetch (mkRequest "GET" style) None (caches s)).2 = Some (mkResponse 200 style)
  ∧ static_partition s !! url eurRequest = Some (mkResponse 200 (url eurRequest))
  ∧ (onFetch eurRequest None (caches s)).2 = Some r1.
Proof.
  cbv zeta. split; [|vm_compute; split; reflexivity].
  destruct (installed_assets_served_offline exampleOrigin (λ u : string, Some (mkResponse 200 u))
              [(API_CACHE_NAME, {[ url eurRequest := mkResponse 200 "live, before the installation" ]})]
              (exampleOrigin +:+ "/style.css")) as (_ & _ & _ & _ & _ & Hanswer & _).
  - vm_compute. reflexivity.
  - vm_compute. do 2 apply list_elem_of_further. apply list_elem_of_here.
  - apply Hanswer. vm_compute. reflexivity.
Defined.

Definition is_install (e : Event) : bool :=
  match e with Install _ => true | _ => false end.

(** X18. Installation is all or nothing. When the fetch of one of the
    [STATIC_ASSETS] fails, or its response is not ok, no asset is stored
    (the static cache is created empty) and the worker stays uninstalled:
    it is not activated and it handles no fetch event, until an installation
    is tried again. *)
Theorem failed_install_stores_nothing
    (origin : string) (net : string → option Response) (later : list Event) :
  forallb (fetched_ok net) (map (resolve origin) STATIC_ASSETS) = false →
  forallb (λ e, negb (is_install e)) later = true →
  run origin (Install net :: later) = mkWorker Parsed [(CACHE_NAME, ∅)].
Proof.
  intros Hfail Hlater. unfold run. cbn [foldl]. unfold step at 2.
  cbn [initial phase caches]. unfold onInstall. rewrite addAll_fetches, Hfail.
  cbn [caches_open cache_lookup List.app].
  induction later as [|e later IH]; [reflexivity|].
  cbn [forallb] in Hlater. apply andb_true_iff in Hlater as [He Hlater].
  cbn [foldl]. destruct e as [net'| |request net']; try discriminate; by apply IH.
Qed.

Lemma failed_install_stores_nothing_witness :
  let net := λ u : string,
    if String.eqb u "https://api.frankfurter.app/latest?from=EUR"
    then Some (mkResponse 503 "unavailable") else Some (mkResponse 200 u) in
  run exampleOrigin [Install net; Activate; Fetch eurRequest (Some (mkResponse 200 "live"))]
  = mkWorker Parsed [(CACHE_NAME, ∅)].
Proof.
  cbv zeta. apply failed_install_stores_nothing; vm_compute; reflexivity.
Defined.

(* --------------------------------------------------------------------- *)
(** *** Requests that are not GET *)

(** X19. The worker is transparent for requests that are not GET: whatever
    the caches hold, such a request gets exactly the answer of the network
    (none when the network fails, even for an API URL that a GET has
    cached), its response is never stored, and what the caches answer to any
    request is the same after the event as before. *)
Theorem non_get_requests_bypass_cache
    (request : Request) (net : option Response) (cs : CacheStorage) :
  String.eqb (method request) "GET" = false →
  (onFetch request net cs).2 = net
  ∧ ∀ other, caches_match other (onFetch request net cs).1 = caches_match other cs.
Proof.
  intros Hm. unfold onFetch.
  rewrite (caches_match_not_get request cs Hm).
  destruct (includes "frankfurter.app" (url request)); [|by split].
  destruct net as [response|]; [|by split]. cbn [fst snd].
  split; [reflexivity|]. intros other.
  unfold cache_put, storable. rewrite Hm. cbn [andb]. unfold caches_open.
  destruct (cache_lookup API_CACHE_NAME cs); [reflexivity|].
  apply caches_match_app_empty.
Qed.

Lemma non_get_requests_bypass_cache_witness :
  let r1 := mkResponse 200 "live" in
  let s := run exampleOrigin (exampleTrace (mkResponse 200 "at install") r1) in
  let post := mkRequest "POST" (url eurRequest) in
  (onFetch post None (caches s)).2 = None
  ∧ (onFetch eurRequest None (onFetch post (Some r1) (caches s)).1).2
    = (onFetch eurRequest None (caches s)).2.
Proof.
  cbv zeta.
  set (s := run exampleOrigin _).
  split.
  - apply (non_get_requests_bypass_cache (mkRequest "POST" (url eurRequest)) None (caches s)).
    reflexivity.
  - destruct (non_get_requests_bypass_cache (mkRequest "POST" (url eurRequest))
                (Some (mkResponse 200 "live")) (caches s) eq_refl) as [_ Hsame].
    unfold onFetch at 1 3. cbn [url eurRequest].
    replace (includes "frankfurter.app" "https://api.frankfurter.app/latest?from=EUR")
      with true by (vm_compute; reflexivity).
    cbn [snd]. apply Hsame.
Defined.

End Sw.

(* ===================================================================== *)
(** ** The earlier scripts of the repository *)
(* ===================================================================== *)

(** The first script of the page (no version number): [calculateChanges]
    reads the global [previousRates] and leaves the writing of it to
    [displayResults]; it has no threshold. *)
Module Simple.

Import App.

Definition TARGET_CURRENCIES : list string :=
  ["USD"; "EUR"; "GBP"; "TRY"; "JPY"; "CAD"; "AUD"; "CHF"].

(** The body of the [forEach] callback of [calculateChanges]. *)
Definition changesStep (currentRates previous : gmap string Entry) (baseCurrency : string)
    (changes : gmap string float) (currency : string) : Exception + gmap string float :=
  if negb (String.eqb currency baseCurrency)
     && truthy (currentRates !! currency) && truthy (previous !! currency)
  then
    match currentRates !! currency, previous !! currency with
    | Some current, Some prev =>
        match ToNumber current, ToNumber prev with
        | Some current, Some prev =>
            let change := ((current - prev) / prev * 100)%float in
            inr (<[currency := change]> changes)
        | _, _ => inl ExnTypeError
        end
    | _, _ => inr changes
    end
  else inr changes.

(** [calculateChanges(currentRates, baseCurrency)], with the global
    [previousRates] it reads. *)
Definition calculateChanges (previousRates : gmap string (gmap string Entry))
    (currentRates : gmap string Entry) (baseCurrency : string)
    : Exception + gmap string float :=
  let changes : gmap string float := ∅ in
  match previousRates !! baseCurrency with
  | None => inr changes
  | Some previous =>
      match forEach (changesStep currentRates previous baseCurrency) TARGET_CURRENCIES changes with
      | (_, Some error) => inl error
      | (changes, None) => inr changes
      end
  end.

(** The value the callback of [calculateChanges] stores for a currency that
    passes the guard. *)
Definition earlier_entry (currentRates previous : gmap string Entry) (c : string)
    : option float :=
  match currentRates !! c, previous !! c with
  | Some x, Some y =>
      match ToNumber x, ToNumber y with
      | Some x, Some y => Some ((x - y) / y * 100)%float
      | _, _ => None
      end
  | _, _ => None
  end.

Lemma simple_changesStep_cases (currentRates previous : gmap string Entry)
    (baseCurrency : string) (changes : gmap string float) (a : string) :
  match changesStep currentRates previous baseCurrency changes a with
  | inr changes' =>
      ∀ c, changes' !! c
           = if bool_decide (c = a) && callback_guard currentRates previous baseCurrency c
             then earlier_entry currentRates previous c
             else changes !! c
  | inl error =>
      callback_guard currentRates previous baseCurrency a = true
      ∧ callback_converts currentRates previous a = false
  end.
Proof.
  unfold changesStep, callback_guard, callback_converts, earlier_entry.
  destruct (negb (a =? baseCurrency)%string && truthy (currentRates !! a)
            && truthy (previous !! a)) eqn:Hg.
  - destruct (currentRates !! a) as [x|] eqn:Hx, (previous !! a) as [y|] eqn:Hy;
      try (cbn in Hg; rewrite ?andb_false_r in Hg; discriminate).
    destruct (ToNumber x) as [xn|] eqn:Hxn, (ToNumber y) as [yn|] eqn:Hyn;
      try (split; reflexivity).
    cbv zeta. intros c.
    destruct (decide (c = a)) as [->|Hne].
    + rewrite bool_decide_eq_true_2 by reflexivity. cbn [andb].
      rewrite Hx, Hy, Hg, Hxn, Hyn. by rewrite lookup_insert_eq.
    + rewrite bool_decide_eq_false_2 by assumption. cbn [andb].
      by rewrite lookup_insert_ne.
  - intros c. destruct (decide (c = a)) as [->|Hne].
    + rewrite bool_decide_eq_true_2 by reflexivity. cbn [andb]. by rewrite Hg.
    + by rewrite bool_decide_eq_false_2 by assumption.
Qed.

Lemma simple_forEach (currentRates previous : gmap string Entry)
    (baseCurrency : string) (l : list string) :
  ∀ changes : gmap string float,
    match forEach (changesStep currentRates previous baseCurrency) l changes with
    | (changes', None) =>
        ∀ c, changes' !! c
             = if bool_decide (c ∈ l) && callback_guard currentRates previous baseCurrency c
               then earlier_entry currentRates previous c
               else changes !! c
    | (_, Some error) =>
        ∃ c, c ∈ l ∧ callback_guard currentRates previous baseCurrency c = true
             ∧ callback_converts currentRates previous c = false
    end.
Proof.
  induction l as [|a l IH]; intros changes; cbn [forEach].
  - intros c. rewrite bool_decide_eq_false_2; [reflexivity|]. apply not_elem_of_nil.
  - pose proof (simple_changesStep_cases currentRates previous baseCurrency changes a) as Hstep.
    destruct (changesStep currentRates previous baseCurrency changes a) as [error|changes1].
    + exists a. split; [apply list_elem_of_here | exact Hstep].
    + specialize (IH changes1).
      destruct (forEach (changesStep currentRates previous baseCurrency) l changes1)
        as [changes' [error|]].
      * destruct IH as (c & Hin & Hc). exists c. split; [by apply list_elem_of_further|exact Hc].
      * intros c. rewrite IH, Hstep.
        destruct (decide (c = a)) as [->|Hne].
        -- rewrite (bool_decide_eq_true_2 (a = a)) by reflexivity.
           rewrite (bool_decide_eq_true_2 (a ∈ a :: l)) by apply list_elem_of_here.
           cbn [andb].
           destruct (callback_guard currentRates previous baseCurrency a);
             [|by rewrite andb_false_r].
           by destruct (bool_decide (a ∈ l)).
        -- rewrite (bool_decide_eq_false_2 (c = a)) by assumption. cbn [andb].
           destruct (decide (c ∈ l)) as [Hin|Hnin].
           ++ rewrite (bool_decide_eq_true_2 (c ∈ l)) by assumption.
              rewrite (bool_decide_eq_true_2 (c ∈ a :: l)); [reflexivity|].
              by apply list_elem_of_further.
           ++ rewrite (bool_decide_eq_false_2 (c ∈ l)) by assumption.
              rewrite (bool_decide_eq_false_2 (c ∈ a :: l)); [reflexivity|].
              intros [?|?]%elem_of_cons; contradiction.
Qed.

Lemma calculateChanges_returns (previousRates : gmap string (gmap string Entry))
    (currentRates : gmap string Entry) (baseCurrency : string) :
  converts_all currentRates →
  (∀ previous, previousRates !! baseCurrency = Some previous → converts_all previous) →
  ∃ earlier, calculateChanges previousRates currentRates baseCurrency = inr earlier.
Proof.
  intros Hcur Hprev. unfold calculateChanges.
  destruct (previousRates !! baseCurrency) as [previous|]; [|eauto].
  pose proof (simple_forEach currentRates previous baseCurrency TARGET_CURRENCIES ∅) as Hfold.
  destruct (forEach _ _ _) as [changes [error|]]; [|eauto].
  destruct Hfold as (c & _ & _ & Hc). unfold callback_converts in Hc.
  destruct (currentRates !! c) as [x|] eqn:Hx; [|discriminate].
  destruct (previous !! c) as [y|] eqn:Hy; [|discriminate].
  specialize (Hcur c x Hx). specialize (Hprev previous eq_refl c y Hy).
  destruct (ToNumber x), (ToNumber y); congruence.
Qed.

(** X20. For a currency that both scripts target, the ChangeSet of
    [calculateRealTimeChanges] is the one of the earlier [calculateChanges]
    with the threshold applied: the same currencies have an entry, and the
    entry is the earlier value when its magnitude exceeds 0.001, and 0
    otherwise. Both functions return a ChangeSet when the rates convert to
    numbers, as numbers do. *)
Theorem calculateRealTimeChanges_refines_calculateChanges
    (st : AppState) (currentRates : gmap string Entry) (baseCurrency c : string) :
  c ∈ App.TARGET_CURRENCIES →
  c ∈ TARGET_CURRENCIES →
  (∀ changes st' earlier,
     calculateRealTimeChanges st currentRates baseCurrency = inr (changes, st') →
     calculateChanges (previousRates st) currentRates baseCurrency = inr earlier →
     changes !! c
     = (λ change, if (0.001 <? abs change)%float then change else 0%float) <$> earlier !! c)
  ∧ (converts_all currentRates →
     (∀ previous, previousRates st !! baseCurrency = Some previous → converts_all previous) →
     (∃ changes st', calculateRealTimeChanges st currentRates baseCurrency = inr (changes, st'))
     ∧ ∃ earlier, calculateChanges (previousRates st) currentRates baseCurrency = inr earlier).
Proof.
  intros Hnew Hold. split.
  - intros changes st' earlier Hcalc Hearlier.
    pose proof (calculateRealTimeChanges_cases st currentRates baseCurrency) as Hcases.
    rewrite Hcalc in Hcases. destruct Hcases as (_ & _ & Hlook). rewrite Hlook.
    unfold calculateChanges in Hearlier.
    destruct (previousRates st !! baseCurrency) as [previous|].
    + pose proof (simple_forEach currentRates previous baseCurrency TARGET_CURRENCIES ∅)
        as Hfold.
      destruct (forEach _ _ _) as [found [error|]]; [discriminate|].
      injection Hearlier as <-. rewrite Hfold, lookup_empty.
      rewrite (bool_decide_eq_true_2 _ Hnew), (bool_decide_eq_true_2 _ Hold). cbn [andb].
      destruct (callback_guard currentRates previous baseCurrency c); [|reflexivity].
      unfold callback_entry, earlier_entry, normalized_change.
      destruct (currentRates !! c) as [x|], (previous !! c) as [y|]; try reflexivity.
      by destruct (ToNumber x), (ToNumber y).
    + injection Hearlier as <-. by rewrite lookup_empty.
  - intros Hcur Hprev. split.
    + destruct (calculateRealTimeChanges_returns st currentRates baseCurrency) as [changes ->].
      * by apply calculation_throws_converts.
      * eauto.
    + by apply calculateChanges_returns.
Qed.

Lemma calculateRealTimeChanges_refines_calculateChanges_witness :
  let previous := numbers {[ "USD" := 1.25%float; "GBP" := 100000%float ]} in
  let current := numbers {[ "USD" := 1.5%float; "GBP" := 100001%float ]} in
  let st := set_previousRates {[ "EUR" := previous ]} initialAppState in
  ∃ changes st' earlier,
    calculateRealTimeChanges st current "EUR" = inr (changes, st')
    ∧ calculateChanges (previousRates st) current "EUR" = inr earlier
    ∧ earlier !! "GBP" = Some 0.001%float
    ∧ changes !! "GBP" = Some 0%float.
Proof.
  cbv zeta.
  set (st := set_previousRates _ initialAppState).
  set (current := numbers {[ "USD" := 1.5%float; "GBP" := 100001%float ]}).
  destruct (calculateRealTimeChanges st current "EUR") as [error|[changes st']] eqn:Hcalc;
    [vm_compute in Hcalc; discriminate|].
  destruct (calculateChanges (previousRates st) current "EUR") as [error|earlier] eqn:Hearlier;
    [vm_compute in Hearlier; discriminate|].
  exists changes, st', earlier. split; [reflexivity|]. split; [reflexivity|].
  assert (Hgbp : earlier !! "GBP" = Some 0.001%float).
  { vm_compute in Hearlier. injection Hearlier as <-. vm_compute. reflexivity. }
  split; [exact Hgbp|].
  destruct (calculateRealTimeChanges_refines_calculateChanges
              st current "EUR" "GBP"
              ltac:(do 2 apply list_elem_of_further; apply list_elem_of_here)
              ltac:(do 2 apply list_elem_of_further; apply list_elem_of_here)) as [Hrel _].
  rewrite (Hrel _ _ _ Hcalc Hearlier), Hgbp. vm_compute. reflexivity.
Defined.

End Simple.

(** Version 1.0.1 of the script: [fetchExchangeRates] has no busy flag,
    and the interval callback of [startAutoRefresh] looks at the loading
    panel. The page state is the one of version 1.0.4; the field
    [isFetching], which version 1.0.1 does not have, is left alone. The
    widgets the script looks up exist on the page. *)
Module V101.

Import App.

(** The call of [fetchExchangeRates()], up to its first [await]. *)
Definition fetchExchangeRates_begin (w : Page) : Page :=
  let baseCurrency := currentBaseCurrency (app w) in
  let u := disableForm true (hideFallbackData (hideResults (hideError (showLoading (ui w))))) in
  mkPage (app w) u
         (mkHost (timers (host w)) (nextTimerId (host w)) (pending (host w) ++ [baseCurrency])).

(** The callback given to [setInterval] by [startAutoRefresh]:
    [if (AppState.isOnline && !Elements.loadingElement.classList.contains('hidden'))]. *)
Definition autoRefreshTick (w : Page) : Page :=
  if isOnline (app w) && negb (loadingHidden (ui w))
  then fetchExchangeRates_begin w
  else w.

(** X21. In version 1.0.1 the timer refreshes only while the loading panel
    is shown: on a page at rest, with the loading panel hidden, any number
    of ticks changes nothing; and while a request is in flight and the page
    is online, every tick issues one more request for the current base
    currency, with nothing to hold it back. *)
Theorem v101_ticks_refresh_only_while_loading (w : Page) (n : nat) :
  (loadingHidden (ui w) = true → Nat.iter n autoRefreshTick w = w)
  ∧ (loadingHidden (ui w) = false → isOnline (app w) = true →
     pending (host (Nat.iter n autoRefreshTick w))
     = pending (host w) ++ replicate n (currentBaseCurrency (app w))).
Proof.
  split.
  - intros Hhidden. induction n as [|n IH]; [reflexivity|].
    rewrite Nat.iter_succ, IH. unfold autoRefreshTick.
    by rewrite Hhidden, andb_false_r.
  - intros Hshown Honline.
    assert (Hinv : loadingHidden (ui (Nat.iter n autoRefreshTick w)) = false
                   ∧ isOnline (app (Nat.iter n autoRefreshTick w)) = true
                   ∧ currentBaseCurrency (app (Nat.iter n autoRefreshTick w))
                     = currentBaseCurrency (app w)
                   ∧ pending (host (Nat.iter n autoRefreshTick w))
                     = pending (host w) ++ replicate n (currentBaseCurrency (app w))).
    { induction n as [|n (Hl & Ho & Hb & Hp)].
      - cbn. by rewrite app_nil_r.
      - rewrite Nat.iter_succ.
        set (p := Nat.iter n autoRefreshTick w) in *.
        unfold autoRefreshTick. rewrite Hl, Ho. cbn. rewrite Hp, Hb. repeat split; try assumption.
        rewrite <- app_assoc. f_equal. cbn [replicate].
        symmetry. apply replicate_cons_app. }
    apply Hinv.
Qed.

Lemma v101_ticks_refresh_only_while_loading_witness :
  let resting := examplePage in
  let loading := fetchExchangeRates_begin examplePage in
  Nat.iter 3 autoRefreshTick resting = resting
  ∧ pending (host (Nat.iter 3 autoRefreshTick loading))
    = pending (host loading) ++ replicate 3 (currentBaseCurrency (app loading)).
Proof.
  cbv zeta. split.
  - apply (v101_ticks_refresh_only_while_loading examplePage 3). vm_compute. reflexivity.
  - apply (v101_ticks_refresh_only_while_loading (fetchExchangeRates_begin examplePage) 3);
      vm_compute; reflexivity.
Defined.

End V101.
